(** * BananaPicGen: batch orchestration, prompt editor autosave and usage ledger

    A shallow embedding of the TypeScript sources

    - [services/TokenUsage.ts]  (class [TokenUsage], table [PRICING]),
    - [App.tsx]                 ([handleProcess], [updateResultStatus], the
                                 historic-data effect, [handleSavePrompts],
                                 [handlePromptsChange]),
    - [components/PromptEditor.tsx] (the editor state, its effects and
                                 handlers),

    followed by the properties the specification states about them.

    Conventions.  A JS [number] is an IEEE-754 binary64 value, modelled by
    Rocq's primitive [float], whose operations round the same way.  A JS
    string is a sequence of UTF-16 code units.  A method of a class is a
    state transformer on the instance.  React state is a record; a
    [setX(prev => ...)] is a function applied to the record. *)

From Stdlib Require Import ZArith NArith List Bool Lia String Ascii.
From Stdlib Require Import Floats.PrimFloat.
From Stdlib Require Floats.SpecFloat Floats.FloatAxioms.
From stdpp Require Import base option list.

Set Warnings "-inexact-float".
Set Default Proof Using "Type".

(* ===================================================================== *)
(** * JavaScript strings *)
(* ===================================================================== *)

Module JS.

(** A string is its sequence of UTF-16 code units. *)
Definition str := list N.

(** An ASCII literal of the source, as code units. *)
Fixpoint lit (s : string) : str :=
  match s with
  | EmptyString => []
  | String c s' => N_of_ascii c :: lit s'
  end.

(** The line feed of ['\n']. *)
Definition LF : str := [10%N].

(** ECMAScript [WhiteSpace] and [LineTerminator] code units, the ones
    [String.prototype.trim] strips: TAB, LF, VT, FF, CR, SP, NBSP, the
    Unicode space separators, LS, PS and the byte order mark. *)
Definition isWhite (c : N) : bool :=
  ((9 <=? c) && (c <=? 13) || (c =? 32) || (c =? 160) || (c =? 5760)
   || (8192 <=? c) && (c <=? 8202) || (c =? 8232) || (c =? 8233)
   || (c =? 8239) || (c =? 8287) || (c =? 12288) || (c =? 65279))%N.

Fixpoint trimStart (s : str) : str :=
  match s with
  | c :: s' => if isWhite c then trimStart s' else s
  | [] => []
  end.

Definition trimEnd (s : str) : str := rev (trimStart (rev s)).

(** [s.trim()] *)
Definition trim (s : str) : str := trimEnd (trimStart s).

(** Truthiness of a string: the empty string is the only falsy one. *)
Definition truthy (s : str) : bool :=
  match s with [] => false | _ :: _ => true end.

Fixpoint startsWith (p s : str) : bool :=
  match p, s with
  | [], _ => true
  | a :: p', b :: s' => (a =? b)%N && startsWith p' s'
  | _ :: _, [] => false
  end.

(** [s.includes(p)] *)
Fixpoint includes (s p : str) : bool :=
  startsWith p s ||
  match s with
  | [] => false
  | _ :: s' => includes s' p
  end.

(** [a || b] on strings where [a] may be [undefined]. *)
Definition orElse (a : option str) (b : str) : str :=
  match a with
  | Some s => if truthy s then s else b
  | None => b
  end.

End JS.

(* ===================================================================== *)
(** * services/TokenUsage.ts *)
(* ===================================================================== *)

Module TokenUsage.

Local Open Scope float_scope.

(** [export type ModelType] *)
Inductive ModelType := gemini_2_5_flash_image | gemini_3_pro_image_preview.

Module Pricing.
Record t := mk {
  input : float;
  output_text : float;
  output_image : float;
  output_imageflat : float }.
End Pricing.

(** [const PRICING]: pricing per model, in USD. *)
Definition PRICING (model : ModelType) : Pricing.t :=
  match model with
  | gemini_2_5_flash_image =>
      {| Pricing.input := 0;
         Pricing.output_text := 0;
         Pricing.output_image := 0;
         Pricing.output_imageflat := 0.039 |}
  | gemini_3_pro_image_preview =>
      {| Pricing.input := 2.00 / 1000000;
         Pricing.output_text := 12.00 / 1000000;
         Pricing.output_image := 120.00 / 1000000;
         Pricing.output_imageflat := 0 |}
  end.

(** [interface TokenUsageData] *)
Module Data.
Record t := mk {
  total : float;
  input : float;
  output_image : float;
  output_text : float;
  images : float;
  total_cost : float;
  historic_cost : float;
  historic_images : float }.
End Data.

(** [Partial<TokenUsageData>]: every field may be absent ([undefined], or
    [null] in an object read back from storage; [??] treats both alike). *)
Module Partial.
Record t := mk {
  total : option float;
  input : option float;
  output_image : option float;
  output_text : option float;
  images : option float;
  total_cost : option float;
  historic_cost : option float;
  historic_images : option float }.

(** The object with no field at all. *)
Definition empty : t := mk None None None None None None None None.
End Partial.

(** A [TokenUsageData] passed where a [Partial<TokenUsageData>] is
    expected: every field is present. *)
Definition asPartial (d : Data.t) : Partial.t :=
  {| Partial.total := Some (Data.total d);
     Partial.input := Some (Data.input d);
     Partial.output_image := Some (Data.output_image d);
     Partial.output_text := Some (Data.output_text d);
     Partial.images := Some (Data.images d);
     Partial.total_cost := Some (Data.total_cost d);
     Partial.historic_cost := Some (Data.historic_cost d);
     Partial.historic_images := Some (Data.historic_images d) |}.

(** The fields of an instance of [class TokenUsage]. *)
Record t := mk {
  total : float;
  input : float;
  output_image : float;
  output_text : float;
  images : float;
  total_cost : float;
  historic_cost : float;
  historic_images : float }.

(** The field initialisers: every field starts at [0]. *)
Definition fresh : t := mk 0 0 0 0 0 0 0 0.

(** [a ?? b] *)
Definition nullish (a : option float) (b : float) : float :=
  match a with Some x => x | None => b end.

(** [constructor(data?: Partial<TokenUsageData>)] *)
Definition new (data : option Partial.t) : t :=
  match data with
  | Some data =>
      {| total := nullish (Partial.total data) 0;
         input := nullish (Partial.input data) 0;
         output_image := nullish (Partial.output_image data) 0;
         output_text := nullish (Partial.output_text data) 0;
         images := nullish (Partial.images data) 0;
         total_cost := nullish (Partial.total_cost data) 0;
         historic_cost := nullish (Partial.historic_cost data) 0;
         historic_images := nullish (Partial.historic_images data) 0 |}
  | None => fresh
  end.

(** ** Methods

    A method receives the instance and returns its result together with
    the instance it leaves behind. *)
Definition method (A : Type) : Type := t -> A * t.

Definition ret {A} (a : A) : method A := fun this => (a, this).

Definition bind {A B} (m : method A) (k : A -> method B) : method B :=
  fun this => let (a, this') := m this in k a this'.

Notation "x <- m ;; k" := (bind m (fun x => k))
  (at level 90, m at next level, right associativity).
Notation "m ;;; k" := (bind m (fun _ => k))
  (at level 90, right associativity).

(** Reading a field of [this]. *)
Definition read (f : t -> float) : method float := fun this => (f this, this).

(** Assignments [this.f = v]. *)
Definition set_total (v : float) : method unit := fun this =>
  (tt, mk v (input this) (output_image this) (output_text this) (images this)
          (total_cost this) (historic_cost this) (historic_images this)).
Definition set_input (v : float) : method unit := fun this =>
  (tt, mk (total this) v (output_image this) (output_text this) (images this)
          (total_cost this) (historic_cost this) (historic_images this)).
Definition set_output_image (v : float) : method unit := fun this =>
  (tt, mk (total this) (input this) v (output_text this) (images this)
          (total_cost this) (historic_cost this) (historic_images this)).
Definition set_output_text (v : float) : method unit := fun this =>
  (tt, mk (total this) (input this) (output_image this) v (images this)
          (total_cost this) (historic_cost this) (historic_images this)).
Definition set_images (v : float) : method unit := fun this =>
  (tt, mk (total this) (input this) (output_image this) (output_text this) v
          (total_cost this) (historic_cost this) (historic_images this)).
Definition set_total_cost (v : float) : method unit := fun this =>
  (tt, mk (total this) (input this) (output_image this) (output_text this)
          (images this) v (historic_cost this) (historic_images this)).
Definition set_historic_cost (v : float) : method unit := fun this =>
  (tt, mk (total this) (input this) (output_image this) (output_text this)
          (images this) (total_cost this) v (historic_images this)).
Definition set_historic_images (v : float) : method unit := fun this =>
  (tt, mk (total this) (input this) (output_image this) (output_text this)
          (images this) (total_cost this) (historic_cost this) v).

(** Compound assignment [this.f += v]. *)
Definition incr (f : t -> float) (set : float -> method unit) (v : float)
  : method unit :=
  old <- read f ;; set (old + v).

(** The instance a method leaves behind, and its result. *)
Definition exec {A} (m : method A) (this : t) : t := snd (m this).
Definition result {A} (m : method A) (this : t) : A := fst (m this).

(** [addItem(input, output_text, output_image, model)] *)
Definition addItem (input_ output_text_ output_image_ : float)
    (model : ModelType) : method unit :=
  let pricing := PRICING model in
  incr input set_input input_ ;;;
  incr output_text set_output_text output_text_ ;;;
  incr output_image set_output_image output_image_ ;;;
  incr total set_total (input_ + output_text_ + output_image_) ;;;
  incr images set_images 1 ;;;
  let itemCost :=
    input_ * Pricing.input pricing +
    output_text_ * Pricing.output_text pricing +
    output_image_ * Pricing.output_image pricing +
    Pricing.output_imageflat pricing in
  incr total_cost set_total_cost itemCost ;;;
  incr historic_cost set_historic_cost itemCost ;;;
  incr historic_images set_historic_images 1.

(** [reset()] *)
Definition reset : method unit :=
  set_total 0 ;;;
  set_input 0 ;;;
  set_output_image 0 ;;;
  set_output_text 0 ;;;
  set_images 0 ;;;
  set_total_cost 0.

(** The object [getCostBreakdown] returns. *)
Module Breakdown.
Record t := mk {
  inputCost : float;
  outputCost : float;
  totalCost : float;
  historic_cost : float }.
End Breakdown.

(** [getCostBreakdown(model)] *)
Definition getCostBreakdown (model : ModelType) : method Breakdown.t :=
  let pricing := PRICING model in
  i <- read input ;;
  ot <- read output_text ;;
  oi <- read output_image ;;
  n <- read images ;;
  tc <- read total_cost ;;
  hc <- read historic_cost ;;
  ret {| Breakdown.inputCost := i * Pricing.input pricing;
         Breakdown.outputCost :=
           ot * Pricing.output_text pricing +
           oi * Pricing.output_image pricing +
           n * Pricing.output_imageflat pricing;
         Breakdown.totalCost := tc;
         Breakdown.historic_cost := hc |}.

(** [toJSON()] *)
Definition toJSON : method Data.t :=
  a <- read total ;;
  b <- read input ;;
  c <- read output_image ;;
  d <- read output_text ;;
  e <- read images ;;
  f <- read total_cost ;;
  g <- read historic_cost ;;
  h <- read historic_images ;;
  ret (Data.mk a b c d e f g h).

(** [static fromJSON(data)] *)
Definition fromJSON (data : Partial.t) : t := new (Some data).

(** The idiom [TokenUsage.fromJSON(prev.toJSON())] of [App.tsx]: a copy
    of the instance through its snapshot. *)
Definition clone (prev : t) : t := fromJSON (asPartial (result toJSON prev)).

End TokenUsage.

(* ===================================================================== *)
(** * App.tsx: data *)
(* ===================================================================== *)

(** [models/Prompt.ts], and the element type of [UserDocument.prompts]. *)
Module Prompt.
Record t := mk {
  name : JS.str;
  prompt : JS.str;
  enabled : bool;
  skip_beforeafter_prompt : bool }.
End Prompt.

(** [interface UserDocument] of [services/firebase.ts]. *)
Module UserDocument.
Record t := mk {
  firstname : JS.str;
  lastname : JS.str;
  prompts : list Prompt.t;
  prompt_before : option JS.str;
  prompt_after : option JS.str;
  historic_cost : option float;
  historic_images : option float }.
End UserDocument.

(** A browser [File]: the code reads its name and MIME type and hands the
    blob itself to the generation call. *)
Module File.
Record t := mk { name : JS.str; type : JS.str; blob : N }.
End File.

Module Status.
Inductive t := pending | processing | completed | failed.
End Status.

(** [interface ProcessingResult], with the fields [handleProcess] writes. *)
Module ProcessingResult.
Record t := mk {
  id : JS.str * Z;          (* [`${prompt.name}-${Date.now()}`] *)
  files : list File.t;
  promptName : JS.str;
  promptText : JS.str;
  status : Status.t;
  imageUrl : option JS.str;
  error : option JS.str }.
End ProcessingResult.

(** What the generation call reports. *)
Module Usage.
Record t := mk {
  total : float;
  input : float;
  output_image : float;
  output_text : float }.
End Usage.

(** The promise [generateImageFromReference] returns either resolves with
    an image and its usage or rejects with an [Error] carrying a message. *)
Inductive Generated :=
| Resolved (imageUrl : JS.str) (usage : Usage.t)
| Rejected (message : JS.str).

(** [interface LogEntry].  A message is kept as the template literal it
    comes from together with the values of its holes, a [type] is one of
    the four string literals; the wall-clock [timestamp] of an entry is
    not modelled. *)
Module Log.
Inductive level := info | success | error | warning.

Inductive template :=
| NoPromptsConfigured      (* "Error: No prompts configured." *)
| NoPromptsSelected        (* "Error: No prompts selected." *)
| NoFilesSelected          (* "Error: No files selected." *)
| ApiKeyNotConfigured      (* "Error: API Key not configured." *)
| NoFiles                  (* "No files selected." *)
| StartingBatch (files : nat)
                           (* `Starting batch for ${n} files...` *)
| Queued (tasks : nat)     (* `Queued ${n} generation tasks.` *)
| Processing (i n : nat) (promptName : JS.str)
                           (* `Processing [${i + 1}/${n}]:  ${name}` *)
| Success (promptName : JS.str) (usage : Usage.t)
                           (* `Success: (${name}) generated. Tokens: ...` *)
| Failed (promptName : JS.str) (reason : JS.str)
                           (* `Failed: (${name}) - ${err.message}` *)
| KeyInvalid               (* "API Key might be invalid or expired. ..." *)
| BatchFinished            (* "Batch processing finished." *)
| PromptsSaved             (* "Prompts saved to cloud." *)
| PromptsSaveFailed        (* "Failed to save prompts." *)
| WorkspaceCleared         (* "Workspace and Console cleared." *)
| ProfileLoaded.           (* "User profile loaded." *)

Record entry := mk { message : template; type : level }.
End Log.

(** An element of the [results] array.  Writing [next[index] = {...}]
    beyond the end of a JS array extends it with holes, and spreading a
    hole yields an object that has only the three fields just written. *)
Inductive Slot :=
| Hole
| Bare (status : Status.t) (imageUrl error : option JS.str)
| Full (r : ProcessingResult.t).

(** [next[index] = x] on a copy of a JS array. *)
Definition assign {A} (hole : A) (index : nat) (x : A) (l : list A) : list A :=
  if decide (index < length l) then <[index := x]> l
  else l ++ replicate (index - length l) hole ++ [x].

(* ===================================================================== *)
(** * App.tsx: the component state and its handlers *)
(* ===================================================================== *)

Module App.

Import TokenUsage(ModelType).

(** The [useState] cells of [App] that the modelled handlers touch.
    [selectedModel] is a string in the source, chosen among [MODEL_OPTIONS]
    and used as a [ModelType]. *)
Record State := mkState {
  userDoc : option UserDocument.t;
  isSavingUserDoc : bool;
  hasKey : bool;
  selectedFiles : list File.t;
  results : list Slot;
  logs : list Log.entry;
  isProcessing : bool;
  tokenUsage : TokenUsage.t;
  selectedAspectRatio : JS.str;
  selectedImageSize : JS.str;
  selectedModel : ModelType;
  temperature : float }.

(** The state setters, each given the updater form [setX(prev => ...)]. *)
Definition setUserDoc (f : option UserDocument.t -> option UserDocument.t)
    (st : State) : State :=
  mkState (f (userDoc st)) (isSavingUserDoc st) (hasKey st) (selectedFiles st)
    (results st) (logs st) (isProcessing st) (tokenUsage st)
    (selectedAspectRatio st) (selectedImageSize st) (selectedModel st)
    (temperature st).
Definition setIsSavingUserDoc (b : bool) (st : State) : State :=
  mkState (userDoc st) b (hasKey st) (selectedFiles st)
    (results st) (logs st) (isProcessing st) (tokenUsage st)
    (selectedAspectRatio st) (selectedImageSize st) (selectedModel st)
    (temperature st).
Definition setHasKey (b : bool) (st : State) : State :=
  mkState (userDoc st) (isSavingUserDoc st) b (selectedFiles st)
    (results st) (logs st) (isProcessing st) (tokenUsage st)
    (selectedAspectRatio st) (selectedImageSize st) (selectedModel st)
    (temperature st).
Definition setResults (f : list Slot -> list Slot) (st : State) : State :=
  mkState (userDoc st) (isSavingUserDoc st) (hasKey st) (selectedFiles st)
    (f (results st)) (logs st) (isProcessing st) (tokenUsage st)
    (selectedAspectRatio st) (selectedImageSize st) (selectedModel st)
    (temperature st).
Definition setLogs (f : list Log.entry -> list Log.entry) (st : State) : State :=
  mkState (userDoc st) (isSavingUserDoc st) (hasKey st) (selectedFiles st)
    (results st) (f (logs st)) (isProcessing st) (tokenUsage st)
    (selectedAspectRatio st) (selectedImageSize st) (selectedModel st)
    (temperature st).
Definition setIsProcessing (b : bool) (st : State) : State :=
  mkState (userDoc st) (isSavingUserDoc st) (hasKey st) (selectedFiles st)
    (results st) (logs st) b (tokenUsage st)
    (selectedAspectRatio st) (selectedImageSize st) (selectedModel st)
    (temperature st).
Definition setTokenUsage (f : TokenUsage.t -> TokenUsage.t) (st : State)
  : State :=
  mkState (userDoc st) (isSavingUserDoc st) (hasKey st) (selectedFiles st)
    (results st) (logs st) (isProcessing st) (f (tokenUsage st))
    (selectedAspectRatio st) (selectedImageSize st) (selectedModel st)
    (temperature st).

(** [log(message, type)] *)
Definition log (m : Log.template) (ty : Log.level) : State -> State :=
  setLogs (fun prev => prev ++ [Log.mk m ty]).

(** [{ ...next[index], status, imageUrl, error }] *)
Definition overwrite (old : option Slot) (status : Status.t)
    (imageUrl error : option JS.str) : Slot :=
  match old with
  | Some (Full r) =>
      Full (ProcessingResult.mk (ProcessingResult.id r)
              (ProcessingResult.files r) (ProcessingResult.promptName r)
              (ProcessingResult.promptText r) status imageUrl error)
  | Some (Bare _ _ _) | Some Hole | None => Bare status imageUrl error
  end.

(** [updateResultStatus(index, status, imageUrl?, error?)] *)
Definition updateResultStatus (index : nat) (status : Status.t)
    (imageUrl error : option JS.str) : State -> State :=
  setResults (fun prev =>
    assign Hole index (overwrite (prev !! index) status imageUrl error) prev).

(** [handleClear] *)
Definition handleClear (st : State) : State :=
  let st := setResults (fun _ => []) st in
  let st := setTokenUsage (fun prev =>
              let next := TokenUsage.clone prev in
              TokenUsage.exec TokenUsage.reset next) st in
  setLogs (fun _ => [Log.mk Log.WorkspaceCleared Log.info]) st.

(** ** Loading the historic data of the user document

    The effect on [[userDoc?.historic_cost, userDoc?.historic_images]]. *)

(** The [updates] object the effect fills in, from the user document and
    the ledger of the current render. *)
Definition historicUpdates (userDoc : option UserDocument.t)
    (tokenUsage : TokenUsage.t) : option float * option float :=
  let cost :=
    match userDoc ≫= UserDocument.historic_cost with
    | Some remote =>
        if (TokenUsage.historic_cost tokenUsage <? remote)%float
        then Some remote else None
    | None => None
    end in
  let images :=
    match userDoc ≫= UserDocument.historic_images with
    | Some remote =>
        if (TokenUsage.historic_images tokenUsage <? remote)%float
        then Some remote else None
    | None => None
    end in
  (cost, images).

(** The updater passed to [setTokenUsage]. *)
Definition applyHistoricUpdates (updates : option float * option float)
    (prev : TokenUsage.t) : TokenUsage.t :=
  let next := TokenUsage.clone prev in
  let next :=
    match fst updates with
    | Some c => TokenUsage.exec (TokenUsage.set_historic_cost c) next
    | None => next
    end in
  match snd updates with
  | Some n => TokenUsage.exec (TokenUsage.set_historic_images n) next
  | None => next
  end.

(** The effect: the comparison reads the ledger of the render, the
    updater then runs on the ledger of the state, the same one as long as
    no other update is queued in between. *)
Definition loadHistoricData (st : State) : State :=
  let updates := historicUpdates (userDoc st) (tokenUsage st) in
  let needsUpdate := bool_decide (is_Some (fst updates))
                     || bool_decide (is_Some (snd updates)) in
  if needsUpdate then setTokenUsage (applyHistoricUpdates updates) st else st.

(** ** Reading, saving and mirroring the prompt list *)

(** [fetchUserDoc] after [await getUserDocument(user.email)] returned
    [doc]. *)
Definition fetchUserDoc_resolved (doc : UserDocument.t) (st : State) : State :=
  let st := setUserDoc (fun _ => Some doc) st in
  log Log.ProfileLoaded Log.info st.


(** [{ ...prev, prompts, prompt_before, prompt_after }] *)
Definition withPrompts (prompts : list Prompt.t) (promptBefore promptAfter : JS.str)
    (prev : option UserDocument.t) : option UserDocument.t :=
  match prev with
  | Some d =>
      Some (UserDocument.mk (UserDocument.firstname d) (UserDocument.lastname d)
              prompts (Some promptBefore) (Some promptAfter)
              (UserDocument.historic_cost d) (UserDocument.historic_images d))
  | None => None
  end.

(** [handlePromptsChange] *)
Definition handlePromptsChange (prompts : list Prompt.t)
    (promptBefore promptAfter : JS.str) : State -> State :=
  setUserDoc (withPrompts prompts promptBefore promptAfter).

(** [handleSavePrompts], cut at its [await]: the part before the remote
    write is issued, and the two continuations, after the write succeeded
    and after it threw.  [email] is [user?.email]. *)
Definition handleSavePrompts_begin (email : option JS.str) (st : State)
  : State :=
  match email with
  | None => st
  | Some _ => setIsSavingUserDoc true st
  end.

Definition handleSavePrompts_resolved (prompts : list Prompt.t)
    (promptBefore promptAfter : JS.str) (st : State) : State :=
  let st := setUserDoc (withPrompts prompts promptBefore promptAfter) st in
  let st := log Log.PromptsSaved Log.success st in
  setIsSavingUserDoc false st.

Definition handleSavePrompts_rejected (st : State) : State :=
  let st := log Log.PromptsSaveFailed Log.error st in
  setIsSavingUserDoc false st.

(** ** The batch: [handleProcess] *)

(** What [handleProcess] takes from outside the component: whether
    [window.aistudio] exists, the clock read by [Date.now()] at the k-th
    task built, and the outcome of the k-th generation call on its
    arguments. *)
Record Env := mkEnv {
  aistudio : bool;
  dateNow : nat -> Z;
  generateImageFromReference :
    nat -> list File.t -> JS.str -> JS.str -> JS.str -> ModelType -> float ->
    Generated }.

(** [userDoc.prompts.filter(p => p.enabled && p.name.trim())] *)
Definition enabledPrompts (doc : UserDocument.t) : list Prompt.t :=
  List.filter (fun p => Prompt.enabled p && JS.truthy (JS.trim (Prompt.name p)))
    (UserDocument.prompts doc).

(** The template literal
    [`${beforeText}${beforeText ? '\n' : ''}${basePrompt}${afterText ? '\n' : ''}${afterText}`.trim()] *)
Definition fullPrompt (doc : UserDocument.t) (prompt : Prompt.t) : JS.str :=
  let beforeText := JS.orElse (UserDocument.prompt_before doc) [] in
  let afterText := JS.orElse (UserDocument.prompt_after doc) [] in
  let basePrompt := Prompt.prompt prompt in
  JS.trim (beforeText ++ (if JS.truthy beforeText then JS.LF else []) ++
           basePrompt ++ (if JS.truthy afterText then JS.LF else []) ++
           afterText).

(** The body of [enabledPrompts.forEach(prompt => { ... tasks.push(...) })]:
    one [push] onto the tasks built so far. *)
Definition pushTask (env : Env) (doc : UserDocument.t)
    (filesToProcess : list File.t) (tasks : list ProcessingResult.t)
    (prompt : Prompt.t) : list ProcessingResult.t :=
  tasks ++
  [ProcessingResult.mk
     (Prompt.name prompt, dateNow env (length tasks))
     filesToProcess
     (Prompt.name prompt)
     (fullPrompt doc prompt)
     Status.pending None None].

(** Step 2 of [handleProcess]: the task list. *)
Definition buildTasks (env : Env) (doc : UserDocument.t)
    (filesToProcess : list File.t) : list ProcessingResult.t :=
  fold_left (pushTask env doc filesToProcess) (enabledPrompts doc) [].

(** [err.message && err.message.includes("Requested entity was not found")] *)
Definition keyRejected (message : JS.str) : bool :=
  JS.truthy message &&
  JS.includes message (JS.lit "Requested entity was not found").

(** Step 4 of [handleProcess]: the sequential loop
    [for (let i = 0; i < tasks.length; i++)], entered at index [i] with the
    tasks from [i] on still to run.  [n] is [tasks.length]; the model,
    aspect ratio, size and temperature are the ones of the render in which
    the button was pressed, [start].  The batch is followed on its own: no
    other handler of the page runs while a call is awaited. *)
Fixpoint processLoop (env : Env) (start : State) (n i : nat)
    (todo : list ProcessingResult.t) (st : State) : State :=
  match todo with
  | [] => st
  | task :: todo' =>
      let st := updateResultStatus i Status.processing None None st in
      let st := log (Log.Processing (i + 1) n (ProcessingResult.promptName task))
                  Log.info st in
      match generateImageFromReference env i
              (ProcessingResult.files task) (ProcessingResult.promptText task)
              (selectedAspectRatio start) (selectedImageSize start)
              (selectedModel start) (temperature start) with
      | Resolved imageUrl usage =>
          let st := setTokenUsage (fun prev =>
                      let next := TokenUsage.clone prev in
                      TokenUsage.exec
                        (TokenUsage.addItem (Usage.input usage)
                           (Usage.output_text usage) (Usage.output_image usage)
                           (selectedModel start)) next) st in
          let st := updateResultStatus i Status.completed (Some imageUrl) None st in
          let st := log (Log.Success (ProcessingResult.promptName task) usage)
                      Log.success st in
          processLoop env start n (S i) todo' st
      | Rejected message =>
          let st := updateResultStatus i Status.failed None (Some message) st in
          let st := log (Log.Failed (ProcessingResult.promptName task) message)
                      Log.error st in
          if keyRejected message then
            let st := log Log.KeyInvalid Log.error st in
            (* Only force reset if we are in a mode where selection is
               possible, otherwise just stop and warn. *)
            let st := if aistudio env then setHasKey false st else st in
            st (* break *)
          else processLoop env start n (S i) todo' st
      end
  end.

(** [handleProcess].  The guard [!userDoc.prompts] of the source never
    fires on a document of type [UserDocument], whose [prompts] is an
    array. *)
Definition handleProcess (env : Env) (st : State) : State :=
  match userDoc st with
  | None => log Log.NoPromptsConfigured Log.error st
  | Some doc =>
      if decide (length (UserDocument.prompts doc) = 0) then
        log Log.NoPromptsConfigured Log.error st
      else
      let enabled := enabledPrompts doc in
      if decide (length enabled = 0) then
        log Log.NoPromptsSelected Log.error st
      else if decide (length (selectedFiles st) = 0) then
        log Log.NoFilesSelected Log.error st
      else if negb (hasKey st) then
        log Log.ApiKeyNotConfigured Log.error st
      else
        let start := st in
        let st := setIsProcessing true st in
        let st := setResults (fun _ => []) st in
        let filesToProcess := selectedFiles start in
        if decide (length filesToProcess = 0) then
          let st := log Log.NoFiles Log.warning st in
          setIsProcessing false st
        else
          let st := log (Log.StartingBatch (length filesToProcess)) Log.info st in
          let tasks := buildTasks env doc filesToProcess in
          let st := setResults (fun _ => map Full tasks) st in
          let st := log (Log.Queued (length tasks)) Log.info st in
          let st := processLoop env start (length tasks) 0 tasks st in
          let st := setIsProcessing false st in
          log Log.BatchFinished Log.success st
  end.

(** Whether [handleProcess] gets past its four guards and starts a batch. *)
Definition starts (st : State) : bool :=
  match userDoc st with
  | None => false
  | Some doc =>
      bool_decide (enabledPrompts doc ≠ []) &&
      bool_decide (selectedFiles st ≠ []) && hasKey st
  end.

End App.

(* ===================================================================== *)
(** * components/PromptEditor.tsx *)
(* ===================================================================== *)

Module PromptEditor.

(** [interface PromptItem] *)
Module PromptItem.
Record t := mk {
  name : JS.str;
  prompt : JS.str;
  enabled : bool;
  skip_beforeafter_prompt : bool }.
End PromptItem.

(** The data props of the component, after the defaults
    [promptBefore = ''] and [promptAfter = ''].  The same triple is what
    [onSave] and [onChange] are called with. *)
Record Props := mkProps {
  prompts : list Prompt.t;
  promptBefore : JS.str;
  promptAfter : JS.str }.

(** The [useState] cells and [useRef] boxes of the component. *)
Record State := mkState {
  props : Props;   (* the props of the latest render *)
  items : list PromptItem.t;
  beforeText : JS.str;
  afterText : JS.str;
  hasChanges : bool;
  draggedIndex : option nat;
  dragOverIndex : option nat;
  lastInputTime : Z;   (* [useRef(Date.now())] *)
  itemsRef : list PromptItem.t;   (* refs mirroring the state, for the interval callback *)
  beforeTextRef : JS.str;
  afterTextRef : JS.str;
  isLocalChange : bool;   (* [useRef(false)] *)
  isInitialized : bool }.   (* [useRef(false)] *)

(** Writing one cell or box. *)
Definition set_props (v : Props) (st : State) : State :=
  mkState v (items st) (beforeText st) (afterText st) (hasChanges st)
    (draggedIndex st) (dragOverIndex st) (lastInputTime st) (itemsRef st)
    (beforeTextRef st) (afterTextRef st) (isLocalChange st) (isInitialized
    st).
Definition set_items (v : list PromptItem.t) (st : State) : State :=
  mkState (props st) v (beforeText st) (afterText st) (hasChanges st)
    (draggedIndex st) (dragOverIndex st) (lastInputTime st) (itemsRef st)
    (beforeTextRef st) (afterTextRef st) (isLocalChange st) (isInitialized
    st).
Definition set_beforeText (v : JS.str) (st : State) : State :=
  mkState (props st) (items st) v (afterText st) (hasChanges st)
    (draggedIndex st) (dragOverIndex st) (lastInputTime st) (itemsRef st)
    (beforeTextRef st) (afterTextRef st) (isLocalChange st) (isInitialized
    st).
Definition set_afterText (v : JS.str) (st : State) : State :=
  mkState (props st) (items st) (beforeText st) v (hasChanges st)
    (draggedIndex st) (dragOverIndex st) (lastInputTime st) (itemsRef st)
    (beforeTextRef st) (afterTextRef st) (isLocalChange st) (isInitialized
    st).
Definition set_hasChanges (v : bool) (st : State) : State :=
  mkState (props st) (items st) (beforeText st) (afterText st) v
    (draggedIndex st) (dragOverIndex st) (lastInputTime st) (itemsRef st)
    (beforeTextRef st) (afterTextRef st) (isLocalChange st) (isInitialized
    st).
Definition set_draggedIndex (v : option nat) (st : State) : State :=
  mkState (props st) (items st) (beforeText st) (afterText st) (hasChanges
    st) v (dragOverIndex st) (lastInputTime st) (itemsRef st) (beforeTextRef
    st) (afterTextRef st) (isLocalChange st) (isInitialized st).
Definition set_dragOverIndex (v : option nat) (st : State) : State :=
  mkState (props st) (items st) (beforeText st) (afterText st) (hasChanges
    st) (draggedIndex st) v (lastInputTime st) (itemsRef st) (beforeTextRef
    st) (afterTextRef st) (isLocalChange st) (isInitialized st).
Definition set_lastInputTime (v : Z) (st : State) : State :=
  mkState (props st) (items st) (beforeText st) (afterText st) (hasChanges
    st) (draggedIndex st) (dragOverIndex st) v (itemsRef st) (beforeTextRef
    st) (afterTextRef st) (isLocalChange st) (isInitialized st).
Definition set_itemsRef (v : list PromptItem.t) (st : State) : State :=
  mkState (props st) (items st) (beforeText st) (afterText st) (hasChanges
    st) (draggedIndex st) (dragOverIndex st) (lastInputTime st) v
    (beforeTextRef st) (afterTextRef st) (isLocalChange st) (isInitialized
    st).
Definition set_beforeTextRef (v : JS.str) (st : State) : State :=
  mkState (props st) (items st) (beforeText st) (afterText st) (hasChanges
    st) (draggedIndex st) (dragOverIndex st) (lastInputTime st) (itemsRef
    st) v (afterTextRef st) (isLocalChange st) (isInitialized st).
Definition set_afterTextRef (v : JS.str) (st : State) : State :=
  mkState (props st) (items st) (beforeText st) (afterText st) (hasChanges
    st) (draggedIndex st) (dragOverIndex st) (lastInputTime st) (itemsRef
    st) (beforeTextRef st) v (isLocalChange st) (isInitialized st).
Definition set_isLocalChange (v : bool) (st : State) : State :=
  mkState (props st) (items st) (beforeText st) (afterText st) (hasChanges
    st) (draggedIndex st) (dragOverIndex st) (lastInputTime st) (itemsRef
    st) (beforeTextRef st) (afterTextRef st) v (isInitialized st).
Definition set_isInitialized (v : bool) (st : State) : State :=
  mkState (props st) (items st) (beforeText st) (afterText st) (hasChanges
    st) (draggedIndex st) (dragOverIndex st) (lastInputTime st) (itemsRef
    st) (beforeTextRef st) (afterTextRef st) (isLocalChange st) v.

(** [items.map(item => ({ name: item.name, ... }))] and
    [prompts.map(p => ({ name: p.name, ... }))] *)
Definition toPrompt (item : PromptItem.t) : Prompt.t :=
  Prompt.mk (PromptItem.name item) (PromptItem.prompt item)
    (PromptItem.enabled item) (PromptItem.skip_beforeafter_prompt item).

Definition toItem (p : Prompt.t) : PromptItem.t :=
  PromptItem.mk (Prompt.name p) (Prompt.prompt p) (Prompt.enabled p)
    (Prompt.skip_beforeafter_prompt p).

(** The state of a first render with props [p] at time [now]. *)
Definition initial (p : Props) (now : Z) : State :=
  {| props := p;
     items := [];
     beforeText := promptBefore p;
     afterText := promptAfter p;
     hasChanges := false;
     draggedIndex := None;
     dragOverIndex := None;
     lastInputTime := now;
     itemsRef := [];
     beforeTextRef := promptBefore p;
     afterTextRef := promptAfter p;
     isLocalChange := false;
     isInitialized := false |}.

(** ** Effects

    An effect closes over the values of the render it belongs to, [r], and
    acts on the cells and boxes as they are when it runs, [st]. *)

(** "Keep refs in sync" *)
Definition keepItemsRef (r st : State) : State := set_itemsRef (items r) st.
Definition keepBeforeTextRef (r st : State) : State :=
  set_beforeTextRef (beforeText r) st.
Definition keepAfterTextRef (r st : State) : State :=
  set_afterTextRef (afterText r) st.

(** "Sync beforeText and afterText from props" *)
Definition syncTextFromProps (r st : State) : State :=
  if negb (isLocalChange st) then
    let st := set_beforeText (promptBefore (props r)) st in
    set_afterText (promptAfter (props r)) st
  else st.

(** "Initialize items from props (only on first load or external changes)" *)
Definition initItemsFromProps (r st : State) : State :=
  if isLocalChange st then set_isLocalChange false st
  else if isInitialized st then st
  else
    let promptItems := map toItem (prompts (props r)) in
    let st := set_items promptItems st in
    let st := set_hasChanges false st in
    set_isInitialized true st.

(** "Notify parent of changes when items or before/after text changes".
    [App] always passes [onChange]; the result is what it is called with. *)
Definition notifyParent (r st : State) : State * option Props :=
  if negb (isInitialized st) then (st, None)
  else
    let st := set_isLocalChange true st in
    (st, Some (mkProps (map toPrompt (items r)) (beforeText r) (afterText r))).

(** [triggerSave]: what [onSave] is called with, and the cell it clears. *)
Definition triggerSave (st : State) : State * Props :=
  let currentItems := itemsRef st in
  let currentBefore := beforeTextRef st in
  let currentAfter := afterTextRef st in
  let promptsArray := map toPrompt currentItems in
  (set_hasChanges false st, mkProps promptsArray currentBefore currentAfter).

(** The callback of [setInterval(..., 1000)] run at time [now]; the
    interval is created anew whenever [hasChanges] changes, so the value
    it closes over is the current one. *)
Definition autoSaveTick (now : Z) (st : State) : State * option Props :=
  if decide (length (itemsRef st) = 0) then (st, None)
  else
    let hasUnsavedChanges := hasChanges st in
    if negb hasUnsavedChanges then (st, None)
    else
      let timeSinceLastInput := (now - lastInputTime st)%Z in
      if decide (5000 <= timeSinceLastInput)%Z then
        let (st, saved) := triggerSave st in (st, Some saved)
      else (st, None).

(** ** Handlers *)

(** [recordInput] at time [now] *)
Definition recordInput (now : Z) (st : State) : State :=
  set_hasChanges true (set_lastInputTime now st).

(** [next[index] = { ...next[index], field }] for a row of the list.  The
    handlers are bound to the rows [items.map] renders, so [index] is in
    range; the array with a hole that the source would build otherwise is
    outside the model, and the handler then has no result. *)
Definition editRow (index : nat) (f : PromptItem.t -> PromptItem.t)
    (prev : list PromptItem.t) : option (list PromptItem.t) :=
  item ← prev !! index; Some (<[index := f item]> prev).

Definition withName (name : JS.str) (item : PromptItem.t) : PromptItem.t :=
  PromptItem.mk name (PromptItem.prompt item) (PromptItem.enabled item)
    (PromptItem.skip_beforeafter_prompt item).
Definition withPrompt (prompt : JS.str) (item : PromptItem.t) : PromptItem.t :=
  PromptItem.mk (PromptItem.name item) prompt (PromptItem.enabled item)
    (PromptItem.skip_beforeafter_prompt item).
Definition withEnabled (enabled : bool) (item : PromptItem.t) : PromptItem.t :=
  PromptItem.mk (PromptItem.name item) (PromptItem.prompt item) enabled
    (PromptItem.skip_beforeafter_prompt item).
Definition withSkip (skip : bool) (item : PromptItem.t) : PromptItem.t :=
  PromptItem.mk (PromptItem.name item) (PromptItem.prompt item)
    (PromptItem.enabled item) skip.

Definition handleNameChange (index : nat) (name : JS.str) (now : Z)
    (st : State) : option State :=
  let st := recordInput now st in
  next ← editRow index (withName name) (items st); Some (set_items next st).

Definition handlePromptChange (index : nat) (prompt : JS.str) (now : Z)
    (st : State) : option State :=
  let st := recordInput now st in
  next ← editRow index (withPrompt prompt) (items st); Some (set_items next st).

Definition handleBeforeTextChange (text : JS.str) (now : Z) (st : State)
  : State :=
  set_beforeText text (recordInput now st).

Definition handleAfterTextChange (text : JS.str) (now : Z) (st : State)
  : State :=
  set_afterText text (recordInput now st).

Definition handleSelectionChange (index : nat) (enabled : bool) (now : Z)
    (st : State) : option State :=
  let st := recordInput now st in
  next ← editRow index (withEnabled enabled) (items st);
  Some (set_items next st).

Definition handleSkipBeforeAfterChange (index : nat) (skip : bool) (now : Z)
    (st : State) : option State :=
  let st := recordInput now st in
  next ← editRow index (withSkip skip) (items st); Some (set_items next st).

Definition handleAddPrompt (now : Z) (st : State) : State :=
  let st := recordInput now st in
  set_items (items st ++ [PromptItem.mk [] [] false false]) st.

(** [prev.filter((_, i) => i !== index)] *)
Definition handleDeletePrompt (index : nat) (now : Z) (st : State) : State :=
  let st := recordInput now st in
  set_items (delete index (items st)) st.

Definition handleDragStart (index : nat) (st : State) : State :=
  set_draggedIndex (Some index) st.

Definition handleDragEnd (st : State) : State :=
  set_dragOverIndex None (set_draggedIndex None st).

(** [next.splice(index, 0, draggedItem)] *)
Definition spliceIn {A} (index : nat) (x : A) (l : list A) : list A :=
  take index l ++ x :: drop index l.

(** [handleDrop]; the boolean tells whether the list was rebuilt.  The
    dragged row exists in the list it is dragged from. *)
Definition handleDrop (index : nat) (now : Z) (st : State)
  : option (State * bool) :=
  match draggedIndex st with
  | None => Some (handleDragEnd st, false)
  | Some dragged =>
      if decide (dragged = index) then Some (handleDragEnd st, false)
      else
        let st := recordInput now st in
        draggedItem ← items st !! dragged;
        let next := spliceIn index draggedItem (delete dragged (items st)) in
        Some (handleDragEnd (set_items next st), true)
  end.

(** ** One render

    After a render React runs, in the order of declaration, the effects
    whose dependency array holds a value that changed. *)
Record Deps := mkDeps {
  d_items : bool;        (* [items] is a new array *)
  d_beforeText : bool;   (* [beforeText] changed *)
  d_afterText : bool;    (* [afterText] changed *)
  d_textProps : bool;    (* [promptBefore] or [promptAfter] changed *)
  d_prompts : bool }.    (* [prompts] is a new array *)

Definition allDeps : Deps := mkDeps true true true true true.

Definition anyDep (deps : Deps) : bool :=
  d_items deps || d_beforeText deps || d_afterText deps || d_textProps deps
  || d_prompts deps.

(** The three effects that keep the refs in sync. *)
Definition keepRefs (deps : Deps) (r st : State) : State :=
  let st := if d_items deps then keepItemsRef r st else st in
  let st := if d_beforeText deps then keepBeforeTextRef r st else st in
  if d_afterText deps then keepAfterTextRef r st else st.

Definition runEffects (deps : Deps) (r : State) : State * option Props :=
  let st := keepRefs deps r r in
  let st := if d_textProps deps then syncTextFromProps r st else st in
  let st := if d_prompts deps then initItemsFromProps r st else st in
  if d_items deps || d_beforeText deps || d_afterText deps
  then notifyParent r st
  else (st, None).

End PromptEditor.

(* ===================================================================== *)
(** * The editor mounted in the page *)
(* ===================================================================== *)

(** [App] renders [<PromptEditor prompts={userDoc.prompts}
    promptBefore={userDoc.prompt_before} promptAfter={userDoc.prompt_after}
    onSave={handleSavePrompts} onChange={handlePromptsChange} />] once the
    user document is loaded.  The page is the state of both components and
    the remote writes that have been issued and not yet answered. *)
Module Page.

Import PromptEditor.

Record Sys := mk {
  app : App.State;
  editor : PromptEditor.State;
  inflight : list Props }.

(** The props [App] passes for a user document. *)
Definition propsOf (doc : UserDocument.t) : Props :=
  mkProps (UserDocument.prompts doc)
    (default [] (UserDocument.prompt_before doc))
    (default [] (UserDocument.prompt_after doc)).

Definition propsNow (app : App.State) (old : Props) : Props :=
  match App.userDoc app with
  | Some doc => propsOf doc
  | None => old
  end.

Definition textDiffers (p q : Props) : bool :=
  bool_decide (promptBefore p ≠ promptBefore q)
  || bool_decide (promptAfter p ≠ promptAfter q).

(** One render of the editor inside the page: its effects run, a call of
    [onChange] reaches [handlePromptsChange], and the dependencies that
    have changed for the next render are collected. *)
Definition render (deps : Deps) (sys : Sys) : Deps * Sys :=
  let r := editor sys in
  let (st, out) := runEffects deps r in
  let app' :=
    match out with
    | Some p => App.handlePromptsChange (prompts p) (promptBefore p)
                  (promptAfter p) (app sys)
    | None => app sys
    end in
  let next := propsNow app' (props r) in
  ({| d_items := negb (isInitialized r) && isInitialized st;
      d_beforeText := bool_decide (beforeText st ≠ beforeText r);
      d_afterText := bool_decide (afterText st ≠ afterText r);
      d_textProps := textDiffers next (props r);
      d_prompts := bool_decide (is_Some out) |},
   mk app' (set_props next st) (inflight sys)).

(** Renders follow one another until one leaves nothing changed: the
    effects of a render may write cells of the editor, and a call of
    [onChange] makes [App] pass a fresh [prompts] array. *)
Fixpoint settle (fuel : nat) (deps : Deps) (sys : Sys) : Sys :=
  match fuel with
  | 0 => sys
  | S fuel =>
      if negb (anyDep deps) then sys
      else let (deps', sys') := render deps sys in settle fuel deps' sys'
  end.

(** Four renders are enough for the page to come to rest after a mount
    or an event; more change nothing ([mount_settles], [step_settles]). *)
Definition renders : nat := 4.

(** The editor is mounted at time [now] on the loaded user document. *)
Definition mountWith (fuel : nat) (now : Z) (app : App.State) : option Sys :=
  doc ← App.userDoc app;
  Some (settle fuel allDeps (mk app (initial (propsOf doc) now) [])).

Definition mount : Z → App.State → option Sys := mountWith renders.

(** What the user and the outside world can do to the page. *)
Inductive Event :=
| NameChange (index : nat) (name : JS.str) (now : Z)
| PromptChange (index : nat) (prompt : JS.str) (now : Z)
| BeforeTextChange (text : JS.str) (now : Z)
| AfterTextChange (text : JS.str) (now : Z)
| SelectionChange (index : nat) (enabled : bool) (now : Z)
| SkipBeforeAfterChange (index : nat) (skip : bool) (now : Z)
| AddPrompt (now : Z)
| DeletePrompt (index : nat) (now : Z)
| DragStart (index : nat)
| DragEnd
| Drop (index : nat) (now : Z)
| Tick (now : Z)                   (* the interval fires *)
| SaveResolved                     (* the oldest remote write succeeded *)
| SaveRejected                     (* the oldest remote write failed *)
| Inbound (doc : UserDocument.t).  (* a remote read returned [doc] *)

(** A handler ran and left the editor in [st]. *)
Definition afterEdit (fuel : nat) (sys : Sys) (st : State)
    (itemsRebuilt : bool) : Sys :=
  let r := editor sys in
  let deps :=
    {| d_items := itemsRebuilt;
       d_beforeText := bool_decide (beforeText st ≠ beforeText r);
       d_afterText := bool_decide (afterText st ≠ afterText r);
       d_textProps := false;
       d_prompts := false |} in
  settle fuel deps (mk (app sys) st (inflight sys)).

(** [App] holds a new user document and renders the editor with it. *)
Definition afterDoc (fuel : nat) (sys : Sys) (app' : App.State) : Sys :=
  let r := editor sys in
  let next := propsNow app' (props r) in
  let deps :=
    {| d_items := false; d_beforeText := false; d_afterText := false;
       d_textProps := textDiffers next (props r);
       d_prompts := true |} in
  settle fuel deps (mk app' (set_props next r) (inflight sys)).

(** One event.  [email] is [user?.email]; without it [handleSavePrompts]
    returns at once and no write is issued. *)
Definition stepWith (fuel : nat) (email : option JS.str) (ev : Event)
    (sys : Sys) : option Sys :=
  let ed := editor sys in
  match ev with
  | NameChange i s now =>
      st ← handleNameChange i s now ed; Some (afterEdit fuel sys st true)
  | PromptChange i s now =>
      st ← handlePromptChange i s now ed; Some (afterEdit fuel sys st true)
  | BeforeTextChange s now =>
      Some (afterEdit fuel sys (handleBeforeTextChange s now ed) false)
  | AfterTextChange s now =>
      Some (afterEdit fuel sys (handleAfterTextChange s now ed) false)
  | SelectionChange i b now =>
      st ← handleSelectionChange i b now ed; Some (afterEdit fuel sys st true)
  | SkipBeforeAfterChange i b now =>
      st ← handleSkipBeforeAfterChange i b now ed;
      Some (afterEdit fuel sys st true)
  | AddPrompt now => Some (afterEdit fuel sys (handleAddPrompt now ed) true)
  | DeletePrompt i now =>
      Some (afterEdit fuel sys (handleDeletePrompt i now ed) true)
  | DragStart i => Some (mk (app sys) (handleDragStart i ed) (inflight sys))
  | DragEnd => Some (mk (app sys) (handleDragEnd ed) (inflight sys))
  | Drop i now =>
      '(st, rebuilt) ← handleDrop i now ed;
      Some (afterEdit fuel sys st rebuilt)
  | Tick now =>
      match autoSaveTick now ed with
      | (st, Some saved) =>
          Some (mk (App.handleSavePrompts_begin email (app sys)) st
                  (inflight sys ++
                   match email with Some _ => [saved] | None => [] end))
      | (st, None) => Some (mk (app sys) st (inflight sys))
      end
  | SaveResolved =>
      match inflight sys with
      | saved :: rest =>
          let app' := App.handleSavePrompts_resolved (prompts saved)
                        (promptBefore saved) (promptAfter saved) (app sys) in
          Some (afterDoc fuel (mk (app sys) ed rest) app')
      | [] => None
      end
  | SaveRejected =>
      match inflight sys with
      | _ :: rest =>
          Some (mk (App.handleSavePrompts_rejected (app sys)) ed rest)
      | [] => None
      end
  | Inbound doc =>
      Some (afterDoc fuel sys (App.fetchUserDoc_resolved doc (app sys)))
  end.

Definition step : option JS.str → Event → Sys → option Sys :=
  stepWith renders.

(** A sequence of events, oldest first. *)
Fixpoint run (email : option JS.str) (evs : list Event) (sys : Sys)
  : option Sys :=
  match evs with
  | [] => Some sys
  | ev :: evs' => sys' ← step email ev sys; run email evs' sys'
  end.

(** Whether the interval callback at time [now] calls [triggerSave]. *)
Definition flushes (now : Z) (sys : Sys) : bool :=
  bool_decide (is_Some (snd (autoSaveTick now (editor sys)))).

(** The time an event passes to [recordInput], when it calls it. *)
Definition editTime (ev : Event) (sys : Sys) : option Z :=
  match ev with
  | NameChange _ _ now | PromptChange _ _ now | BeforeTextChange _ now
  | AfterTextChange _ now | SelectionChange _ _ now
  | SkipBeforeAfterChange _ _ now | AddPrompt now | DeletePrompt _ now =>
      Some now
  | Drop index now =>
      match draggedIndex (editor sys) with
      | Some dragged => if decide (dragged = index) then None else Some now
      | None => None
      end
  | DragStart _ | DragEnd | Tick _ | SaveResolved | SaveRejected | Inbound _ =>
      None
  end.

(** The page at rest between two events: the editor is initialised, no
    local change is on its way back, the refs mirror the state, and the
    props are those of the user document [App] holds. *)
Definition atRest (sys : Sys) : Prop :=
  let ed := editor sys in
  isInitialized ed = true ∧ isLocalChange ed = false ∧
  itemsRef ed = items ed ∧ beforeTextRef ed = beforeText ed ∧
  afterTextRef ed = afterText ed ∧
  props ed = propsNow (app sys) (props ed).

(** What a handler does to the editor [ed] it runs in: it writes state
    cells and the time of the last input, not the refs, the flags or the
    props; [rebuilt] tells whether it made a new list. *)
Definition handled (rebuilt : bool) (ed st : State) : Prop :=
  isInitialized st = isInitialized ed ∧ isLocalChange st = isLocalChange ed ∧
  itemsRef st = itemsRef ed ∧ beforeTextRef st = beforeTextRef ed ∧
  afterTextRef st = afterTextRef ed ∧ props st = props ed ∧
  (rebuilt = false → items st = items ed).

(** The states the page can be in: mounted, then any events. *)
Definition reachable (email : option JS.str) (sys : Sys) : Prop :=
  ∃ now app sys0 evs,
    mount now app = Some sys0 ∧ run email evs sys0 = Some sys.

End Page.

(* ===================================================================== *)
(** * Notions used to state the properties *)
(* ===================================================================== *)

(** The composition rule in the words of the specification:
    [fullText = skip ? item.text : join(beforeText, item.text, afterText)],
    the non-empty segments joined with a newline, one task per enabled
    item. *)
Module Spec.

Fixpoint joinLines (segments : list JS.str) : JS.str :=
  match segments with
  | [] => []
  | [s] => s
  | s :: rest => s ++ JS.LF ++ joinLines rest
  end.

Definition join (beforeText text afterText : JS.str) : JS.str :=
  joinLines (List.filter JS.truthy [beforeText; text; afterText]).

Definition fullText (beforeText afterText : JS.str) (item : Prompt.t) : JS.str :=
  if Prompt.skip_beforeafter_prompt item then Prompt.prompt item
  else join beforeText (Prompt.prompt item) afterText.

Definition composedTexts (doc : UserDocument.t) : list JS.str :=
  map (fullText (JS.orElse (UserDocument.prompt_before doc) [])
         (JS.orElse (UserDocument.prompt_after doc) []))
    (List.filter Prompt.enabled (UserDocument.prompts doc)).

End Spec.

Module Batch.

Import App.

(** The task [handleProcess] builds for the [k]-th selected prompt. *)
Definition taskFor (env : Env) (doc : UserDocument.t)
    (filesToProcess : list File.t) (k : nat) (prompt : Prompt.t)
  : ProcessingResult.t :=
  ProcessingResult.mk (Prompt.name prompt, dateNow env k) filesToProcess
    (Prompt.name prompt) (fullPrompt doc prompt) Status.pending None None.

(** What the generation call answers for the task at index [i]. *)
Definition outcome (env : Env) (start : State) (i : nat)
    (task : ProcessingResult.t) : Generated :=
  generateImageFromReference env i
    (ProcessingResult.files task) (ProcessingResult.promptText task)
    (selectedAspectRatio start) (selectedImageSize start)
    (selectedModel start) (temperature start).

(** A task with the status, image and error written over it. *)
Definition settled (task : ProcessingResult.t) (status : Status.t)
    (imageUrl error : option JS.str) : Slot :=
  Full (ProcessingResult.mk (ProcessingResult.id task)
          (ProcessingResult.files task) (ProcessingResult.promptName task)
          (ProcessingResult.promptText task) status imageUrl error).

(** Among the tasks [todo], which sit at the indices from [i] on, the
    first [k] did not end the loop: none of their calls was rejected for
    the key. *)
Definition reachedFrom (env : Env) (start : State) (i : nat)
    (todo : list ProcessingResult.t) (k : nat) : Prop :=
  ∀ j task message,
    j < k → todo !! j = Some task →
    outcome env start (i + j) task = Rejected message →
    keyRejected message = false.

(** The task at index [i] of the batch is reached. *)
Definition reached (env : Env) (start : State)
    (tasks : list ProcessingResult.t) (i : nat) : Prop :=
  reachedFrom env start 0 tasks i.

(** The user document without the items whose name is blank. *)
Definition withoutBlankNames (doc : UserDocument.t) : UserDocument.t :=
  UserDocument.mk (UserDocument.firstname doc) (UserDocument.lastname doc)
    (List.filter (λ p, JS.truthy (JS.trim (Prompt.name p)))
       (UserDocument.prompts doc))
    (UserDocument.prompt_before doc) (UserDocument.prompt_after doc)
    (UserDocument.historic_cost doc) (UserDocument.historic_images doc).

(** The status of a slot, when it has one. *)
Definition statusOf (s : Slot) : option Status.t :=
  match s with
  | Full r => Some (ProcessingResult.status r)
  | Bare status _ _ => Some status
  | Hole => None
  end.

(** The slots the loop leaves for the tasks from index [i] on. *)
Fixpoint finalSlots (env : Env) (start : State) (i : nat)
    (todo : list ProcessingResult.t) : list Slot :=
  match todo with
  | [] => []
  | task :: todo' =>
      match outcome env start i task with
      | Resolved imageUrl _ =>
          settled task Status.completed (Some imageUrl) None
          :: finalSlots env start (S i) todo'
      | Rejected message =>
          settled task Status.failed None (Some message)
          :: (if keyRejected message then map Full todo'
              else finalSlots env start (S i) todo')
      end
  end.

(** Whether the loop over the tasks from index [i] on ends in [break]. *)
Fixpoint halted (env : Env) (start : State) (i : nat)
    (todo : list ProcessingResult.t) : bool :=
  match todo with
  | [] => false
  | task :: todo' =>
      match outcome env start i task with
      | Resolved _ _ => halted env start (S i) todo'
      | Rejected message =>
          keyRejected message || halted env start (S i) todo'
      end
  end.

End Batch.

(** Concrete pages, documents and remotes on which the properties are
    exercised. *)
Module Scenario.

Import JS.

Definition image : File.t := File.mk (lit "cat.png") (lit "image/png") 1.

Definition item (name text : string) (enabled skip : bool) : Prompt.t :=
  Prompt.mk (lit name) (lit text) enabled skip.

Definition document (prompts : list Prompt.t) (before after : option str)
  : UserDocument.t :=
  UserDocument.mk (lit "Ada") (lit "Lovelace") prompts before after None None.

(** A page with one image selected, a key, and a fresh ledger. *)
Definition page (doc : UserDocument.t) : App.State :=
  App.mkState (Some doc) false true [image] [] [] false TokenUsage.fresh
    (lit "4:5") (lit "2K") TokenUsage.gemini_2_5_flash_image 1%float.

Definition usage : Usage.t := Usage.mk 1300 10 1290 0.

(** A remote whose [k]-th call is answered by [answers k]; [hosted] tells
    whether [window.aistudio] exists. *)
Definition remote (hosted : bool) (answers : nat → Generated) : App.Env :=
  App.mkEnv hosted (λ k, 1700000000000 + Z.of_nat k)%Z
    (λ k _ _ _ _ _ _, answers k).

Definition succeeds : nat → Generated :=
  λ _, Resolved (lit "data:image/png;base64,AAAA") usage.

(** The second call is rejected for the key. *)
Definition secondKeyRejected : nat → Generated :=
  λ k, if decide (k = 1)
       then Rejected (lit "Requested entity was not found.")
       else succeeds k.

(** The second call fails for another reason. *)
Definition secondFails : nat → Generated :=
  λ k, if decide (k = 1) then Rejected (lit "No image data found in response")
       else succeeds k.

(** Scenario B run where the key can be selected, and run locally. *)
Definition hostedRemote : App.Env := remote true secondKeyRejected.
Definition localRemote : App.Env := remote false secondKeyRejected.

(** Scenario A: two enabled prompts, ["Edit:"] before each. *)
Definition wideClose : UserDocument.t :=
  document [item "wide" "a wide shot" true false;
            item "close" "a close-up" true false]
    (Some (lit "Edit:")) None.

(** Scenario B: three enabled prompts. *)
Definition three : UserDocument.t :=
  document [item "one" "first" true false; item "two" "second" true false;
            item "three" "third" true false] None None.

(** An enabled item without a name, next to a named one. *)
Definition unnamedFirst : UserDocument.t :=
  document [item "" "a wide shot" true false;
            item "close" "a close-up" true false]
    (Some (lit "Edit:")) None.

(** A prompt text with spaces around it. *)
Definition spacedText : UserDocument.t :=
  document [item "wide" " a wide shot " true false] None None.

(** An item that asks to skip the surrounding text. *)
Definition skipping : UserDocument.t :=
  document [item "close" "a close-up" true true] (Some (lit "Edit:")) None.

(** Every enabled item has a blank name. *)
Definition onlyBlankEnabled : UserDocument.t :=
  document [item "  " "a wide shot" true false;
            item "close" "a close-up" false false] None None.

(** The editor of scenario D, signed in as a user with an e-mail. *)
Definition email : option str := Some (lit "ada@example.org").

(** The page a trace leads to from the mounted editor; a trace the page
    cannot follow leaves it where it started. *)
Definition after (doc : UserDocument.t) (evs : list Page.Event) : Page.Sys :=
  default (Page.mk (page doc) (PromptEditor.initial (Page.propsOf doc) 0) [])
    (Page.mount 0 (page doc) ≫= Page.run email evs).

(** Scenario D: an edit at t = 0 and another at t = 3 (in seconds), with
    the interval firing every second in between. *)
Definition twoEdits : list Page.Event :=
  [Page.BeforeTextChange (lit "Edit") 0; Page.Tick 1000; Page.Tick 2000;
   Page.BeforeTextChange (lit "Edit:") 3000; Page.Tick 4000].

(** A user document without any prompt, and an edit of its before-text. *)
Definition noPrompts : UserDocument.t := document [] None None.

Definition textEdit : list Page.Event :=
  [Page.BeforeTextChange (lit "Edit:") 0].

(** An edit, the flush five seconds later, and the write failing. *)
Definition failedFlush : list Page.Event :=
  [Page.NameChange 0 (lit "wider") 0; Page.Tick 5000; Page.SaveRejected].

(** An edit, the flush five seconds later, and the write succeeding. *)
Definition savedFlush : list Page.Event :=
  [Page.NameChange 0 (lit "wider") 0; Page.Tick 5000; Page.SaveResolved].

(** What another device has stored in the meantime. *)
Definition elsewhere : UserDocument.t :=
  document [item "portrait" "a portrait" true false]
    (Some (lit "Paint:")) None.

(** The same, with the texts the editor already shows: only the list
    differs. *)
Definition otherList : UserDocument.t :=
  document [item "portrait" "a portrait" true false]
    (Some (lit "Edit:")) None.

End Scenario.

(* ===================================================================== *)
(** * models/Prompt.ts: the class and its plain form *)
(* ===================================================================== *)

Module PromptClass.

(** The argument of [Prompt.fromJSON]: the skip flag may be missing, as in
    documents stored before the flag existed. *)
Record Plain := mkPlain {
  name : JS.str;
  prompt : JS.str;
  enabled : bool;
  skip_beforeafter_prompt : option bool }.

(** [constructor(name = '', prompt = '', enabled = false,
    skip_beforeafter_prompt = false)]: a default stands in for an argument
    that is [undefined]. *)
Definition new (name prompt : option JS.str) (enabled skip : option bool)
  : Prompt.t :=
  Prompt.mk (default [] name) (default [] prompt) (default false enabled)
    (default false skip).

(** [toJSON()] *)
Definition toJSON (this : Prompt.t) : Plain :=
  mkPlain (Prompt.name this) (Prompt.prompt this) (Prompt.enabled this)
    (Some (Prompt.skip_beforeafter_prompt this)).

(** [static fromJSON(data)] *)
Definition fromJSON (data : Plain) : Prompt.t :=
  new (Some (name data)) (Some (prompt data)) (Some (enabled data))
    (Some (default false (skip_beforeafter_prompt data))).

End PromptClass.

(* ===================================================================== *)
(** * services/geminiService.ts *)
(* ===================================================================== *)

Module GeminiService.

(** The parts of the response of [ai.models.generateContent] that the
    service reads; every property it reaches through [?.] or tests may be
    missing. *)
Record InlineData := mkInlineData {
  mimeType : option JS.str;
  data : option JS.str }.

Record Part := mkPart {
  text : option JS.str;
  inlineData : option InlineData }.

Record Content := mkContent { parts : option (list Part) }.

Record Candidate := mkCandidate { content : option Content }.

Record UsageMetadata := mkUsageMetadata {
  totalTokenCount : option float;
  promptTokenCount : option float;
  toolUsePromptTokenCount : option float;
  candidatesTokenCount : option float;
  thoughtsTokenCount : option float }.

Record Response := mkResponse {
  candidates : option (list Candidate);
  usageMetadata : option UsageMetadata }.

(** How the [try] block goes: something in it throws (the client, the
    reading of a file, the remote call) a value whose [message] may be
    missing, or the remote call returns a response. *)
Inductive Attempt :=
| Threw (message : option JS.str)
| Returned (response : Response).

(** Truthiness of a number: [0], [-0] and [NaN] are falsy. *)
Definition numTruthy (x : float) : bool :=
  (negb (x =? 0) && (x =? x))%float.

(** [x || 0] on a number that may be missing. *)
Definition orZero (x : option float) : float :=
  match x with
  | Some v => if numTruthy v then v else 0%float
  | None => 0%float
  end.

(** The [usage] object built from [response.usageMetadata]. *)
Definition usageOf (response : Response) : Usage.t :=
  let meta (f : UsageMetadata → option float) := usageMetadata response ≫= f in
  {| Usage.total := orZero (meta totalTokenCount);
     Usage.input := (orZero (meta promptTokenCount)
                     + orZero (meta toolUsePromptTokenCount))%float;
     Usage.output_image := orZero (meta candidatesTokenCount);
     Usage.output_text := orZero (meta thoughtsTokenCount) |}.

(** [part.inlineData && part.inlineData.data]: the data of a part that
    carries an image. *)
Definition imageData (part : Part) : option (InlineData * JS.str) :=
  inline ← inlineData part;
  d ← data inline;
  if JS.truthy d then Some (inline, d) else None.

(** [`data:${part.inlineData.mimeType || 'image/png'};base64,${part.inlineData.data}`] *)
Definition imageUrlOf (inline : InlineData) (d : JS.str) : JS.str :=
  JS.lit "data:" ++ JS.orElse (mimeType inline) (JS.lit "image/png")
  ++ JS.lit ";base64," ++ d.

(** [for (const part of parts)]: the first part with image data decides. *)
Fixpoint firstImage (parts : list Part) : option JS.str :=
  match parts with
  | [] => None
  | part :: rest =>
      match imageData part with
      | Some (inline, d) => Some (imageUrlOf inline d)
      | None => firstImage rest
      end
  end.

(** "Extract image from response": only [candidates[0]] is looked at. *)
Definition extract (response : Response) : option (JS.str * Usage.t) :=
  match candidates response with
  | Some (first :: _) =>
      ps ← content first ≫= parts;
      url ← firstImage ps;
      Some (url, usageOf response)
  | Some [] | None => None
  end.

(** The [catch] block: [throw new Error(error.message || "Unknown error
    during generation")]. *)
Definition rethrow (message : option JS.str) : Generated :=
  Rejected (JS.orElse message (JS.lit "Unknown error during generation")).

(** How the promise of [generateImageFromReference] settles, given how its
    [try] block went. *)
Definition generateImageFromReference (attempt : Attempt) : Generated :=
  match attempt with
  | Threw message => rethrow message
  | Returned response =>
      match extract response with
      | Some (imageUrl, usage) => Resolved imageUrl usage
      | None => rethrow (Some (JS.lit "No image data found in response"))
      end
  end.

(** [s.split(',')], never empty. *)
Fixpoint splitComma (s : JS.str) : list JS.str :=
  match s with
  | [] => [[]]
  | c :: s' =>
      if (c =? 44)%N then [] :: splitComma s'
      else match splitComma s' with
           | piece :: pieces => (c :: piece) :: pieces
           | [] => [[c]]
           end
  end.

(** How the promise of [fileToBase64] settles once the reader has loaded:
    [result] is [reader.result] when it is a string.  It resolves with
    [reader.result.split(',')[1]], which may be [undefined]. *)
Inductive Read :=
| ReadAs (base64 : option JS.str)
| ReadFailed (message : JS.str).

Definition fileToBase64 (result : option JS.str) : Read :=
  match result with
  | Some s => ReadAs (splitComma s !! 1)
  | None => ReadFailed (JS.lit "Failed to read file")
  end.

End GeminiService.

(* ===================================================================== *)
(** * App.tsx: the RUN button, the cloud copy of the totals, downloads *)
(* ===================================================================== *)

Module AppMore.

(** [disabled={isProcessing || !hasKey || selectedFiles.length === 0 ||
    !userDoc?.prompts?.some(p => p.enabled)}] of the RUN button. *)
Definition runDisabled (st : App.State) : bool :=
  App.isProcessing st || negb (App.hasKey st)
  || bool_decide (length (App.selectedFiles st) = 0)
  || negb match App.userDoc st with
          | Some doc => existsb Prompt.enabled (UserDocument.prompts doc)
          | None => false
          end.

(** [prevHistoricCostRef] and [prevHistoricImagesRef]. *)
Record HistoricRefs := mkRefs {
  prevHistoricCostRef : float;
  prevHistoricImagesRef : float }.

(** [useRef(tokenUsage.historic_cost)], [useRef(tokenUsage.historic_images)] *)
Definition initialRefs (tokenUsage : TokenUsage.t) : HistoricRefs :=
  mkRefs (TokenUsage.historic_cost tokenUsage)
    (TokenUsage.historic_images tokenUsage).

(** "Sync historic_cost and historic_images to cloud when they change":
    the refs the effect leaves and the pair it writes with
    [updateUserDocument], if it writes.  [email] is [user?.email], absent
    when missing or empty.  [!==] on numbers is the negation of the IEEE
    equality. *)
Definition syncHistoric (email : option JS.str) (refs : HistoricRefs)
    (tokenUsage : TokenUsage.t) : HistoricRefs * option (float * float) :=
  match email with
  | None => (refs, None)
  | Some _ =>
      let currentCost := TokenUsage.historic_cost tokenUsage in
      let currentImages := TokenUsage.historic_images tokenUsage in
      let costChanged := negb (currentCost =? prevHistoricCostRef refs)%float in
      let imagesChanged :=
        negb (currentImages =? prevHistoricImagesRef refs)%float in
      if costChanged || imagesChanged then
        (mkRefs currentCost currentImages, Some (currentCost, currentImages))
      else (refs, None)
  end.

(** [name.replace(/\.[^/.]+$/, "")]: the leftmost dot that is followed, up
    to the end, by one or more code units other than [/] and [.], is cut
    off together with what follows it. *)
Definition extensionChar (c : N) : bool := negb ((c =? 47) || (c =? 46))%N.

Definition isExtension (s : JS.str) : bool :=
  JS.truthy s && forallb extensionChar s.

Fixpoint stripExtension (s : JS.str) : JS.str :=
  match s with
  | [] => []
  | c :: s' =>
      if (c =? 46)%N && isExtension s' then [] else c :: stripExtension s'
  end.

(** What [handleDownload] does: nothing without an image, a [TypeError]
    on [res.files[0].name] without a file, else a click on a link. *)
Inductive Download :=
| Nothing
| NoFirstFile
| Link (href download : JS.str).

Definition handleDownload (res : ProcessingResult.t) : Download :=
  match ProcessingResult.imageUrl res with
  | None => Nothing
  | Some imageUrl =>
      if negb (JS.truthy imageUrl) then Nothing
      else match ProcessingResult.files res with
           | [] => NoFirstFile
           | first :: _ =>
               let namePart := stripExtension (File.name first) in
               Link imageUrl
                 (namePart ++ JS.lit "_" ++ ProcessingResult.promptName res
                  ++ JS.lit ".jpg")
           end
  end.

End AppMore.

(* ===================================================================== *)
(** * index.tsx: who gets to see the page *)
(* ===================================================================== *)

Module AuthWrapper.

(** Of a Firebase [User] the wrapper reads the e-mail, which may be
    [null]. *)
Record User := mkUser { email : option JS.str }.

(** How the read in [getAccessList] goes: no database, an error thrown,
    no document, or a document whose [allowedEmails] may be missing. *)
Inductive AccessRead :=
| NoDatabase
| ReadThrew
| NoDocument
| Document (allowedEmails : option (list JS.str)).

(** [getAccessList()] of [services/firebase.ts] *)
Definition getAccessList (read : AccessRead) : list JS.str :=
  match read with
  | Document (Some list) => list
  | Document None | NoDatabase | ReadThrew | NoDocument => []
  end.

(** The [useState] cells of [AuthWrapper], in the version of the file
    whose [accessListLoading] starts at [true]. *)
Record State := mkState {
  user : option User;
  authLoading : bool;
  accessList : list JS.str;
  accessListLoading : bool }.

(** The first render. *)
Definition initial : State := mkState None true [] true.

(** The first effect when Firebase is not configured ([!auth]). *)
Definition withoutAuth (st : State) : State :=
  mkState (user st) false (accessList st) false.

(** The callback of [onAuthStateChanged]. *)
Definition onAuthStateChanged (currentUser : option User) (st : State) : State :=
  mkState currentUser false (accessList st)
    match currentUser with
    | None => false
    | Some _ => accessListLoading st
    end.

(** The effect on [[user]], before the access list is read ... *)
Definition fetchAccessList_begin (st : State) : State :=
  match user st with
  | Some _ => mkState (user st) (authLoading st) (accessList st) true
  | None => st
  end.

(** ... and when [getAccessList()] has resolved. *)
Definition fetchAccessList_resolved (read : AccessRead) (st : State) : State :=
  mkState (user st) (authLoading st) (getAccessList read) false.

(** [user && accessList.includes(user.email || '')] *)
Definition isAuthorized (st : State) : bool :=
  match user st with
  | Some u => bool_decide (JS.orElse (email u) [] ∈ accessList st)
  | None => false
  end.

(** What the route ["/"] shows. *)
Inductive View := Spinner | ToLogin | ToAccessDenied | TheApp.

Definition home (st : State) : View :=
  if authLoading st || accessListLoading st then Spinner
  else match user st with
       | None => ToLogin
       | Some _ => if negb (isAuthorized st) then ToAccessDenied else TheApp
       end.

(** A user signs in and the access list is read. *)
Definition signedIn (u : User) (read : AccessRead) (st : State) : State :=
  fetchAccessList_resolved read
    (fetchAccessList_begin (onAuthStateChanged (Some u) st)).

End AuthWrapper.

(* ===================================================================== *)
(** * services/firebase.ts: the user document in the store *)
(* ===================================================================== *)

Module Firestore.

(** [Partial<UserDocument>], the [data] of an update. *)
Record Partial := mkPartial {
  firstname : option JS.str;
  lastname : option JS.str;
  prompts : option (list Prompt.t);
  prompt_before : option JS.str;
  prompt_after : option JS.str;
  historic_cost : option float;
  historic_images : option float }.

(** The document [doc(db, "users", email)] of one user: absent until it
    is created. *)
Definition Store : Type := option UserDocument.t.

(** [updateDoc(docRef, data)]: the fields present in [data] replace those
    of the stored document, the others stay; without a stored document the
    call is rejected. *)
Definition updateDoc (data : Partial) (store : Store) : option Store :=
  d ← store;
  Some (Some (UserDocument.mk
    (default (UserDocument.firstname d) (firstname data))
    (default (UserDocument.lastname d) (lastname data))
    (default (UserDocument.prompts d) (prompts data))
    (match prompt_before data with
     | Some v => Some v
     | None => UserDocument.prompt_before d
     end)
    (match prompt_after data with
     | Some v => Some v
     | None => UserDocument.prompt_after d
     end)
    (match historic_cost data with
     | Some v => Some v
     | None => UserDocument.historic_cost d
     end)
    (match historic_images data with
     | Some v => Some v
     | None => UserDocument.historic_images d
     end))).

(** "Create new user document with default values" *)
Definition newUserDoc : UserDocument.t :=
  UserDocument.mk [] [] [] None None (Some 0%float) (Some 0%float).

(** [getUserDocument(email)]: the document returned and the store left
    behind; [db] tells whether Firestore is configured, and without it the
    promise is rejected. *)
Definition getUserDocument (db : bool) (store : Store)
  : option (UserDocument.t * Store) :=
  if negb db then None
  else match store with
       | Some d => Some (d, store)
       | None => Some (newUserDoc, Some newUserDoc)   (* [setDoc] *)
       end.

(** [updateUserDocument(email, data)] *)
Definition updateUserDocument (db : bool) (data : Partial) (store : Store)
  : option Store :=
  if negb db then None else updateDoc data store.

(** The [data] of the two writers in [App.tsx]:
    [{ prompts, prompt_before: promptBefore, prompt_after: promptAfter }] of
    [handleSavePrompts] and
    [{ historic_cost: currentCost, historic_images: currentImages }] of
    the effect that syncs the totals. *)
Definition promptsData (saved : PromptEditor.Props) : Partial :=
  mkPartial None None (Some (PromptEditor.prompts saved))
    (Some (PromptEditor.promptBefore saved))
    (Some (PromptEditor.promptAfter saved)) None None.

Definition totalsData (written : float * float) : Partial :=
  mkPartial None None None None None (Some (fst written)) (Some (snd written)).

(** One call awaited after another on the store the first one left; a
    rejected call leaves nothing to go on with. *)
Definition andThen {A} (first : option Store) (next : Store → option A)
  : option A :=
  match first with
  | Some store => next store
  | None => None
  end.

End Firestore.

(* ===================================================================== *)
(** * Further notions used to state properties *)
(* ===================================================================== *)

Module BatchMore.

Import App Batch.

(** The usages the loop adds to the ledger for the tasks from index [i]
    on: those of the calls that resolved, in order. *)
Fixpoint charged (env : Env) (start : State) (i : nat)
    (todo : list ProcessingResult.t) : list Usage.t :=
  match todo with
  | [] => []
  | task :: todo' =>
      match outcome env start i task with
      | Resolved _ usage => usage :: charged env start (S i) todo'
      | Rejected message =>
          if keyRejected message then []
          else charged env start (S i) todo'
      end
  end.

(** One call of [addItem] on a copy of the ledger. *)
Definition charge (model : TokenUsage.ModelType) (ledger : TokenUsage.t)
    (usage : Usage.t) : TokenUsage.t :=
  TokenUsage.exec
    (TokenUsage.addItem (Usage.input usage) (Usage.output_text usage)
       (Usage.output_image usage) model)
    (TokenUsage.clone ledger).

(** The guard of [handleProcess] that turns a batch down, in the order
    the guards are tried. *)
Definition refusal (st : State) : option Log.template :=
  match userDoc st with
  | None => Some Log.NoPromptsConfigured
  | Some doc =>
      if decide (UserDocument.prompts doc = []) then
        Some Log.NoPromptsConfigured
      else if decide (enabledPrompts doc = []) then Some Log.NoPromptsSelected
      else if decide (selectedFiles st = []) then Some Log.NoFilesSelected
      else if hasKey st then None
      else Some Log.ApiKeyNotConfigured
  end.

(** Whether a slot holds a completed result. *)
Definition isCompleted (s : Slot) : bool :=
  match statusOf s with
  | Some Status.completed => true
  | Some _ | None => false
  end.

End BatchMore.

Module PageMore.

Import PromptEditor Page.

(** What the editor shows, in the form it is passed to [App]. *)
Definition shown (ed : State) : Props :=
  mkProps (map toPrompt (items ed)) (beforeText ed) (afterText ed).

(** The events whose handler builds a new list. *)
Definition rebuildsList (ev : Event) (sys : Sys) : bool :=
  match ev with
  | NameChange _ _ _ | PromptChange _ _ _ | SelectionChange _ _ _
  | SkipBeforeAfterChange _ _ _ | AddPrompt _ | DeletePrompt _ _ => true
  | Drop index _ =>
      match draggedIndex (editor sys) with
      | Some dragged => bool_decide (dragged ≠ index)
      | None => false
      end
  | BeforeTextChange _ _ | AfterTextChange _ _ | DragStart _ | DragEnd
  | Tick _ | SaveResolved | SaveRejected | Inbound _ => false
  end.

(** [App] holds a user document, and the texts of the props seen last are
    the texts the editor shows. *)
Definition inStep (sys : Sys) : Prop :=
  is_Some (App.userDoc (app sys)) ∧
  promptBefore (props (editor sys)) = beforeText (editor sys) ∧
  promptAfter (props (editor sys)) = afterText (editor sys).

End PageMore.

(** More concrete inputs. *)
Module Cases.

Import JS.

Definition cat : File.t := File.mk (lit "cat.final.png") (lit "image/png") 1.

Definition done : ProcessingResult.t :=
  ProcessingResult.mk (lit "wide", 1700000000000%Z) [cat] (lit "wide")
    (lit "a wide shot") Status.completed
    (Some (lit "data:image/png;base64,AAAA")) None.

Definition ada : AuthWrapper.User :=
  AuthWrapper.mkUser (Some (lit "ada@example.org")).

Definition listed : AuthWrapper.AccessRead :=
  AuthWrapper.Document (Some [lit "bob@example.org"; lit "ada@example.org"]).

(** A page on which the batch is turned down: no file is selected. *)
Definition noFiles : App.State :=
  App.mkState (Some Scenario.wideClose) false true [] [] [] false
    TokenUsage.fresh (lit "4:5") (lit "2K")
    TokenUsage.gemini_2_5_flash_image 1%float.

(** A response whose second part carries the image. *)
Definition answer : GeminiService.Response :=
  GeminiService.mkResponse
    (Some [GeminiService.mkCandidate
             (Some (GeminiService.mkContent
                      (Some [GeminiService.mkPart (Some (lit "here")) None;
                             GeminiService.mkPart None
                               (Some (GeminiService.mkInlineData None
                                        (Some (lit "AAAA"))))])))])
    None.

(** A page whose user document records higher lifetime totals than the
    ledger of this browser. *)
Definition ahead : App.State :=
  App.mkState
    (Some (UserDocument.mk (lit "Ada") (lit "L") [] None None
             (Some 5%float) (Some 3%float)))
    false true [] [] [] false TokenUsage.fresh (lit "4:5") (lit "2K")
    TokenUsage.gemini_2_5_flash_image 1%float.

(** An edit, the flush, and more typing while the write is under way. *)
Definition typedSince : list Page.Event :=
  [Page.NameChange 0 (lit "wider") 0; Page.Tick 5000;
   Page.BeforeTextChange (lit "Paint:") 6000].

(** What the flush of [typedSince] sent. *)
Definition sent : PromptEditor.Props :=
  PromptEditor.mkProps
    [Scenario.item "wider" "a wide shot" true false;
     Scenario.item "close" "a close-up" true false] (lit "Edit:") [].

(** An editor with two rows, the first of them being dragged. *)
Definition dragging : PromptEditor.State :=
  PromptEditor.set_draggedIndex (Some 0)
    (PromptEditor.set_items
       [PromptEditor.PromptItem.mk (lit "wide") (lit "a wide shot") true false;
        PromptEditor.PromptItem.mk (lit "close") (lit "a close-up") true false]
       (PromptEditor.initial (PromptEditor.mkProps [] [] []) 0)).

End Cases.

(* ===================================================================== *)
(** * Properties of the usage ledger *)
(* ===================================================================== *)

Section LedgerFacts.

Import TokenUsage.
Local Open Scope float_scope.

(** The snapshot of an instance holds the values of its fields, and taking
    it leaves the instance as it was. *)
Lemma toJSON_fields (u : TokenUsage.t) :
  toJSON u =
  (Data.mk (total u) (input u) (output_image u) (output_text u) (images u)
     (total_cost u) (historic_cost u) (historic_images u), u).
Proof. reflexivity. Qed.

(** The copy [TokenUsage.fromJSON(prev.toJSON())] is the instance itself. *)
Lemma clone_id (u : TokenUsage.t) : clone u = u.
Proof. destruct u; reflexivity. Qed.

(** What [reset] leaves behind. *)
Lemma reset_fields (u : TokenUsage.t) :
  exec reset u = mk 0 0 0 0 0 0 (historic_cost u) (historic_images u).
Proof. reflexivity. Qed.

(** What [addItem] leaves behind. *)
Lemma addItem_fields (u : TokenUsage.t) (i ot oi : float) (m : ModelType) :
  let p := PRICING m in
  let itemCost :=
    i * Pricing.input p + ot * Pricing.output_text p
    + oi * Pricing.output_image p + Pricing.output_imageflat p in
  exec (addItem i ot oi m) u =
  mk (total u + (i + ot + oi)) (input u + i) (output_image u + oi)
     (output_text u + ot) (images u + 1) (total_cost u + itemCost)
     (historic_cost u + itemCost) (historic_images u + 1).
Proof. reflexivity. Qed.

End LedgerFacts.

(** C4.  For every ledger state, [reset()] zeroes the six session fields
    ([total], [input], [output_text], [output_image], [images] and the
    session cost [total_cost]) and leaves the two lifetime fields
    ([historic_cost], [historic_images]) exactly as they were. *)
Theorem reset_zeroes_session_keeps_lifetime (u : TokenUsage.t) :
  let u' := TokenUsage.exec TokenUsage.reset u in
  TokenUsage.total u' = 0%float ∧
  TokenUsage.input u' = 0%float ∧
  TokenUsage.output_text u' = 0%float ∧
  TokenUsage.output_image u' = 0%float ∧
  TokenUsage.images u' = 0%float ∧
  TokenUsage.total_cost u' = 0%float ∧
  TokenUsage.historic_cost u' = TokenUsage.historic_cost u ∧
  TokenUsage.historic_images u' = TokenUsage.historic_images u.
Proof.
  intros u'; subst u'; rewrite reset_fields; simpl.
  repeat split.
Qed.

(** C5.  Serialization is a round trip: decoding the snapshot of a ledger
    ([fromJSON] of [toJSON]) gives back the same values in all eight
    fields, taking the snapshot does not change the ledger, and decoding a
    snapshot gives every absent field the value zero and every present
    field its value. *)
Theorem snapshot_round_trip (u : TokenUsage.t) (d : TokenUsage.Partial.t) :
  TokenUsage.fromJSON
    (TokenUsage.asPartial (TokenUsage.result TokenUsage.toJSON u)) = u ∧
  TokenUsage.exec TokenUsage.toJSON u = u ∧
  TokenUsage.fromJSON d =
    TokenUsage.mk
      (default 0%float (TokenUsage.Partial.total d))
      (default 0%float (TokenUsage.Partial.input d))
      (default 0%float (TokenUsage.Partial.output_image d))
      (default 0%float (TokenUsage.Partial.output_text d))
      (default 0%float (TokenUsage.Partial.images d))
      (default 0%float (TokenUsage.Partial.total_cost d))
      (default 0%float (TokenUsage.Partial.historic_cost d))
      (default 0%float (TokenUsage.Partial.historic_images d)) ∧
  TokenUsage.fromJSON TokenUsage.Partial.empty =
    TokenUsage.mk 0 0 0 0 0 0 0 0.
Proof.
  split; [apply clone_id|].
  split; [reflexivity|].
  split; [|reflexivity].
  destruct d as [[?|] [?|] [?|] [?|] [?|] [?|] [?|] [?|]]; reflexivity.
Qed.

(** C6.  For every ledger state and every model, [getCostBreakdown(model)]
    returns the input cost and the output cost computed from the current
    counters and the price table of that model, together with the stored
    session cost and lifetime cost, and leaves every field of the ledger as
    it was. *)
Theorem getCostBreakdown_read_only (u : TokenUsage.t)
    (model : TokenUsage.ModelType) :
  let pricing := TokenUsage.PRICING model in
  let b := TokenUsage.result (TokenUsage.getCostBreakdown model) u in
  TokenUsage.exec (TokenUsage.getCostBreakdown model) u = u ∧
  TokenUsage.Breakdown.inputCost b =
    (TokenUsage.input u * TokenUsage.Pricing.input pricing)%float ∧
  TokenUsage.Breakdown.outputCost b =
    (TokenUsage.output_text u * TokenUsage.Pricing.output_text pricing
     + TokenUsage.output_image u * TokenUsage.Pricing.output_image pricing
     + TokenUsage.images u * TokenUsage.Pricing.output_imageflat pricing)%float ∧
  TokenUsage.Breakdown.totalCost b = TokenUsage.total_cost u ∧
  TokenUsage.Breakdown.historic_cost b = TokenUsage.historic_cost u.
Proof.
  intros pricing b; subst pricing b.
  repeat split.
Qed.

(** Scenario C of the specification: with the flat-rate model, one
    successful call on a fresh ledger is reported as an output cost of
    0.039 and an input cost of 0. *)
Example breakdown_after_one_flat_rate_call :
  let u := TokenUsage.exec
             (TokenUsage.addItem 1290 0 1290 TokenUsage.gemini_2_5_flash_image)
             TokenUsage.fresh in
  let b := TokenUsage.result
             (TokenUsage.getCostBreakdown TokenUsage.gemini_2_5_flash_image) u in
  TokenUsage.Breakdown.outputCost b = 0.039%float ∧
  TokenUsage.Breakdown.inputCost b = 0%float ∧
  TokenUsage.Breakdown.totalCost b = 0.039%float.
Proof. vm_compute. repeat split. Qed.

(* ===================================================================== *)
(** * Merging the remote lifetime totals *)
(* ===================================================================== *)

Section MergeFacts.

Import App.

(** The ledger after the historic-data effect, field by field. *)
Lemma loadHistoricData_tokenUsage (st : State) :
  let u := tokenUsage st in
  let pick (local : float) (remote : option float) :=
    match remote with
    | Some r => if (local <? r)%float then r else local
    | None => local
    end in
  tokenUsage (loadHistoricData st) =
  TokenUsage.mk (TokenUsage.total u) (TokenUsage.input u)
    (TokenUsage.output_image u) (TokenUsage.output_text u)
    (TokenUsage.images u) (TokenUsage.total_cost u)
    (pick (TokenUsage.historic_cost u)
       (userDoc st ≫= UserDocument.historic_cost))
    (pick (TokenUsage.historic_images u)
       (userDoc st ≫= UserDocument.historic_images)).
Proof.
  destruct st as [doc ? ? ? ? ? ? u ? ? ? ?]; destruct u; simpl.
  unfold loadHistoricData, historicUpdates; simpl.
  destruct (doc ≫= UserDocument.historic_cost) as [c|];
    destruct (doc ≫= UserDocument.historic_images) as [n|]; simpl;
    repeat match goal with
           | |- context [(?a <? ?b)%float] => destruct (a <? b)%float; simpl
           end; reflexivity.
Qed.

End MergeFacts.

(** C3.  When the remote pair [{historic_cost, historic_images}] of the
    user document is merged into the local ledger, each of the two local
    values is replaced by the remote value exactly when a remote value is
    present and strictly greater, and is kept otherwise; so the merged
    value is one of the two (never their sum), it is the local value or a
    value strictly above it (never a decrease), and the six session fields
    are untouched. *)
Theorem loadHistoricData_keeps_larger (st : App.State) :
  let u := App.tokenUsage st in
  let u' := App.tokenUsage (App.loadHistoricData st) in
  let remoteCost := App.userDoc st ≫= UserDocument.historic_cost in
  let remoteImages := App.userDoc st ≫= UserDocument.historic_images in
  TokenUsage.historic_cost u' =
    match remoteCost with
    | Some r => if (TokenUsage.historic_cost u <? r)%float then r
                else TokenUsage.historic_cost u
    | None => TokenUsage.historic_cost u
    end ∧
  TokenUsage.historic_images u' =
    match remoteImages with
    | Some r => if (TokenUsage.historic_images u <? r)%float then r
                else TokenUsage.historic_images u
    | None => TokenUsage.historic_images u
    end ∧
  (TokenUsage.historic_cost u' = TokenUsage.historic_cost u ∨
   (TokenUsage.historic_cost u <? TokenUsage.historic_cost u')%float = true) ∧
  (TokenUsage.historic_images u' = TokenUsage.historic_images u ∨
   (TokenUsage.historic_images u <? TokenUsage.historic_images u')%float
   = true) ∧
  (TokenUsage.total u', TokenUsage.input u', TokenUsage.output_text u',
   TokenUsage.output_image u', TokenUsage.images u', TokenUsage.total_cost u')
  = (TokenUsage.total u, TokenUsage.input u, TokenUsage.output_text u,
     TokenUsage.output_image u, TokenUsage.images u, TokenUsage.total_cost u).
Proof.
  intros u u' remoteCost remoteImages; subst u u' remoteCost remoteImages.
  rewrite loadHistoricData_tokenUsage; simpl.
  split; [reflexivity|]. split; [reflexivity|].
  split; [|split; [|reflexivity]].
  - destruct (App.userDoc st ≫= UserDocument.historic_cost) as [r|];
      [|by left].
    destruct (TokenUsage.historic_cost (App.tokenUsage st) <? r)%float eqn:E;
      [by right | by left].
  - destruct (App.userDoc st ≫= UserDocument.historic_images) as [r|];
      [|by left].
    destruct (TokenUsage.historic_images (App.tokenUsage st) <? r)%float eqn:E;
      [by right | by left].
Qed.

(** A remote total below the local one is ignored, one above it is
    adopted, and the two are not added. *)
Example merge_examples :
  let doc (c n : float) :=
    Some (UserDocument.mk [] [] [] None None (Some c) (Some n)) in
  let st (c n : float) :=
    App.mkState (doc c n) false true [] [] [] false
      (TokenUsage.mk 0 0 0 0 0 0 1.5 4)%float [] []
      TokenUsage.gemini_2_5_flash_image 1%float in
  let merged c n :=
    let u := App.tokenUsage (App.loadHistoricData (st c n)) in
    (TokenUsage.historic_cost u, TokenUsage.historic_images u) in
  merged 1.25%float 3%float = (1.5, 4)%float ∧
  merged 2.5%float 4%float = (2.5, 4)%float ∧
  merged 1.5%float 9%float = (1.5, 9)%float.
Proof. vm_compute. repeat split. Qed.

(* ===================================================================== *)
(** * Properties of [trim] *)
(* ===================================================================== *)

Section TrimFacts.

Import JS.

Lemma trimStart_suffix (s : str) : ∃ p, s = p ++ trimStart s.
Proof.
  induction s as [|c s [p Hp]]; simpl; [by exists []|].
  destruct (isWhite c); [|by exists []].
  exists (c :: p); simpl; by f_equal.
Qed.

Lemma trimStart_length (s : str) : length (trimStart s) ≤ length s.
Proof.
  destruct (trimStart_suffix s) as [p Hp].
  rewrite Hp at 2. rewrite length_app. lia.
Qed.

Lemma trimEnd_length (s : str) : length (trimEnd s) ≤ length s.
Proof.
  unfold trimEnd. rewrite length_rev.
  etrans; [apply trimStart_length|]. by rewrite length_rev.
Qed.

(** A string that begins and ends with a code unit that is not white
    space is left alone by [trim]. *)
Lemma trim_edges (s r : str) (c d : N) :
  s = c :: r → isWhite c = false →
  last s = Some d → isWhite d = false →
  trim s = s.
Proof.
  intros -> Hc Hl Hd. unfold trim, trimEnd. simpl trimStart at 2. rewrite Hc.
  rewrite last_Some in Hl. destruct Hl as [l' Hl]. rewrite Hl.
  rewrite rev_app_distr. simpl. rewrite Hd. simpl.
  by rewrite rev_involutive.
Qed.

(** A non-empty string that [trim] leaves alone begins with a code unit
    that is not white space ... *)
Lemma trim_fixed_head (c : N) (r : str) :
  trim (c :: r) = c :: r → isWhite c = false.
Proof.
  intros H. destruct (isWhite c) eqn:E; [|done].
  exfalso. apply (f_equal length) in H. unfold trim in H. simpl in H.
  rewrite E in H.
  pose proof (trimEnd_length (trimStart r)).
  pose proof (trimStart_length r). lia.
Qed.

(** ... and ends with one. *)
Lemma trim_fixed_last (s : str) (d : N) :
  trim s = s → last s = Some d → isWhite d = false.
Proof.
  intros H Hl. destruct (isWhite d) eqn:E; [|done].
  exfalso. apply (f_equal length) in H.
  destruct (trimStart_suffix s) as [p Hp].
  unfold trim in H.
  destruct (trimStart s) as [|y0 y] eqn:Ey.
  - unfold trimEnd in H. simpl in H. rewrite last_Some in Hl.
    destruct Hl as [l' ->]. rewrite length_app in H. simpl in H. lia.
  - assert (Hly : last (y0 :: y) = Some d).
    { rewrite Hp, last_app in Hl.
      destruct (last (y0 :: y)) eqn:E'; [done|].
      by apply last_None in E'. }
    rewrite last_Some in Hly. destruct Hly as [l' Hl'].
    rewrite Hl' in H. unfold trimEnd in H.
    rewrite rev_app_distr in H. simpl in H. rewrite E in H.
    rewrite length_rev in H.
    pose proof (trimStart_length (rev l')) as Hle. rewrite length_rev in Hle.
    assert (length s = length p + length (l' ++ [d])) as Hs
      by (rewrite Hp at 1; rewrite length_app, <- Hl'; done).
    rewrite length_app in Hs. simpl in Hs. lia.
Qed.

(** Gluing tidy strings: the result begins like the first and ends like
    the last non-empty piece, so [trim] leaves it alone. *)
Lemma trim_app_tidy (a m b : str) :
  a ≠ [] → b ≠ [] → trim a = a → trim b = b → trim (a ++ m ++ b) = a ++ m ++ b.
Proof.
  intros Ha Hb Ta Tb.
  destruct a as [|c r]; [done|].
  destruct (last b) as [d|] eqn:Hl;
    [|by apply last_None in Hl].
  eapply (trim_edges _ (r ++ m ++ b) c d); [done| |..].
  - by apply trim_fixed_head in Ta.
  - rewrite app_assoc, last_app. by rewrite Hl.
  - by eapply trim_fixed_last.
Qed.

End TrimFacts.

(* ===================================================================== *)
(** * Properties of the batch *)
(* ===================================================================== *)

Section BatchFacts.

Import App Batch.

Variable env : Env.

(** ** Task construction *)

Lemma fold_pushTask (doc : UserDocument.t) (files : list File.t)
    (selected : list Prompt.t) (acc : list ProcessingResult.t) :
  fold_left (pushTask env doc files) selected acc =
  acc ++ imap (λ k, taskFor env doc files (length acc + k)) selected.
Proof.
  revert acc. induction selected as [|p selected IH]; intros acc; simpl.
  - by rewrite app_nil_r.
  - rewrite IH. unfold pushTask. rewrite <- app_assoc. simpl.
    f_equal. unfold taskFor at 2. rewrite Nat.add_0_r. f_equal.
    apply imap_ext. intros k q _. simpl. rewrite length_app. simpl.
    f_equal. lia.
Qed.

(** The task list is the selected prompts, mapped in order. *)
Lemma buildTasks_imap (doc : UserDocument.t) (files : list File.t) :
  buildTasks env doc files =
  imap (taskFor env doc files) (enabledPrompts doc).
Proof. unfold buildTasks. by rewrite fold_pushTask. Qed.

Lemma buildTasks_lookup (doc : UserDocument.t) (files : list File.t) (k : nat) :
  buildTasks env doc files !! k =
  taskFor env doc files k <$> enabledPrompts doc !! k.
Proof. by rewrite buildTasks_imap, list_lookup_imap. Qed.

Lemma buildTasks_length (doc : UserDocument.t) (files : list File.t) :
  length (buildTasks env doc files) = length (enabledPrompts doc).
Proof. by rewrite buildTasks_imap, length_imap. Qed.

(** The template of [handleProcess] joins the non-empty segments with a
    newline when the prompt text is not empty and no segment begins or
    ends with white space. *)
Lemma fullPrompt_join (doc : UserDocument.t) (p : Prompt.t) :
  let beforeText := JS.orElse (UserDocument.prompt_before doc) [] in
  let afterText := JS.orElse (UserDocument.prompt_after doc) [] in
  JS.trim beforeText = beforeText → JS.trim afterText = afterText →
  JS.trim (Prompt.prompt p) = Prompt.prompt p → Prompt.prompt p ≠ [] →
  fullPrompt doc p = Spec.join beforeText (Prompt.prompt p) afterText.
Proof.
  intros b a Tb Ta Tp Np. unfold fullPrompt, Spec.join. fold b a.
  destruct (Prompt.prompt p) as [|c text] eqn:Ep; [done|].
  destruct b as [|b0 b'], a as [|a0 a'].
  - simpl. rewrite app_nil_r.
    destruct (last (c :: text)) as [d|] eqn:Hl; [|by apply last_None in Hl].
    eapply trim_edges; [done| |done|].
    + by apply trim_fixed_head in Tp.
    + by eapply trim_fixed_last.
  - by apply (trim_app_tidy (c :: text) JS.LF (a0 :: a')).
  - pose proof (trim_app_tidy (b0 :: b') JS.LF (c :: text)) as H.
    simpl. rewrite app_nil_r. by apply H.
  - pose proof (trim_app_tidy (b0 :: b') (JS.LF ++ (c :: text) ++ JS.LF)
                  (a0 :: a')) as H.
    rewrite <- !app_assoc in H. by apply H.
Qed.

End BatchFacts.

Section LoopFacts.

Import App Batch.

Variable env : Env.
Variable start : State.

(** ** What a status update touches *)

Lemma updateResultStatus_at (st : State) (pre rest : list Slot)
    (task : ProcessingResult.t) (status : Status.t)
    (imageUrl error : option JS.str) :
  results st = pre ++ Full task :: rest →
  results (updateResultStatus (length pre) status imageUrl error st) =
  pre ++ settled task status imageUrl error :: rest.
Proof.
  intros H. unfold updateResultStatus, setResults; simpl. rewrite H.
  rewrite list_lookup_middle by done. unfold assign.
  rewrite decide_True by (rewrite length_app; simpl; lia).
  rewrite insert_app_r_alt by lia. by rewrite Nat.sub_diag.
Qed.

Lemma settled_settled (task : ProcessingResult.t) (s1 : Status.t)
    (u1 e1 : option JS.str) (s2 : Status.t) (u2 e2 : option JS.str)
    (pre rest : list Slot) (st : State) :
  results st = pre ++ settled task s1 u1 e1 :: rest →
  results (updateResultStatus (length pre) s2 u2 e2 st) =
  pre ++ settled task s2 u2 e2 :: rest.
Proof. intros H. by rewrite (updateResultStatus_at _ _ _ _ _ _ _ H). Qed.

(** Logging and ledger updates leave the slots alone. *)
Lemma results_log (m : Log.template) (ty : Log.level) (st : State) :
  results (log m ty st) = results st.
Proof. reflexivity. Qed.

Lemma results_setTokenUsage (f : TokenUsage.t → TokenUsage.t) (st : State) :
  results (setTokenUsage f st) = results st.
Proof. reflexivity. Qed.

(** ** The loop *)

(** The loop rewrites the slots of the tasks it is given, and nothing
    before them. *)
Lemma processLoop_results (n : nat) (todo : list ProcessingResult.t) :
  ∀ (i : nat) (st : State) (pre : list Slot),
    results st = pre ++ map Full todo → length pre = i →
    results (processLoop env start n i todo st) =
    pre ++ finalSlots env start i todo.
Proof.
  induction todo as [|task todo IH]; intros i st pre Hres Hlen; [done|].
  simpl in Hres. subst i. simpl processLoop. simpl finalSlots.
  unfold outcome at 1.
  set (st1 := log _ _ (updateResultStatus _ Status.processing None None st)).
  assert (H1 : results st1 =
               pre ++ settled task Status.processing None None :: map Full todo)
    by (subst st1; rewrite results_log;
        exact (updateResultStatus_at _ _ _ _ _ _ _ Hres)).
  destruct (generateImageFromReference env (length pre) _ _ _ _ _ _)
    as [imageUrl usage|message].
  - rewrite (IH (S (length pre)) _
               (pre ++ [settled task Status.completed (Some imageUrl) None])).
    + by rewrite <- app_assoc.
    + rewrite results_log, <- app_assoc.
      apply (settled_settled task Status.processing None None).
      by rewrite results_setTokenUsage.
    + rewrite length_app. simpl. lia.
  - set (st2 := log _ _ (updateResultStatus _ Status.failed _ _ st1)).
    assert (H2 : results st2 =
                 pre ++ settled task Status.failed None (Some message)
                     :: map Full todo)
      by (subst st2; rewrite results_log;
          apply (settled_settled task Status.processing None None);
          exact H1).
    destruct (keyRejected message).
    + destruct (aistudio env); exact H2.
    + rewrite (IH (S (length pre)) _
                 (pre ++ [settled task Status.failed None (Some message)])).
      * by rewrite <- app_assoc.
      * by rewrite <- app_assoc.
      * rewrite length_app. simpl. lia.
Qed.

(** The loop clears [hasKey] only on a [break], and only when
    [window.aistudio] exists. *)
Lemma processLoop_hasKey (n : nat) (todo : list ProcessingResult.t) :
  ∀ (i : nat) (st : State),
    hasKey (processLoop env start n i todo st) =
    if halted env start i todo && aistudio env then false else hasKey st.
Proof.
  induction todo as [|task todo IH]; intros i st; [done|].
  simpl processLoop. simpl halted. unfold outcome at 1.
  destruct (generateImageFromReference env i _ _ _ _ _ _)
    as [imageUrl usage|message].
  - by rewrite IH.
  - destruct (keyRejected message); simpl.
    + by destruct (aistudio env).
    + by rewrite IH.
Qed.

(** ** Reading the slots the loop leaves *)

Lemma finalSlots_length (todo : list ProcessingResult.t) (i : nat) :
  length (finalSlots env start i todo) = length todo.
Proof.
  revert i. induction todo as [|task todo IH]; intros i; [done|].
  simpl. destruct (outcome env start i task) as [?|message]; simpl.
  - by rewrite IH.
  - destruct (keyRejected message); [by rewrite length_map|by rewrite IH].
Qed.

Lemma reachedFrom_tail (i k : nat) (task : ProcessingResult.t)
    (todo : list ProcessingResult.t) :
  reachedFrom env start i (task :: todo) (S k) → reachedFrom env start (S i) todo k.
Proof.
  intros H j t m Hj Ht Ho. apply (H (S j) t m); [lia|done|].
  by replace (i + S j) with (S i + j) by lia.
Qed.

Lemma reachedFrom_head (i k : nat) (task : ProcessingResult.t)
    (todo : list ProcessingResult.t) (message : JS.str) :
  reachedFrom env start i (task :: todo) (S k) →
  outcome env start i task = Rejected message → keyRejected message = false.
Proof.
  intros H Ho. apply (H 0 task message); [lia|done|].
  by rewrite Nat.add_0_r.
Qed.

(** A reached task ends as its call ended. *)
Lemma finalSlots_reached (todo : list ProcessingResult.t) :
  ∀ (i k : nat) (task : ProcessingResult.t),
    todo !! k = Some task → reachedFrom env start i todo k →
    finalSlots env start i todo !! k =
    Some match outcome env start (i + k) task with
         | Resolved imageUrl _ =>
             settled task Status.completed (Some imageUrl) None
         | Rejected message =>
             settled task Status.failed None (Some message)
         end.
Proof.
  induction todo as [|t todo IH]; intros i k task Hk Hr; [done|].
  destruct k as [|k]; simpl in Hk.
  - injection Hk as ->. rewrite Nat.add_0_r. simpl.
    by destruct (outcome env start i task).
  - simpl finalSlots.
    destruct (outcome env start i t) as [?|message] eqn:Ho; simpl.
    + replace (i + S k) with (S i + k) by lia.
      apply IH; [done|]. by eapply reachedFrom_tail.
    + rewrite (reachedFrom_head _ _ _ _ _ Hr Ho).
      replace (i + S k) with (S i + k) by lia.
      apply IH; [done|]. by eapply reachedFrom_tail.
Qed.

(** After a call rejected for the key, the later tasks are as they were
    queued, and the loop has ended in [break]. *)
Lemma finalSlots_after_break (todo : list ProcessingResult.t) :
  ∀ (i k : nat) (task : ProcessingResult.t) (message : JS.str),
    todo !! k = Some task → reachedFrom env start i todo k →
    outcome env start (i + k) task = Rejected message →
    keyRejected message = true →
    halted env start i todo = true ∧
    ∀ j later, k < j → todo !! j = Some later →
      finalSlots env start i todo !! j = Some (Full later).
Proof.
  induction todo as [|t todo IH]; intros i k task message Hk Hr Ho Hkey;
    [done|].
  destruct k as [|k]; simpl in Hk.
  - injection Hk as ->. rewrite Nat.add_0_r in Ho. simpl. rewrite Ho, Hkey.
    split; [done|]. intros [|j] later Hj Hl; [lia|]. simpl in *.
    by rewrite list_lookup_fmap, Hl.
  - replace (i + S k) with (S i + k) in Ho by lia.
    destruct (IH (S i) k task message Hk (reachedFrom_tail _ _ _ _ Hr) Ho Hkey)
      as [Hh Hlater].
    simpl. destruct (outcome env start i t) as [?|m] eqn:Ho'.
    + split; [done|]. intros [|j] later Hj Hl; [lia|]. simpl in *.
      apply Hlater; [lia|done].
    + rewrite (reachedFrom_head _ _ _ _ _ Hr Ho'). simpl.
      split; [done|]. intros [|j] later Hj Hl; [lia|]. simpl in *.
      apply Hlater; [lia|done].
Qed.

End LoopFacts.

Section StartFacts.

Import App Batch.

Variable env : Env.

(** Past its guards, [handleProcess] queues the tasks, runs the loop and
    reports the end of the batch. *)
Lemma handleProcess_started (st : State) (doc : UserDocument.t) :
  userDoc st = Some doc → starts st = true →
  let tasks := buildTasks env doc (selectedFiles st) in
  handleProcess env st =
  log Log.BatchFinished Log.success
    (setIsProcessing false
       (processLoop env st (length tasks) 0 tasks
          (log (Log.Queued (length tasks)) Log.info
             (setResults (λ _, map Full tasks)
                (log (Log.StartingBatch (length (selectedFiles st))) Log.info
                   (setResults (λ _, []) (setIsProcessing true st))))))).
Proof.
  intros Hdoc Hstart tasks. unfold starts in Hstart. rewrite Hdoc in Hstart.
  apply andb_prop in Hstart as [Hstart Hkey].
  apply andb_prop in Hstart as [Hen Hfiles].
  apply bool_decide_eq_true in Hen, Hfiles.
  unfold handleProcess. rewrite Hdoc.
  assert (UserDocument.prompts doc ≠ []) as Hp.
  { intros E. apply Hen. unfold enabledPrompts. by rewrite E. }
  rewrite decide_False by (by destruct (UserDocument.prompts doc)).
  rewrite decide_False by (by destruct (enabledPrompts doc)).
  rewrite decide_False by (by destruct (selectedFiles st)).
  rewrite Hkey. simpl negb. cbv iota.
  rewrite decide_False by (by destruct (selectedFiles st)).
  reflexivity.
Qed.

Lemma handleProcess_results (st : State) (doc : UserDocument.t) :
  userDoc st = Some doc → starts st = true →
  results (handleProcess env st) =
  finalSlots env st 0 (buildTasks env doc (selectedFiles st)).
Proof.
  intros Hdoc Hstart. rewrite (handleProcess_started st doc Hdoc Hstart).
  cbv zeta. rewrite results_log.
  change (results (setIsProcessing false ?s)) with (results s).
  by rewrite (processLoop_results env st _ _ 0 _ []).
Qed.

Lemma handleProcess_hasKey (st : State) (doc : UserDocument.t) :
  userDoc st = Some doc → starts st = true →
  hasKey (handleProcess env st) =
  negb (halted env st 0 (buildTasks env doc (selectedFiles st))
        && aistudio env).
Proof.
  intros Hdoc Hstart. rewrite (handleProcess_started st doc Hdoc Hstart).
  cbv zeta.
  change (hasKey (log ?m ?t (setIsProcessing false ?s))) with (hasKey s).
  rewrite processLoop_hasKey.
  change (hasKey (log ?m ?t (setResults ?f (log ?m' ?t'
            (setResults ?g (setIsProcessing true st))))))
    with (hasKey st).
  unfold starts in Hstart. rewrite Hdoc in Hstart.
  apply andb_prop in Hstart as [_ ->].
  by destruct (halted _ _ _ _ && aistudio env).
Qed.

(** The loop changes the status, image and error of a slot and nothing
    else of it. *)
Lemma finalSlots_same_tasks (start : State) (todo : list ProcessingResult.t) :
  ∀ i,
    Forall2 (λ slot task, ∃ r, slot = Full r ∧
               ProcessingResult.id r = ProcessingResult.id task ∧
               ProcessingResult.files r = ProcessingResult.files task ∧
               ProcessingResult.promptName r = ProcessingResult.promptName task ∧
               ProcessingResult.promptText r = ProcessingResult.promptText task)
      (finalSlots env start i todo) todo.
Proof.
  assert (∀ l : list ProcessingResult.t,
            Forall2 (λ slot task, ∃ r, slot = Full r ∧
               ProcessingResult.id r = ProcessingResult.id task ∧
               ProcessingResult.files r = ProcessingResult.files task ∧
               ProcessingResult.promptName r = ProcessingResult.promptName task ∧
               ProcessingResult.promptText r = ProcessingResult.promptText task)
              (map Full l) l) as Hid.
  { induction l; constructor; [by eexists|done]. }
  induction todo as [|task todo IH]; intros i; [constructor|].
  simpl. destruct (outcome env start i task) as [?|message].
  - constructor; [by eexists|apply IH].
  - constructor; [by eexists|]. destruct (keyRejected message); [apply Hid|apply IH].
Qed.

End StartFacts.

(* ===================================================================== *)
(** * Task construction (C1, C10) *)
(* ===================================================================== *)

(** C1, as amended.  For every batch that starts, one task is built per
    enabled prompt item whose name is not blank, in list order; each task
    is pending and carries the full set of selected images; for an item
    whose skip flag is not set the composed text is the template
    [before, newline if before, text, newline if after, after], trimmed,
    which is the non-empty segments among before, text and after joined
    with a newline whenever the text is not empty and no segment begins or
    ends with white space; and these are the tasks the batch runs. *)
Theorem tasks_built_per_named_enabled_prompt (env : App.Env) (st : App.State)
    (doc : UserDocument.t) :
  App.userDoc st = Some doc → App.starts st = true →
  let files := App.selectedFiles st in
  let beforeText := JS.orElse (UserDocument.prompt_before doc) [] in
  let afterText := JS.orElse (UserDocument.prompt_after doc) [] in
  let selected :=
    List.filter (λ p, Prompt.enabled p && JS.truthy (JS.trim (Prompt.name p)))
      (UserDocument.prompts doc) in
  let tasks := App.buildTasks env doc files in
  map ProcessingResult.promptName tasks = map Prompt.name selected ∧
  Forall (λ t, ProcessingResult.files t = files ∧
               ProcessingResult.status t = Status.pending ∧
               ProcessingResult.imageUrl t = None ∧
               ProcessingResult.error t = None) tasks ∧
  (∀ k p, selected !! k = Some p → Prompt.skip_beforeafter_prompt p = false →
     ∃ t, tasks !! k = Some t ∧
          ProcessingResult.promptText t =
            JS.trim (beforeText ++ (if JS.truthy beforeText then JS.LF else [])
                     ++ Prompt.prompt p
                     ++ (if JS.truthy afterText then JS.LF else [])
                     ++ afterText) ∧
          (JS.trim beforeText = beforeText → JS.trim afterText = afterText →
           JS.trim (Prompt.prompt p) = Prompt.prompt p →
           Prompt.prompt p ≠ [] →
           ProcessingResult.promptText t =
             Spec.join beforeText (Prompt.prompt p) afterText)) ∧
  Forall2 (λ slot t, ∃ r, slot = Full r ∧
             ProcessingResult.id r = ProcessingResult.id t ∧
             ProcessingResult.files r = ProcessingResult.files t ∧
             ProcessingResult.promptName r = ProcessingResult.promptName t ∧
             ProcessingResult.promptText r = ProcessingResult.promptText t)
    (App.results (App.handleProcess env st)) tasks.
Proof.
  intros Hdoc Hstart files beforeText afterText selected tasks.
  subst tasks. rewrite buildTasks_imap. fold selected (App.enabledPrompts doc).
  change (App.enabledPrompts doc) with selected.
  split; [|split; [|split]].
  - apply list_eq. intros k.
    rewrite !list_lookup_fmap, list_lookup_imap.
    by destruct (selected !! k).
  - apply Forall_forall. intros t Ht.
    apply list_elem_of_lookup in Ht as [k Hk].
    rewrite list_lookup_imap in Hk.
    destruct (selected !! k); [|done]. injection Hk as <-. done.
  - intros k p Hk Hskip. exists (Batch.taskFor env doc files k p).
    split; [by rewrite list_lookup_imap, Hk|].
    split; [done|]. intros. by apply fullPrompt_join.
  - rewrite (handleProcess_results env st doc Hdoc Hstart).
    rewrite buildTasks_imap. apply finalSlots_same_tasks.
Qed.

(** The amended C1 on scenario A of the specification. *)
Lemma tasks_built_scenario_A :
  App.userDoc (Scenario.page Scenario.wideClose) = Some Scenario.wideClose ∧
  App.starts (Scenario.page Scenario.wideClose) = true ∧
  map ProcessingResult.promptName
    (App.buildTasks (Scenario.remote false Scenario.succeeds)
       Scenario.wideClose [Scenario.image])
  = [JS.lit "wide"; JS.lit "close"].
Proof.
  split; [reflexivity|]. split; [reflexivity|].
  exact (proj1 (tasks_built_per_named_enabled_prompt
                  (Scenario.remote false Scenario.succeeds)
                  (Scenario.page Scenario.wideClose) Scenario.wideClose
                  eq_refl eq_refl)).
Defined.

(** C1 as the specification states it fails on the code: an enabled item
    without a name gets no task, and a prompt text with spaces around it
    is trimmed instead of being joined as it is. *)
Lemma composed_texts_differ_from_spec :
  map ProcessingResult.promptText
    (App.buildTasks (Scenario.remote false Scenario.succeeds)
       Scenario.unnamedFirst [Scenario.image])
  ≠ Spec.composedTexts Scenario.unnamedFirst ∧
  map ProcessingResult.promptText
    (App.buildTasks (Scenario.remote false Scenario.succeeds)
       Scenario.spacedText [Scenario.image])
  ≠ Spec.composedTexts Scenario.spacedText.
Proof. split; vm_compute; discriminate. Qed.

(** The skip flag of an item is stored and edited, but [handleProcess]
    never reads it: the text of a skipping item is wrapped like any
    other. *)
Example skip_flag_is_not_read :
  map ProcessingResult.promptText
    (App.buildTasks (Scenario.remote false Scenario.succeeds)
       Scenario.skipping [Scenario.image])
  = [JS.lit "Edit:" ++ JS.LF ++ JS.lit "a close-up"].
Proof. reflexivity. Qed.

(** Scenario A of the specification, end to end: two tasks with the
    texts ["Edit:\n<wide text>"] and ["Edit:\n<close text>"], both
    completed, and two more images on the ledger. *)
Example scenario_A :
  let st' := App.handleProcess (Scenario.remote false Scenario.succeeds)
               (Scenario.page Scenario.wideClose) in
  map ProcessingResult.promptText
    (App.buildTasks (Scenario.remote false Scenario.succeeds)
       Scenario.wideClose [Scenario.image])
  = [JS.lit "Edit:" ++ JS.LF ++ JS.lit "a wide shot";
     JS.lit "Edit:" ++ JS.LF ++ JS.lit "a close-up"] ∧
  map Batch.statusOf (App.results st')
  = [Some Status.completed; Some Status.completed] ∧
  TokenUsage.images (App.tokenUsage st') = 2%float.
Proof. vm_compute. repeat split. Qed.

(** C10.  An enabled item whose name is empty or white space only gets no
    task: every task carries a name that is not blank, and the tasks
    built are those of the document without its blank-named items.  When
    the list is not empty and every enabled item has a blank name, the
    batch is rejected with the "no prompts selected" error, and nothing
    but the log changes, just as when no item is enabled. *)
Theorem blank_named_prompts_are_excluded (env : App.Env) (st : App.State)
    (doc : UserDocument.t) (files : list File.t) :
  App.userDoc st = Some doc →
  UserDocument.prompts doc ≠ [] →
  (∀ p, p ∈ UserDocument.prompts doc → Prompt.enabled p = true →
        JS.trim (Prompt.name p) = []) →
  (∀ doc' t, t ∈ App.buildTasks env doc' files →
             JS.trim (ProcessingResult.promptName t) ≠ []) ∧
  (∀ doc', App.buildTasks env doc' files =
           App.buildTasks env (Batch.withoutBlankNames doc') files) ∧
  App.buildTasks env doc files = [] ∧
  App.handleProcess env st = App.log Log.NoPromptsSelected Log.error st.
Proof.
  intros Hdoc Hne Hblank.
  assert (App.enabledPrompts doc = []) as Hnone.
  { unfold App.enabledPrompts.
    destruct (List.filter _ _) as [|p l] eqn:E; [done|].
    assert (In p (p :: l)) as Hin by (by left). rewrite <- E in Hin.
    apply filter_In in Hin as [Hin Hp].
    apply andb_prop in Hp as [He Hn].
    rewrite (Hblank p) in Hn; [done| |done]. by apply list_elem_of_In. }
  split; [|split; [|split]].
  - intros doc' t Ht. rewrite buildTasks_imap in Ht.
    apply list_elem_of_lookup in Ht as [k Hk].
    rewrite list_lookup_imap in Hk.
    destruct (App.enabledPrompts doc' !! k) as [p|] eqn:Hp; [|done].
    injection Hk as <-. simpl.
    apply list_elem_of_lookup_2, list_elem_of_In in Hp.
    apply filter_In in Hp as [_ Hp]. apply andb_prop in Hp as [_ Hp].
    by destruct (JS.trim (Prompt.name p)).
  - intros doc'. rewrite !buildTasks_imap.
    assert (App.enabledPrompts (Batch.withoutBlankNames doc')
            = App.enabledPrompts doc') as ->; [|done].
    unfold App.enabledPrompts, Batch.withoutBlankNames; simpl.
    induction (UserDocument.prompts doc') as [|p l IH]; [done|]. simpl.
    destruct (JS.truthy (JS.trim (Prompt.name p))) eqn:E; simpl.
    + rewrite E, IH. done.
    + rewrite andb_false_r. done.
  - by rewrite buildTasks_imap, Hnone.
  - unfold App.handleProcess. rewrite Hdoc.
    rewrite decide_False by (by destruct (UserDocument.prompts doc)).
    rewrite decide_True by (by rewrite Hnone). done.
Qed.

(** C10 on a list whose only enabled item is named with two spaces. *)
Lemma blank_named_prompts_witness :
  App.handleProcess (Scenario.remote false Scenario.succeeds)
    (Scenario.page Scenario.onlyBlankEnabled)
  = App.log Log.NoPromptsSelected Log.error
      (Scenario.page Scenario.onlyBlankEnabled).
Proof.
  refine (proj2 (proj2 (proj2
    (blank_named_prompts_are_excluded
       (Scenario.remote false Scenario.succeeds)
       (Scenario.page Scenario.onlyBlankEnabled) Scenario.onlyBlankEnabled
       [Scenario.image] eq_refl _ _)))).
  - discriminate.
  - intros p Hp He. apply list_elem_of_In in Hp.
    destruct Hp as [<-|[<-|[]]]; [reflexivity|discriminate].
Defined.

(* ===================================================================== *)
(** * Failures during the batch (C2) *)
(* ===================================================================== *)

(** C2, as amended.  In a batch that starts, when the call of a reached
    task fails, the task becomes failed with the message of the error.
    If the message does not name a rejected key, the batch goes on: the
    next task is run and ends completed or failed as its own call ends.
    If it does, the batch stops at once: every later task stays as it was
    queued, pending, and [hasKey] is cleared exactly when the hosted key
    selection ([window.aistudio]) exists; without it the key flag is left
    set and only the log tells. *)
Theorem batch_failure_policy (env : App.Env) (st : App.State)
    (doc : UserDocument.t) (i : nat) (task : ProcessingResult.t)
    (message : JS.str) :
  App.userDoc st = Some doc → App.starts st = true →
  let tasks := App.buildTasks env doc (App.selectedFiles st) in
  let st' := App.handleProcess env st in
  tasks !! i = Some task →
  Batch.reached env st tasks i →
  Batch.outcome env st i task = Rejected message →
  App.results st' !! i =
    Some (Batch.settled task Status.failed None (Some message)) ∧
  if App.keyRejected message then
    (∀ j later, i < j → tasks !! j = Some later →
       App.results st' !! j = Some (Full later) ∧
       ProcessingResult.status later = Status.pending) ∧
    App.hasKey st' = negb (App.aistudio env)
  else
    ∀ next, tasks !! S i = Some next →
      App.results st' !! S i =
      Some match Batch.outcome env st (S i) next with
           | Resolved imageUrl _ =>
               Batch.settled next Status.completed (Some imageUrl) None
           | Rejected message' =>
               Batch.settled next Status.failed None (Some message')
           end.
Proof.
  intros Hdoc Hstart tasks st' Hi Hreached Hout. subst st'.
  rewrite (handleProcess_results env st doc Hdoc Hstart). fold tasks.
  split.
  - rewrite (finalSlots_reached env st tasks 0 i task Hi Hreached).
    simpl. by rewrite Hout.
  - destruct (App.keyRejected message) eqn:Hkey.
    + destruct (finalSlots_after_break env st tasks 0 i task message
                  Hi Hreached Hout Hkey) as [Hhalt Hlater].
      split.
      * intros j later Hj Hl. split; [by apply Hlater|].
        subst tasks. rewrite buildTasks_lookup in Hl.
        destruct (App.enabledPrompts doc !! j); [|done].
        by injection Hl as <-.
      * rewrite (handleProcess_hasKey env st doc Hdoc Hstart).
        fold tasks. by rewrite Hhalt.
    + intros next Hnext.
      rewrite (finalSlots_reached env st tasks 0 (S i) next Hnext); [done|].
      intros j t m Hj Ht Hm.
      destruct (decide (j = i)) as [->|Hne].
      * rewrite Hi in Ht. injection Ht as <-.
        change (0 + i) with i in Hm.
        rewrite Hout in Hm. by injection Hm as <-.
      * apply (Hreached j t m); [lia|done|done].
Qed.

(** The amended C2 on scenario B, hosted: the second of three calls is
    rejected for the key. *)
Lemma batch_failure_scenario_B :
  map Batch.statusOf
    (App.results (App.handleProcess Scenario.hostedRemote
                    (Scenario.page Scenario.three)))
  = [Some Status.completed; Some Status.failed; Some Status.pending] ∧
  App.results (App.handleProcess Scenario.hostedRemote
                 (Scenario.page Scenario.three)) !! 1 =
    Some (Batch.settled
            (Batch.taskFor Scenario.hostedRemote Scenario.three
               [Scenario.image] 1 (Scenario.item "two" "second" true false))
            Status.failed None
            (Some (JS.lit "Requested entity was not found."))) ∧
  App.hasKey (App.handleProcess Scenario.hostedRemote
                (Scenario.page Scenario.three)) = false.
Proof.
  split; [reflexivity|].
  pose proof (batch_failure_policy Scenario.hostedRemote
                (Scenario.page Scenario.three) Scenario.three 1
                (Batch.taskFor Scenario.hostedRemote Scenario.three
                   [Scenario.image] 1
                   (Scenario.item "two" "second" true false))
                (JS.lit "Requested entity was not found.")
                eq_refl eq_refl eq_refl) as H.
  destruct H as [Hfailed Hstop].
  - intros [|j] t m Hj Ht Hm; [|lia].
    vm_compute in Hm. discriminate.
  - reflexivity.
  - split; [exact Hfailed|]. exact (proj2 Hstop).
Defined.

(** C2 as the specification states it fails on the code: run locally
    (no [window.aistudio]), the batch of scenario B stops at the rejected
    key, but the key flag is not touched. *)
Lemma key_flag_stays_set_without_hosted_selection :
  App.keyRejected (JS.lit "Requested entity was not found.") = true ∧
  map Batch.statusOf
    (App.results (App.handleProcess Scenario.localRemote
                    (Scenario.page Scenario.three)))
  = [Some Status.completed; Some Status.failed; Some Status.pending] ∧
  App.hasKey (App.handleProcess Scenario.localRemote
                (Scenario.page Scenario.three)) = true.
Proof. vm_compute. repeat split. Qed.

(** A failure for another reason does not stop the batch. *)
Example batch_continues_after_other_failure :
  let env := Scenario.remote true Scenario.secondFails in
  let st' := App.handleProcess env (Scenario.page Scenario.three) in
  map Batch.statusOf (App.results st')
  = [Some Status.completed; Some Status.failed; Some Status.completed] ∧
  App.hasKey st' = true.
Proof. vm_compute. repeat split. Qed.

(* ===================================================================== *)
(** * Properties of the editor in the page *)
(* ===================================================================== *)

Section RenderFacts.

Import PromptEditor Page.

Lemma bool_decide_ne_refl {A} `{EqDecision A} (x : A) :
  bool_decide (x ≠ x) = false.
Proof. by apply bool_decide_eq_false_2; intros H. Qed.

Lemma textDiffers_refl (p : Props) : textDiffers p p = false.
Proof. unfold textDiffers. by rewrite !bool_decide_ne_refl. Qed.

(** The props [App] passes are those of its user document, whatever the
    editor had before. *)
Lemma propsNow_idem (app : App.State) (p : Props) :
  propsNow app (propsNow app p) = propsNow app p.
Proof. unfold propsNow. by destruct (App.userDoc app). Qed.

(** ** Single renders *)

(** A render that follows a call of [onChange]: the fresh [prompts] array
    finds the local-change flag set, and only clears it. *)
Lemma render_echo (sys : Sys) (tp : bool) :
  isLocalChange (editor sys) = true →
  render (mkDeps false false false tp true) sys =
  (mkDeps false false false
     (textDiffers (propsNow (app sys) (props (editor sys)))
        (props (editor sys))) false,
   mk (app sys)
     (set_props (propsNow (app sys) (props (editor sys)))
        (set_isLocalChange false (editor sys)))
     (inflight sys)).
Proof.
  destruct sys as [app [p it b a hc dg dov lt ir br ar lc ini] infl].
  simpl. intros ->.
  unfold render, runEffects, keepRefs, syncTextFromProps, initItemsFromProps.
  destruct tp; simpl; rewrite !bool_decide_ne_refl, andb_negb_l; done.
Qed.

(** A render after a local change of an initialised editor: the refs
    follow, the flag is set and [onChange] is called with the list and
    texts of the render. *)
Lemma render_notify (sys : Sys) (di db da : bool) :
  isInitialized (editor sys) = true →
  di || db || da = true →
  let ed := editor sys in
  let saved := mkProps (map toPrompt (items ed)) (beforeText ed)
                 (afterText ed) in
  let app' := App.handlePromptsChange (prompts saved) (promptBefore saved)
                (promptAfter saved) (app sys) in
  let next := propsNow app' (props ed) in
  render (mkDeps di db da false false) sys =
  (mkDeps false false false (textDiffers next (props ed)) true,
   mk app'
     (set_props next
        (set_isLocalChange true (keepRefs (mkDeps di db da false false) ed ed)))
     (inflight sys)).
Proof.
  destruct sys as [app [p it b a hc dg dov lt ir br ar lc ini] infl].
  simpl. intros -> Hany.
  unfold render, runEffects. simpl. rewrite Hany.
  unfold notifyParent, keepRefs.
  destruct di, db, da; simpl; rewrite !bool_decide_ne_refl; done.
Qed.

(** A render on a new user document, for an initialised editor with no
    local change on its way: the texts follow the props when these
    changed, the list stays. *)
Lemma render_doc (sys : Sys) (tp : bool) :
  isInitialized (editor sys) = true →
  isLocalChange (editor sys) = false →
  let ed := editor sys in
  let st := if tp then set_afterText (promptAfter (props ed))
                         (set_beforeText (promptBefore (props ed)) ed)
            else ed in
  let next := propsNow (app sys) (props ed) in
  render (mkDeps false false false tp true) sys =
  (mkDeps false (bool_decide (beforeText st ≠ beforeText ed))
     (bool_decide (afterText st ≠ afterText ed))
     (textDiffers next (props ed)) false,
   mk (app sys) (set_props next st) (inflight sys)).
Proof.
  destruct sys as [app [p it b a hc dg dov lt ir br ar lc ini] infl].
  simpl. intros -> ->.
  unfold render, runEffects, keepRefs, syncTextFromProps, initItemsFromProps.
  destruct tp; simpl; done.
Qed.

End RenderFacts.

Section SettleFacts.

Import PromptEditor Page.

Lemma settle_none (fuel : nat) (deps : Deps) (sys : Sys) :
  anyDep deps = false → settle fuel deps sys = sys.
Proof. intros H. destruct fuel; simpl; [done|]. by rewrite H. Qed.

Lemma settle_some (fuel : nat) (deps : Deps) (sys : Sys) :
  anyDep deps = true →
  settle (S fuel) deps sys =
  settle fuel (fst (render deps sys)) (snd (render deps sys)).
Proof. intros H. simpl. rewrite H. simpl. by destruct (render deps sys). Qed.

Lemma isLocalChange_set (p : Props) (b : bool) (st : State) :
  isLocalChange (set_props p (set_isLocalChange b st)) = b.
Proof. by destruct st. Qed.

Lemma set_props_flag (p : Props) (st : State) :
  set_props p (set_isLocalChange false (set_props p (set_isLocalChange true st)))
  = set_props p (set_isLocalChange false st).
Proof. by destruct st. Qed.

(** After a local change the page is at rest within three renders: the
    change is passed to [App] and comes back as props, which only clears
    the local-change flag. *)
Lemma settle_local (n : nat) (sys : Sys) (di db da : bool) :
  isInitialized (editor sys) = true →
  let ed := editor sys in
  let deps := mkDeps di db da false false in
  let saved := mkProps (map toPrompt (items ed)) (beforeText ed)
                 (afterText ed) in
  let app' := App.handlePromptsChange (prompts saved) (promptBefore saved)
                (promptAfter saved) (app sys) in
  let next := propsNow app' (props ed) in
  settle (3 + n) deps sys =
  if di || db || da then
    mk app' (set_props next (set_isLocalChange false (keepRefs deps ed ed)))
      (inflight sys)
  else sys.
Proof.
  intros Hinit ed deps saved app' next.
  destruct (di || db || da) eqn:Hany.
  - change (3 + n) with (S (S (S n))).
    rewrite settle_some
      by (subst deps; unfold anyDep; simpl; by rewrite Hany).
    subst deps. rewrite (render_notify sys di db da Hinit Hany).
    fold ed saved app' next. cbn [fst snd].
    set (st1 := set_isLocalChange true _).
    rewrite settle_some by (unfold anyDep; simpl; by rewrite orb_true_r).
    rewrite render_echo by (subst st1; apply isLocalChange_set).
    cbn [app editor inflight fst snd].
    assert (props (set_props next st1) = next) as -> by (by destruct st1).
    subst next. rewrite propsNow_idem, textDiffers_refl.
    rewrite settle_none by done.
    subst st1. by rewrite set_props_flag.
  - apply settle_none. subst deps. unfold anyDep. simpl.
    by rewrite Hany.
Qed.

(** On a new user document the page is at rest within four renders: the
    texts follow the props if these changed, which is then a local change
    like any other; the list is not touched. *)
Lemma settle_doc (n : nat) (sys : Sys) (tp : bool) :
  isInitialized (editor sys) = true →
  isLocalChange (editor sys) = false →
  props (editor sys) = propsNow (app sys) (props (editor sys)) →
  let ed := editor sys in
  let st := if tp then set_afterText (promptAfter (props ed))
                         (set_beforeText (promptBefore (props ed)) ed)
            else ed in
  settle (4 + n) (mkDeps false false false tp true) sys =
  settle (3 + n)
    (mkDeps false (bool_decide (beforeText st ≠ beforeText ed))
       (bool_decide (afterText st ≠ afterText ed)) false false)
    (mk (app sys) st (inflight sys)).
Proof.
  intros Hinit Hflag Hprops ed st.
  change (4 + n) with (S (3 + n)).
  rewrite settle_some by (unfold anyDep; simpl; by rewrite orb_true_r).
  rewrite (render_doc sys tp Hinit Hflag).
  cbn [fst snd]. rewrite <- Hprops. fold ed. fold st.
  rewrite textDiffers_refl.
  assert (set_props (props ed) st = st) as ->; [|done].
  subst st. destruct tp; by destruct ed.
Qed.

End SettleFacts.


Section MountFacts.

Import PromptEditor Page.

Lemma propsNow_changed (app : App.State) (doc : UserDocument.t)
    (ps : list Prompt.t) (b a : JS.str) (old : Props) :
  App.userDoc app = Some doc →
  propsNow (App.handlePromptsChange ps b a app) old = mkProps ps b a.
Proof.
  intros H. unfold propsNow, App.handlePromptsChange, App.withPrompts; simpl.
  by rewrite H.
Qed.

Lemma userDoc_changed (app : App.State) (doc : UserDocument.t)
    (ps : list Prompt.t) (b a : JS.str) :
  App.userDoc app = Some doc →
  ∃ doc', App.userDoc (App.handlePromptsChange ps b a app) = Some doc'.
Proof.
  intros H. unfold App.handlePromptsChange, App.withPrompts; simpl.
  rewrite H. by eexists.
Qed.

(** The page right after the editor is mounted on a user document: the
    list is the one of the document, nothing is dirty, and [App] has been
    told the list twice, first empty, then as it is. *)
Lemma mountWith_result (n : nat) (now : Z) (app : App.State)
    (doc : UserDocument.t) :
  App.userDoc app = Some doc →
  let p := propsOf doc in
  let list := map toItem (prompts p) in
  let shown := mkProps (map toPrompt list) (promptBefore p) (promptAfter p) in
  mountWith (3 + n) now app =
  Some (mk (App.handlePromptsChange (prompts shown) (promptBefore shown)
              (promptAfter shown)
              (App.handlePromptsChange [] (promptBefore p) (promptAfter p) app))
          {| props := shown;
             items := list;
             beforeText := promptBefore p;
             afterText := promptAfter p;
             hasChanges := false;
             draggedIndex := None;
             dragOverIndex := None;
             lastInputTime := now;
             itemsRef := list;
             beforeTextRef := promptBefore p;
             afterTextRef := promptAfter p;
             isLocalChange := false;
             isInitialized := true |}
          []).
Proof.
  intros Hdoc p list shown. unfold mountWith. rewrite Hdoc.
  cbn [mbind option_bind]. f_equal. fold p.
  change (3 + n) with (S (S (S n))).
  rewrite settle_some by done.
  set (app1 := App.handlePromptsChange [] (promptBefore p) (promptAfter p) app).
  destruct (userDoc_changed app doc [] (promptBefore p) (promptAfter p) Hdoc)
    as [doc1 Hdoc1]. fold app1 in Hdoc1.
  assert (render allDeps (mk app (initial p now) []) =
          (mkDeps true false false false true,
           mk app1
             {| props := mkProps [] (promptBefore p) (promptAfter p);
                items := list;
                beforeText := promptBefore p;
                afterText := promptAfter p;
                hasChanges := false;
                draggedIndex := None;
                dragOverIndex := None;
                lastInputTime := now;
                itemsRef := [];
                beforeTextRef := promptBefore p;
                afterTextRef := promptAfter p;
                isLocalChange := true;
                isInitialized := true |} [])) as ->.
  { unfold render, runEffects, keepRefs, syncTextFromProps,
      initItemsFromProps, notifyParent.
    cbn -[App.handlePromptsChange propsNow textDiffers].
    fold app1. subst app1.
    rewrite (propsNow_changed app doc _ _ _ _ Hdoc).
    rewrite !bool_decide_ne_refl. unfold textDiffers.
    cbn [promptBefore promptAfter]. by rewrite !bool_decide_ne_refl. }
  cbn [fst snd].
  rewrite settle_some by done.
  set (app2 := App.handlePromptsChange (prompts shown) (promptBefore shown)
                 (promptAfter shown) app1).
  match goal with
  | |- context [render ?d ?s] =>
      assert (render d s =
        (mkDeps false false false false true,
         mk app2
           {| props := shown;
              items := list;
              beforeText := promptBefore p;
              afterText := promptAfter p;
              hasChanges := false;
              draggedIndex := None;
              dragOverIndex := None;
              lastInputTime := now;
              itemsRef := list;
              beforeTextRef := promptBefore p;
              afterTextRef := promptAfter p;
              isLocalChange := true;
              isInitialized := true |} [])) as ->
  end.
  { unfold render, runEffects, keepRefs, syncTextFromProps,
      initItemsFromProps, notifyParent.
    cbn -[App.handlePromptsChange propsNow textDiffers].
    fold shown. change (App.handlePromptsChange (map toPrompt list)
                          (promptBefore p) (promptAfter p) app1) with app2.
    subst app2.
    rewrite (propsNow_changed app1 doc1 _ _ _ _ Hdoc1).
    rewrite !bool_decide_ne_refl. unfold textDiffers.
    cbn [promptBefore promptAfter shown]. by rewrite !bool_decide_ne_refl. }
  cbn [fst snd].
  rewrite settle_some by done.
  rewrite render_echo by done.
  cbn [fst snd Page.app editor inflight props].
  assert (propsNow app2 shown = shown) as ->
    by (subst app2; apply (propsNow_changed app1 doc1 _ _ _ _ Hdoc1)).
  rewrite textDiffers_refl. by rewrite settle_none.
Qed.

End MountFacts.

Section StepFacts.

Import PromptEditor Page.

(** ** After a handler *)

Lemma afterEdit_result (n : nat) (sys : Sys) (st : State) (rebuilt : bool) :
  isInitialized st = true →
  let db := bool_decide (beforeText st ≠ beforeText (editor sys)) in
  let da := bool_decide (afterText st ≠ afterText (editor sys)) in
  let deps := mkDeps rebuilt db da false false in
  let app' := App.handlePromptsChange (map toPrompt (items st))
                (beforeText st) (afterText st) (app sys) in
  afterEdit (3 + n) sys st rebuilt =
  if rebuilt || db || da then
    mk app'
      (set_props (propsNow app' (props st))
         (set_isLocalChange false (keepRefs deps st st)))
      (inflight sys)
  else mk (app sys) st (inflight sys).
Proof.
  intros Hinit db da deps app'. unfold afterEdit.
  exact (settle_local n (mk (app sys) st (inflight sys)) rebuilt db da Hinit).
Qed.

(** A handler and the renders that follow leave the page at rest, with
    the cells the handler wrote. *)
Lemma afterEdit_rest (n : nat) (sys : Sys) (st : State) (rebuilt : bool) :
  atRest sys → handled rebuilt (editor sys) st →
  let sys' := afterEdit (3 + n) sys st rebuilt in
  atRest sys' ∧
  items (editor sys') = items st ∧
  beforeText (editor sys') = beforeText st ∧
  afterText (editor sys') = afterText st ∧
  hasChanges (editor sys') = hasChanges st ∧
  lastInputTime (editor sys') = lastInputTime st ∧
  inflight sys' = inflight sys.
Proof.
  intros (Hinit & Hflag & Hir & Hbr & Har & Hprops)
         (Hi & Hf & Hir' & Hbr' & Har' & Hp' & Hitems) sys'.
  subst sys'. rewrite afterEdit_result by congruence.
  destruct sys as [app ed infl]. simpl in *.
  destruct st as [p it b a hc dg dov lt ir br ar lc ini]. simpl in *.
  subst ini lc ir br ar p.
  destruct (bool_decide (b ≠ beforeText ed)) eqn:Eb;
    [|apply bool_decide_eq_false, dec_stable in Eb];
    (destruct (bool_decide (a ≠ afterText ed)) eqn:Ea;
     [|apply bool_decide_eq_false, dec_stable in Ea]);
    (destruct rebuilt; [|specialize (Hitems eq_refl)]);
    unfold atRest, keepRefs; simpl; rewrite ?propsNow_idem;
    repeat split; congruence.
Qed.

(** ** After a new user document *)

(** Taking a new user document is, after the first render, the same as a
    handler that wrote the two texts. *)
Lemma afterDoc_as_edit (n : nat) (sys : Sys) (app' : App.State) :
  atRest sys →
  let next := propsNow app' (props (editor sys)) in
  let r := set_props next (editor sys) in
  let st := if textDiffers next (props (editor sys))
            then set_afterText (promptAfter next)
                   (set_beforeText (promptBefore next) r)
            else r in
  afterDoc (4 + n) sys app' =
  afterEdit (3 + n) (mk app' r (inflight sys)) st false.
Proof.
  intros (Hinit & Hflag & _) next r st. unfold afterDoc. fold next r.
  rewrite settle_doc; cbn [editor Page.app inflight].
  - assert (props r = next) as -> by (subst r; by destruct (editor sys)).
    done.
  - subst r. by destruct (editor sys).
  - subst r. by destruct (editor sys).
  - assert (props r = next) as -> by (subst r; by destruct (editor sys)).
    subst next. by rewrite propsNow_idem.
Qed.

Lemma afterDoc_rest (n : nat) (sys : Sys) (app' : App.State) :
  atRest sys →
  let next := propsNow app' (props (editor sys)) in
  let tp := textDiffers next (props (editor sys)) in
  let sys' := afterDoc (4 + n) sys app' in
  atRest sys' ∧
  items (editor sys') = items (editor sys) ∧
  beforeText (editor sys') =
    (if tp then promptBefore next else beforeText (editor sys)) ∧
  afterText (editor sys') =
    (if tp then promptAfter next else afterText (editor sys)) ∧
  hasChanges (editor sys') = hasChanges (editor sys) ∧
  lastInputTime (editor sys') = lastInputTime (editor sys) ∧
  inflight sys' = inflight sys.
Proof.
  intros Hrest next tp sys'. subst sys'.
  rewrite (afterDoc_as_edit n sys app' Hrest). fold next. fold tp.
  destruct Hrest as (Hinit & Hflag & Hir & Hbr & Har & Hprops).
  set (r := set_props next (editor sys)).
  set (st := if tp then _ else r).
  assert (atRest (mk app' r (inflight sys))) as Hrest'.
  { subst r next. unfold atRest. cbn [editor Page.app].
    destruct (editor sys); simpl in *. by rewrite propsNow_idem. }
  assert (handled false r st) as Hh.
  { subst st r. destruct tp; by destruct (editor sys). }
  destruct (afterEdit_rest n _ st false Hrest' Hh)
    as (H1 & H2 & H3 & H4 & H5 & H6 & H7).
  cbv zeta in *. rewrite H2, H3, H4, H5, H6, H7.
  split; [done|]. subst st r.
  destruct tp; by destruct (editor sys).
Qed.

(** The same at the number of renders the page allows. *)
Lemma afterEdit_renders (sys : Sys) (st : State) (rebuilt : bool) :
  atRest sys → handled rebuilt (editor sys) st →
  let sys' := afterEdit renders sys st rebuilt in
  atRest sys' ∧
  items (editor sys') = items st ∧
  beforeText (editor sys') = beforeText st ∧
  afterText (editor sys') = afterText st ∧
  hasChanges (editor sys') = hasChanges st ∧
  lastInputTime (editor sys') = lastInputTime st ∧
  inflight sys' = inflight sys.
Proof. exact (afterEdit_rest 1 sys st rebuilt). Qed.

Lemma afterDoc_renders (sys : Sys) (app' : App.State) :
  atRest sys →
  let next := propsNow app' (props (editor sys)) in
  let tp := textDiffers next (props (editor sys)) in
  let sys' := afterDoc renders sys app' in
  atRest sys' ∧
  items (editor sys') = items (editor sys) ∧
  beforeText (editor sys') =
    (if tp then promptBefore next else beforeText (editor sys)) ∧
  afterText (editor sys') =
    (if tp then promptAfter next else afterText (editor sys)) ∧
  hasChanges (editor sys') = hasChanges (editor sys) ∧
  lastInputTime (editor sys') = lastInputTime (editor sys) ∧
  inflight sys' = inflight sys.
Proof. exact (afterDoc_rest 0 sys app'). Qed.

(** ** One event *)

Lemma handled_list (ed : State) (next : list PromptItem.t) (now : Z) :
  let st := set_items next (recordInput now ed) in
  handled true ed st ∧ hasChanges st = true ∧ lastInputTime st = now.
Proof. by destruct ed. Qed.

Lemma handled_text (ed : State) (now : Z) (text : JS.str) :
  (let st := handleBeforeTextChange text now ed in
   handled false ed st ∧ hasChanges st = true ∧ lastInputTime st = now) ∧
  (let st := handleAfterTextChange text now ed in
   handled false ed st ∧ hasChanges st = true ∧ lastInputTime st = now).
Proof. by destruct ed. Qed.

Lemma handled_drag (ed : State) (index : nat) :
  handled false ed (handleDragStart index ed) ∧
  handled false ed (handleDragEnd ed).
Proof. by destruct ed. Qed.

(** Every event takes a page at rest to a page at rest.  An event that
    records an input leaves the editor dirty with the time of that input;
    any other event leaves the time of the last input alone. *)
Lemma step_summary (email : option JS.str) (ev : Event) (sys sys' : Sys) :
  atRest sys → step email ev sys = Some sys' →
  atRest sys' ∧
  match editTime ev sys with
  | Some t => hasChanges (editor sys') = true ∧ lastInputTime (editor sys') = t
  | None => lastInputTime (editor sys') = lastInputTime (editor sys)
  end.
Proof.
  intros Hrest Hstep. unfold step in Hstep.
  pose proof Hrest as (Hinit & Hflag & Hir & Hbr & Har & Hprops).
  destruct ev; cbn [stepWith editTime] in *.
  - unfold handleNameChange in Hstep.
    destruct (editRow _ _ _) as [next|]; [|done].
    cbn [mbind option_bind] in Hstep. injection Hstep as <-.
    destruct (handled_list (editor sys) next now) as (Hh & Hc & Ht).
    by destruct (afterEdit_renders sys _ true Hrest Hh)
      as (? & ? & ? & ? & -> & -> & ?).
  - unfold handlePromptChange in Hstep.
    destruct (editRow _ _ _) as [next|]; [|done].
    cbn [mbind option_bind] in Hstep. injection Hstep as <-.
    destruct (handled_list (editor sys) next now) as (Hh & Hc & Ht).
    by destruct (afterEdit_renders sys _ true Hrest Hh)
      as (? & ? & ? & ? & -> & -> & ?).
  - injection Hstep as <-.
    destruct (handled_text (editor sys) now text) as [(Hh & Hc & Ht) _].
    by destruct (afterEdit_renders sys _ false Hrest Hh)
      as (? & ? & ? & ? & -> & -> & ?).
  - injection Hstep as <-.
    destruct (handled_text (editor sys) now text) as [_ (Hh & Hc & Ht)].
    by destruct (afterEdit_renders sys _ false Hrest Hh)
      as (? & ? & ? & ? & -> & -> & ?).
  - unfold handleSelectionChange in Hstep.
    destruct (editRow _ _ _) as [next|]; [|done].
    cbn [mbind option_bind] in Hstep. injection Hstep as <-.
    destruct (handled_list (editor sys) next now) as (Hh & Hc & Ht).
    by destruct (afterEdit_renders sys _ true Hrest Hh)
      as (? & ? & ? & ? & -> & -> & ?).
  - unfold handleSkipBeforeAfterChange in Hstep.
    destruct (editRow _ _ _) as [next|]; [|done].
    cbn [mbind option_bind] in Hstep. injection Hstep as <-.
    destruct (handled_list (editor sys) next now) as (Hh & Hc & Ht).
    by destruct (afterEdit_renders sys _ true Hrest Hh)
      as (? & ? & ? & ? & -> & -> & ?).
  - injection Hstep as <-. unfold handleAddPrompt.
    destruct (handled_list (editor sys)
                (items (recordInput now (editor sys))
                 ++ [PromptItem.mk [] [] false false]) now) as (Hh & Hc & Ht).
    by destruct (afterEdit_renders sys _ true Hrest Hh)
      as (? & ? & ? & ? & -> & -> & ?).
  - injection Hstep as <-. unfold handleDeletePrompt.
    destruct (handled_list (editor sys)
                (delete index (items (recordInput now (editor sys)))) now)
      as (Hh & Hc & Ht).
    by destruct (afterEdit_renders sys _ true Hrest Hh)
      as (? & ? & ? & ? & -> & -> & ?).
  - injection Hstep as <-. split; [|by destruct (editor sys)].
    unfold atRest; cbn [editor Page.app]. by destruct (editor sys).
  - injection Hstep as <-. split; [|by destruct (editor sys)].
    unfold atRest; cbn [editor Page.app]. by destruct (editor sys).
  - unfold handleDrop in Hstep.
    destruct (draggedIndex (editor sys)) as [dragged|] eqn:Hd.
    + destruct (decide (dragged = index)) as [->|Hne].
      * cbn [mbind option_bind] in Hstep. injection Hstep as <-.
        destruct (afterEdit_renders sys (handleDragEnd (editor sys)) false Hrest
                    (proj2 (handled_drag (editor sys) 0)))
          as (? & ? & ? & ? & ? & -> & ?).
        split; [done|]. by destruct (editor sys).
      * destruct (items (recordInput now (editor sys)) !! dragged)
          as [draggedItem|]; [|done].
        cbn [mbind option_bind] in Hstep. injection Hstep as <-.
        set (l := spliceIn _ _ _).
        assert (handled true (editor sys)
                  (handleDragEnd (set_items l (recordInput now (editor sys)))))
          as Hh' by (by destruct (editor sys)).
        destruct (afterEdit_renders sys _ true Hrest Hh')
          as (? & ? & ? & ? & -> & -> & ?).
        split; [done|]. by destruct (editor sys).
    + cbn [mbind option_bind] in Hstep. injection Hstep as <-.
      destruct (afterEdit_renders sys (handleDragEnd (editor sys)) false Hrest
                  (proj2 (handled_drag (editor sys) 0)))
        as (? & ? & ? & ? & ? & -> & ?).
      split; [done|]. by destruct (editor sys).
  - unfold autoSaveTick, triggerSave in Hstep.
    destruct (decide (length (itemsRef (editor sys)) = 0));
      [|destruct (hasChanges (editor sys));
        [destruct (decide (5000 ≤ now - lastInputTime (editor sys))%Z)|]];
      cbn [negb] in Hstep; injection Hstep as <-;
      (split; [|by destruct (editor sys)]);
      unfold atRest; cbn [editor Page.app]; try done.
    destruct email; by destruct (editor sys).
  - destruct (inflight sys) as [|saved rest]; [done|].
    injection Hstep as <-.
    set (app' := App.handleSavePrompts_resolved _ _ _ _).
    by destruct (afterDoc_renders (mk (app sys) (editor sys) rest) app' Hrest)
      as (? & ? & ? & ? & ? & ? & ?).
  - destruct (inflight sys) as [|saved rest]; [done|].
    injection Hstep as <-. split; [|done]. by unfold atRest.
  - injection Hstep as <-.
    set (app' := App.fetchUserDoc_resolved _ _).
    by destruct (afterDoc_renders sys app' Hrest)
      as (? & ? & ? & ? & ? & ? & ?).
Qed.

End StepFacts.

Section ReachFacts.

Import PromptEditor Page.

(** The mounted page is at rest, shows the list of the user document and
    is not dirty. *)
Lemma mount_rest (now : Z) (app : App.State) (sys : Sys) :
  mount now app = Some sys →
  atRest sys ∧
  (∃ doc, App.userDoc app = Some doc ∧
          items (editor sys) = map toItem (UserDocument.prompts doc)) ∧
  hasChanges (editor sys) = false ∧
  lastInputTime (editor sys) = now ∧
  inflight sys = [].
Proof.
  unfold mount, renders. intros H.
  destruct (App.userDoc app) as [doc|] eqn:Hdoc;
    [|by unfold mountWith in H; rewrite Hdoc in H].
  change 4 with (3 + 1) in H.
  rewrite (mountWith_result 1 now app doc Hdoc) in H.
  injection H as <-. cbn [editor Page.app inflight].
  split; [|split; [by exists doc|done]].
  unfold atRest. cbn [editor Page.app].
  repeat split; try done. cbn [props].
  destruct (userDoc_changed app doc [] (promptBefore (propsOf doc))
              (promptAfter (propsOf doc)) Hdoc) as [doc1 Hdoc1].
  by rewrite (propsNow_changed _ doc1 _ _ _ _ Hdoc1).
Qed.

Lemma run_rest (email : option JS.str) (evs : list Event) :
  ∀ sys sys', atRest sys → run email evs sys = Some sys' → atRest sys'.
Proof.
  induction evs as [|ev evs IH]; intros sys sys' Hrest Hrun; simpl in Hrun.
  - by injection Hrun as <-.
  - destruct (step email ev sys) as [sys1|] eqn:Hstep; [|done].
    cbn [mbind option_bind] in Hrun.
    apply (IH sys1 sys'); [|done].
    by apply (step_summary email ev sys sys1).
Qed.

(** Every state the page can be in is a state at rest. *)
Lemma reachable_rest (email : option JS.str) (sys : Sys) :
  reachable email sys → atRest sys.
Proof.
  intros (now & app & sys0 & evs & Hmount & Hrun).
  apply (run_rest email evs sys0 sys); [|done].
  by apply mount_rest in Hmount as [? _].
Qed.

Lemma reachable_step (email : option JS.str) (ev : Event) (sys sys' : Sys) :
  reachable email sys → step email ev sys = Some sys' → reachable email sys'.
Proof.
  intros (now & app & sys0 & evs & Hmount & Hrun) Hstep.
  exists now, app, sys0, (evs ++ [ev]). split; [done|].
  clear Hmount. revert sys0 Hrun.
  induction evs as [|e evs IH]; intros sys0 Hrun; simpl in *.
  - injection Hrun as ->. by rewrite Hstep.
  - destruct (step email e sys0) as [sys1|]; [|done].
    cbn [mbind option_bind] in *. by apply IH.
Qed.

(** ** More renders change nothing *)

Lemma afterEdit_fuel (n : nat) (sys : Sys) (st : State) (rebuilt : bool) :
  isInitialized st = true →
  afterEdit (renders + n) sys st rebuilt = afterEdit renders sys st rebuilt.
Proof.
  intros Hinit. unfold renders.
  change (4 + n) with (3 + (1 + n)). change 4 with (3 + 1).
  by rewrite !afterEdit_result.
Qed.

Lemma afterDoc_fuel (n : nat) (sys : Sys) (app' : App.State) :
  atRest sys →
  afterDoc (renders + n) sys app' = afterDoc renders sys app'.
Proof.
  intros Hrest. unfold renders. change 4 with (4 + 0) at 2.
  rewrite !afterDoc_as_edit by done.
  pose proof Hrest as (Hinit & _).
  rewrite !afterEdit_result
    by (destruct (textDiffers _ _); by destruct (editor sys)).
  done.
Qed.

Lemma mount_settles (n : nat) (now : Z) (app : App.State) :
  mountWith (renders + n) now app = mount now app.
Proof.
  unfold mount, renders.
  destruct (App.userDoc app) as [doc|] eqn:Hdoc.
  - change (4 + n) with (3 + (1 + n)). change 4 with (3 + 1).
    by rewrite !(mountWith_result _ now app doc Hdoc).
  - unfold mountWith. by rewrite Hdoc.
Qed.

Lemma step_settles (n : nat) (email : option JS.str) (ev : Event)
    (sys : Sys) :
  atRest sys → stepWith (renders + n) email ev sys = step email ev sys.
Proof.
  intros Hrest. pose proof Hrest as (Hinit & _).
  unfold step. destruct ev; cbn [stepWith]; try done.
  - unfold handleNameChange. destruct (editRow _ _ _); [|done].
    cbn [mbind option_bind]. f_equal. apply afterEdit_fuel.
    by destruct (editor sys).
  - unfold handlePromptChange. destruct (editRow _ _ _); [|done].
    cbn [mbind option_bind]. f_equal. apply afterEdit_fuel.
    by destruct (editor sys).
  - f_equal. apply afterEdit_fuel. by destruct (editor sys).
  - f_equal. apply afterEdit_fuel. by destruct (editor sys).
  - unfold handleSelectionChange. destruct (editRow _ _ _); [|done].
    cbn [mbind option_bind]. f_equal. apply afterEdit_fuel.
    by destruct (editor sys).
  - unfold handleSkipBeforeAfterChange. destruct (editRow _ _ _); [|done].
    cbn [mbind option_bind]. f_equal. apply afterEdit_fuel.
    by destruct (editor sys).
  - f_equal. apply afterEdit_fuel. by destruct (editor sys).
  - f_equal. apply afterEdit_fuel. by destruct (editor sys).
  - unfold handleDrop. destruct (draggedIndex (editor sys)) as [dragged|].
    + destruct (decide (dragged = index)).
      * cbn [mbind option_bind]. f_equal. apply afterEdit_fuel.
        by destruct (editor sys).
      * destruct (items _ !! dragged); [|done].
        cbn [mbind option_bind]. f_equal. apply afterEdit_fuel.
        by destruct (editor sys).
    + cbn [mbind option_bind]. f_equal. apply afterEdit_fuel.
      by destruct (editor sys).
  - destruct (inflight sys); [done|]. f_equal. by apply afterDoc_fuel.
  - f_equal. by apply afterDoc_fuel.
Qed.

End ReachFacts.

(* ===================================================================== *)
(** * The quiet-period flush (C7) *)
(* ===================================================================== *)

(** When the interval fires on a page at rest. *)
Lemma flushes_iff (now : Z) (sys : Page.Sys) :
  Page.atRest sys →
  Page.flushes now sys = true ↔
  PromptEditor.items (Page.editor sys) ≠ [] ∧
  PromptEditor.hasChanges (Page.editor sys) = true ∧
  (5000 ≤ now - PromptEditor.lastInputTime (Page.editor sys))%Z.
Proof.
  intros (_ & _ & Hir & _). unfold Page.flushes, PromptEditor.autoSaveTick.
  rewrite Hir.
  destruct (PromptEditor.items (Page.editor sys)) as [|item l]; simpl.
  - split; [done|]. by intros [? _].
  - destruct (PromptEditor.hasChanges (Page.editor sys)); simpl;
      [destruct (decide (5000 ≤ now - _)%Z); simpl|];
      (split; [done|]); try done; by intros (? & ? & ?).
Qed.

(** C7, as amended.  For every sequence of edits, ticks and other events
    after the editor is mounted: the interval callback at time [now]
    flushes if and only if the list holds at least one item, the dirty
    flag is set and at least 5000 ms have passed since the last input.
    Every event that records an input at time [t] sets the dirty flag and
    restarts the wait, so no flush happens before [t + 5000]; no other
    event moves the time of the last input. *)
Theorem quiet_period_flush (email : option JS.str) (sys : Page.Sys)
    (now : Z) :
  Page.reachable email sys →
  (Page.flushes now sys = true ↔
     PromptEditor.items (Page.editor sys) ≠ [] ∧
     PromptEditor.hasChanges (Page.editor sys) = true ∧
     (5000 ≤ now - PromptEditor.lastInputTime (Page.editor sys))%Z) ∧
  (∀ ev t sys',
     Page.step email ev sys = Some sys' → Page.editTime ev sys = Some t →
     PromptEditor.hasChanges (Page.editor sys') = true ∧
     PromptEditor.lastInputTime (Page.editor sys') = t ∧
     ∀ later, (later < t + 5000)%Z → Page.flushes later sys' = false) ∧
  (∀ ev sys',
     Page.step email ev sys = Some sys' → Page.editTime ev sys = None →
     PromptEditor.lastInputTime (Page.editor sys')
     = PromptEditor.lastInputTime (Page.editor sys)).
Proof.
  intros Hreach. pose proof (reachable_rest email sys Hreach) as Hrest.
  split; [by apply flushes_iff|]. split.
  - intros ev t sys' Hstep Ht.
    destruct (step_summary email ev sys sys' Hrest Hstep) as [Hrest' Hsum].
    rewrite Ht in Hsum. destruct Hsum as [Hc Hl].
    split; [done|]. split; [done|]. intros later Hlater.
    destruct (Page.flushes later sys') eqn:E; [|done].
    apply (flushes_iff later sys' Hrest') in E as (_ & _ & E). lia.
  - intros ev sys' Hstep Ht.
    destruct (step_summary email ev sys sys' Hrest Hstep) as [_ Hsum].
    by rewrite Ht in Hsum.
Qed.

(** Scenario D of the specification on the amended C7: edits at t = 0 and
    t = 3 s; the tick at t = 5 s does not flush, the tick at t = 8 s
    does. *)
Lemma quiet_period_scenario_D :
  Page.reachable Scenario.email
    (Scenario.after Scenario.wideClose Scenario.twoEdits) ∧
  Page.flushes 5000 (Scenario.after Scenario.wideClose Scenario.twoEdits)
  = false ∧
  Page.flushes 8000 (Scenario.after Scenario.wideClose Scenario.twoEdits)
  = true.
Proof.
  assert (Page.reachable Scenario.email
            (Scenario.after Scenario.wideClose Scenario.twoEdits)) as Hreach.
  { exists 0%Z, (Scenario.page Scenario.wideClose),
      (Scenario.after Scenario.wideClose []), Scenario.twoEdits.
    split; vm_compute; reflexivity. }
  split; [exact Hreach|]. split.
  - destruct (Page.flushes 5000 _) eqn:E; [|reflexivity].
    apply (proj1 (quiet_period_flush Scenario.email _ 5000%Z Hreach))
      in E as (_ & _ & E).
    vm_compute in E. by destruct E.
  - apply (proj1 (quiet_period_flush Scenario.email _ 8000%Z Hreach)).
    split; [vm_compute; discriminate|].
    split; [vm_compute; reflexivity|].
    vm_compute. discriminate.
Defined.

(** C7 as the specification states it fails on the code: with no prompt
    in the list, an edit of the before-text sets the dirty flag, five
    seconds pass, and the tick does not flush. *)
Lemma no_flush_for_an_empty_list :
  Page.mount 0 (Scenario.page Scenario.noPrompts)
    ≫= Page.run Scenario.email Scenario.textEdit
  = Some (Scenario.after Scenario.noPrompts Scenario.textEdit) ∧
  PromptEditor.hasChanges
    (Page.editor (Scenario.after Scenario.noPrompts Scenario.textEdit))
  = true ∧
  (5000 ≤ 5000 - PromptEditor.lastInputTime
                   (Page.editor
                      (Scenario.after Scenario.noPrompts Scenario.textEdit)))%Z ∧
  Page.flushes 5000 (Scenario.after Scenario.noPrompts Scenario.textEdit)
  = false.
Proof.
  split; [vm_compute; reflexivity|].
  split; [vm_compute; reflexivity|].
  split; [vm_compute; discriminate|].
  vm_compute; reflexivity.
Qed.

(* ===================================================================== *)
(** * A flush whose write fails (C8) *)
(* ===================================================================== *)

(** C8, as amended.  A tick that flushes clears the dirty flag at once,
    before the outcome of the write is known, so that no later tick
    flushes until another input; when the write fails, the failure is
    caught: one error entry is logged, the saving indicator is reset, the
    editor, the user document and hence the tick loop are left as they
    are, and the dirty flag is not set again. *)
Theorem failed_flush_is_logged_not_retried (email : option JS.str)
    (sys : Page.Sys) :
  (∀ now sys',
     Page.step email (Page.Tick now) sys = Some sys' →
     Page.flushes now sys = true →
     PromptEditor.hasChanges (Page.editor sys') = false ∧
     ∀ later, Page.flushes later sys' = false) ∧
  (∀ sys',
     Page.step email Page.SaveRejected sys = Some sys' →
     Page.editor sys' = Page.editor sys ∧
     App.logs (Page.app sys') =
       App.logs (Page.app sys) ++ [Log.mk Log.PromptsSaveFailed Log.error] ∧
     App.isSavingUserDoc (Page.app sys') = false ∧
     App.userDoc (Page.app sys') = App.userDoc (Page.app sys) ∧
     ∀ later, Page.flushes later sys' = Page.flushes later sys).
Proof.
  split.
  - intros now sys' Hstep Hflush. unfold Page.step in Hstep.
    cbn [Page.stepWith] in Hstep. unfold Page.flushes in *.
    unfold PromptEditor.autoSaveTick, PromptEditor.triggerSave in *.
    destruct (decide (length (PromptEditor.itemsRef (Page.editor sys)) = 0))
      as [|Hlen]; [done|].
    destruct (PromptEditor.hasChanges (Page.editor sys)); [|done].
    cbn [negb] in *.
    destruct (decide (5000 ≤ now - _)%Z); [|done].
    injection Hstep as <-. cbn [Page.editor].
    split; [by destruct (Page.editor sys)|].
    intros later.
    assert (PromptEditor.itemsRef
              (PromptEditor.set_hasChanges false (Page.editor sys))
            = PromptEditor.itemsRef (Page.editor sys)) as ->
      by (by destruct (Page.editor sys)).
    rewrite decide_False by done.
    by destruct (Page.editor sys).
  - intros sys' Hstep. unfold Page.step in Hstep.
    cbn [Page.stepWith] in Hstep.
    destruct (Page.inflight sys); [done|]. by injection Hstep as <-.
Qed.

(** The amended C8 on a run: an edit, the flush five seconds later, the
    write failing. *)
Lemma failed_flush_scenario :
  Page.flushes 5000
    (Scenario.after Scenario.wideClose [Page.NameChange 0 (JS.lit "wider") 0])
  = true ∧
  PromptEditor.hasChanges
    (Page.editor
       (Scenario.after Scenario.wideClose
          [Page.NameChange 0 (JS.lit "wider") 0; Page.Tick 5000]))
  = false ∧
  App.logs (Page.app (Scenario.after Scenario.wideClose Scenario.failedFlush))
  = [Log.mk Log.PromptsSaveFailed Log.error].
Proof.
  split; [vm_compute; reflexivity|]. split.
  - refine (proj1 (proj1 (failed_flush_is_logged_not_retried Scenario.email
                            (Scenario.after Scenario.wideClose
                               [Page.NameChange 0 (JS.lit "wider") 0]))
                     5000%Z _ _ _)).
    + vm_compute; reflexivity.
    + vm_compute; reflexivity.
  - pose proof (proj2 (failed_flush_is_logged_not_retried Scenario.email
                         (Scenario.after Scenario.wideClose
                            [Page.NameChange 0 (JS.lit "wider") 0;
                             Page.Tick 5000]))
                  (Scenario.after Scenario.wideClose Scenario.failedFlush))
      as H.
    destruct H as (_ & H & _); [vm_compute; reflexivity|].
    rewrite H. vm_compute. reflexivity.
Defined.

(** C8 as the specification states it fails on the code: after the write
    of a flush has failed, the dirty flag is clear and the next tick does
    not retry, although the edit was never stored. *)
Lemma failed_flush_is_not_retried :
  Page.mount 0 (Scenario.page Scenario.wideClose)
    ≫= Page.run Scenario.email Scenario.failedFlush
  = Some (Scenario.after Scenario.wideClose Scenario.failedFlush) ∧
  PromptEditor.hasChanges
    (Page.editor (Scenario.after Scenario.wideClose Scenario.failedFlush))
  = false ∧
  Page.flushes 6000 (Scenario.after Scenario.wideClose Scenario.failedFlush)
  = false ∧
  Page.flushes 60000 (Scenario.after Scenario.wideClose Scenario.failedFlush)
  = false.
Proof.
  split; [vm_compute; reflexivity|].
  split; [vm_compute; reflexivity|].
  split; vm_compute; reflexivity.
Qed.

(* ===================================================================== *)
(** * Inbound updates (C9) *)
(* ===================================================================== *)

(** C9, as amended.  Once the editor is mounted, no inbound update of the
    user document is applied to its item list, whether the dirty flag is
    set or not, be it a document read from the remote store or the echo of
    an own save that succeeded; the dirty flag stays as it is.  Of an
    inbound document only the before and after texts are taken over, when
    they differ from the texts of the props seen last. *)
Theorem inbound_update_keeps_the_list (email : option JS.str)
    (sys : Page.Sys) :
  Page.reachable email sys →
  (∀ doc sys',
     Page.step email (Page.Inbound doc) sys = Some sys' →
     let seen := PromptEditor.props (Page.editor sys) in
     let changed := Page.textDiffers (Page.propsOf doc) seen in
     PromptEditor.items (Page.editor sys')
     = PromptEditor.items (Page.editor sys) ∧
     PromptEditor.hasChanges (Page.editor sys')
     = PromptEditor.hasChanges (Page.editor sys) ∧
     PromptEditor.beforeText (Page.editor sys')
     = (if changed then PromptEditor.promptBefore (Page.propsOf doc)
        else PromptEditor.beforeText (Page.editor sys)) ∧
     PromptEditor.afterText (Page.editor sys')
     = (if changed then PromptEditor.promptAfter (Page.propsOf doc)
        else PromptEditor.afterText (Page.editor sys))) ∧
  (∀ sys',
     Page.step email Page.SaveResolved sys = Some sys' →
     PromptEditor.items (Page.editor sys')
     = PromptEditor.items (Page.editor sys) ∧
     PromptEditor.hasChanges (Page.editor sys')
     = PromptEditor.hasChanges (Page.editor sys)).
Proof.
  intros Hreach. pose proof (reachable_rest email sys Hreach) as Hrest.
  split.
  - intros doc sys' Hstep seen changed. unfold Page.step in Hstep.
    cbn [Page.stepWith] in Hstep. injection Hstep as <-.
    set (app' := App.fetchUserDoc_resolved _ _).
    destruct (afterDoc_renders sys app' Hrest) as (_ & Hi & Hb & Ha & Hc & _).
    cbv zeta in *. by rewrite Hi, Hb, Ha, Hc.
  - intros sys' Hstep. unfold Page.step in Hstep.
    cbn [Page.stepWith] in Hstep.
    destruct (Page.inflight sys) as [|saved rest]; [done|].
    injection Hstep as <-.
    set (app' := App.handleSavePrompts_resolved _ _ _ _).
    destruct (afterDoc_renders (Page.mk (Page.app sys) (Page.editor sys) rest)
                app' Hrest) as (_ & Hi & _ & _ & Hc & _).
    by cbv zeta in *.
Qed.

(** The amended C9 on a run: after an edit has been flushed and stored,
    a different document comes in; the list stays, the before-text is
    taken over. *)
Lemma inbound_update_scenario :
  Page.reachable Scenario.email
    (Scenario.after Scenario.wideClose Scenario.savedFlush) ∧
  PromptEditor.items
    (Page.editor
       (Scenario.after Scenario.wideClose
          (Scenario.savedFlush ++ [Page.Inbound Scenario.elsewhere])))
  = PromptEditor.items
      (Page.editor (Scenario.after Scenario.wideClose Scenario.savedFlush)) ∧
  PromptEditor.beforeText
    (Page.editor
       (Scenario.after Scenario.wideClose
          (Scenario.savedFlush ++ [Page.Inbound Scenario.elsewhere])))
  = JS.lit "Paint:".
Proof.
  assert (Page.reachable Scenario.email
            (Scenario.after Scenario.wideClose Scenario.savedFlush)) as Hreach.
  { exists 0%Z, (Scenario.page Scenario.wideClose),
      (Scenario.after Scenario.wideClose []), Scenario.savedFlush.
    split; vm_compute; reflexivity. }
  split; [exact Hreach|].
  destruct (proj1 (inbound_update_keeps_the_list Scenario.email _ Hreach)
              Scenario.elsewhere
              (Scenario.after Scenario.wideClose
                 (Scenario.savedFlush ++ [Page.Inbound Scenario.elsewhere])))
    as (Hi & _ & Hb & _); [vm_compute; reflexivity|].
  split; [exact Hi|]. rewrite Hb. vm_compute. reflexivity.
Defined.

(** C9 as the specification states it fails on the code: the flush has
    succeeded and nothing is dirty, a document with a different list comes
    in, and the editor still shows its own list, not the inbound one; its
    list and texts are what they were. *)
Lemma inbound_list_is_not_applied_after_a_flush :
  Page.mount 0 (Scenario.page Scenario.wideClose)
    ≫= Page.run Scenario.email
         (Scenario.savedFlush ++ [Page.Inbound Scenario.otherList])
  = Some (Scenario.after Scenario.wideClose
            (Scenario.savedFlush ++ [Page.Inbound Scenario.otherList])) ∧
  PromptEditor.hasChanges
    (Page.editor (Scenario.after Scenario.wideClose Scenario.savedFlush))
  = false ∧
  PromptEditor.items
    (Page.editor
       (Scenario.after Scenario.wideClose
          (Scenario.savedFlush ++ [Page.Inbound Scenario.otherList])))
  ≠ map PromptEditor.toItem (UserDocument.prompts Scenario.otherList) ∧
  PromptEditor.set_props (Page.propsOf Scenario.otherList)
    (Page.editor (Scenario.after Scenario.wideClose Scenario.savedFlush))
  = Page.editor
      (Scenario.after Scenario.wideClose
         (Scenario.savedFlush ++ [Page.Inbound Scenario.otherList])).
Proof.
  split; [vm_compute; reflexivity|].
  split; [vm_compute; reflexivity|].
  split; [vm_compute; discriminate|].
  vm_compute; reflexivity.
Qed.

(* ===================================================================== *)
(** * Further properties of the batch *)
(* ===================================================================== *)

Section RefusalFacts.

Import App Batch BatchMore.

Variable env : Env.

Lemma refusal_starts (st : State) : refusal st = None ↔ starts st = true.
Proof.
  unfold refusal, starts. destruct (userDoc st) as [doc|]; [|done].
  destruct (decide (UserDocument.prompts doc = [])) as [Hp|Hp].
  - unfold enabledPrompts. rewrite Hp. done.
  - destruct (decide (enabledPrompts doc = [])) as [He|He].
    + rewrite He. done.
    + rewrite (bool_decide_eq_true_2 _ He).
      destruct (decide (selectedFiles st = [])) as [Hf|Hf].
      * rewrite Hf. done.
      * rewrite (bool_decide_eq_true_2 _ Hf). by destruct (hasKey st).
Qed.

Lemma handleProcess_refused (st : State) (m : Log.template) :
  refusal st = Some m → handleProcess env st = log m Log.error st.
Proof.
  unfold refusal, handleProcess. destruct (userDoc st) as [doc|].
  - destruct (decide (UserDocument.prompts doc = [])) as [Hp|Hp].
    + intros [= <-]. rewrite Hp. reflexivity.
    + destruct (decide (length (UserDocument.prompts doc) = 0)) as [Hl|_];
        [by apply nil_length_inv in Hl|].
      destruct (decide (enabledPrompts doc = [])) as [He|He].
      * intros [= <-]. rewrite He. reflexivity.
      * destruct (decide (length (enabledPrompts doc) = 0)) as [Hl|_];
        [by apply nil_length_inv in Hl|].
        destruct (decide (selectedFiles st = [])) as [Hf|Hf].
        -- intros [= <-]. rewrite Hf. reflexivity.
        -- destruct (decide (length (selectedFiles st) = 0)) as [Hl|_];
        [by apply nil_length_inv in Hl|].
           destruct (hasKey st); [done|]. by intros [= <-].
  - by intros [= <-].
Qed.

End RefusalFacts.

Section LedgerInBatch.

Import App Batch BatchMore.

Variable env : Env.
Variable start : State.

Lemma processLoop_frame (n : nat) (todo : list ProcessingResult.t) :
  ∀ (i : nat) (st : State),
    userDoc (processLoop env start n i todo st) = userDoc st ∧
    selectedFiles (processLoop env start n i todo st) = selectedFiles st ∧
    isProcessing (processLoop env start n i todo st) = isProcessing st ∧
    isSavingUserDoc (processLoop env start n i todo st) = isSavingUserDoc st ∧
    selectedModel (processLoop env start n i todo st) = selectedModel st ∧
    selectedAspectRatio (processLoop env start n i todo st)
    = selectedAspectRatio st ∧
    selectedImageSize (processLoop env start n i todo st)
    = selectedImageSize st ∧
    temperature (processLoop env start n i todo st) = temperature st.
Proof.
  induction todo as [|task todo IH]; intros i st; [done|].
  cbn [processLoop].
  destruct (generateImageFromReference env i _ _ _ _ _ _) as [url usage|message].
  - destruct (IH (S i) (log (Log.Success (ProcessingResult.promptName task) usage)
            Log.success
            (updateResultStatus i Status.completed (Some url) None
               (setTokenUsage
                  (λ prev, TokenUsage.exec
                     (TokenUsage.addItem (Usage.input usage)
                        (Usage.output_text usage) (Usage.output_image usage)
                        (selectedModel start)) (TokenUsage.clone prev))
                  (log (Log.Processing (i + 1) n
                          (ProcessingResult.promptName task)) Log.info
                     (updateResultStatus i Status.processing None None st))))))
      as (-> & -> & -> & -> & -> & -> & -> & ->).
    done.
  - destruct (keyRejected message).
    + by destruct (aistudio env).
    + destruct (IH (S i) (log (Log.Failed (ProcessingResult.promptName task)
                             message) Log.error
            (updateResultStatus i Status.failed None (Some message)
               (log (Log.Processing (i + 1) n
                       (ProcessingResult.promptName task)) Log.info
                  (updateResultStatus i Status.processing None None st)))))
        as (-> & -> & -> & -> & -> & -> & -> & ->).
      done.
Qed.

Lemma processLoop_logs (n : nat) (todo : list ProcessingResult.t) :
  ∀ (i : nat) (st : State),
    ∃ more, logs (processLoop env start n i todo st) = logs st ++ more.
Proof.
  induction todo as [|task todo IH]; intros i st.
  { exists []. cbn. by rewrite app_nil_r. }
  cbn [processLoop].
  destruct (generateImageFromReference env i _ _ _ _ _ _) as [url usage|message].
  - edestruct IH as [more ->]. cbn. rewrite <- !app_assoc. by eexists.
  - destruct (keyRejected message).
    + destruct (aistudio env); cbn; rewrite <- !app_assoc; by eexists.
    + edestruct IH as [more ->]. cbn. rewrite <- !app_assoc. by eexists.
Qed.

Lemma fold_left_step {A B} (f : A → B → A) (x : B) (l : list B) (a : A) :
  fold_left f (x :: l) a = fold_left f l (f a x).
Proof. reflexivity. Qed.

Lemma tokenUsage_log (m : Log.template) (ty : Log.level) (st : State) :
  tokenUsage (log m ty st) = tokenUsage st.
Proof. reflexivity. Qed.

Lemma tokenUsage_updateResultStatus (i : nat) (status : Status.t)
    (u e : option JS.str) (st : State) :
  tokenUsage (updateResultStatus i status u e st) = tokenUsage st.
Proof. reflexivity. Qed.

Lemma tokenUsage_setTokenUsage (f : TokenUsage.t → TokenUsage.t) (st : State) :
  tokenUsage (setTokenUsage f st) = f (tokenUsage st).
Proof. reflexivity. Qed.

Lemma processLoop_tokenUsage (n : nat) (todo : list ProcessingResult.t) :
  ∀ (i : nat) (st : State),
    tokenUsage (processLoop env start n i todo st) =
    fold_left (charge (selectedModel start)) (charged env start i todo)
      (tokenUsage st).
Proof.
  induction todo as [|task todo IH]; intros i st; [done|].
  cbn [processLoop charged]. unfold outcome.
  destruct (generateImageFromReference env i _ _ _ _ _ _) as [url usage|message].
  - rewrite IH, fold_left_step.
    rewrite tokenUsage_log, tokenUsage_updateResultStatus,
      tokenUsage_setTokenUsage, tokenUsage_log, tokenUsage_updateResultStatus.
    unfold charge. reflexivity.
  - destruct (keyRejected message).
    + by destruct (aistudio env).
    + rewrite IH.
      rewrite tokenUsage_log, tokenUsage_updateResultStatus,
        tokenUsage_log, tokenUsage_updateResultStatus.
      reflexivity.
Qed.

Lemma charge_level (model : TokenUsage.ModelType) (ledger : TokenUsage.t)
    (usage : Usage.t) :
  TokenUsage.total_cost ledger = TokenUsage.historic_cost ledger →
  TokenUsage.images ledger = TokenUsage.historic_images ledger →
  TokenUsage.total_cost (charge model ledger usage)
  = TokenUsage.historic_cost (charge model ledger usage) ∧
  TokenUsage.images (charge model ledger usage)
  = TokenUsage.historic_images (charge model ledger usage).
Proof.
  intros Hc Hi. unfold charge. rewrite clone_id.
  rewrite (addItem_fields ledger (Usage.input usage) (Usage.output_text usage)
             (Usage.output_image usage) model).
  cbv zeta.
  cbn [TokenUsage.total_cost TokenUsage.historic_cost TokenUsage.images
       TokenUsage.historic_images].
  rewrite Hc, Hi. split; reflexivity.
Qed.

Lemma charged_completed (todo : list ProcessingResult.t) :
  Forall (λ t, ProcessingResult.status t = Status.pending) todo →
  ∀ i, length (charged env start i todo) =
       length (List.filter isCompleted (finalSlots env start i todo)).
Proof.
  induction 1 as [|task todo Hp Hall IH]; intros i; [done|].
  cbn [charged finalSlots]. destruct (outcome env start i task) as [url usage|m].
  - cbn. by rewrite IH.
  - cbn. destruct (keyRejected m); [|apply IH].
    clear -Hall. induction Hall as [|t todo Ht _ IH]; [done|].
    cbn. unfold isCompleted at 1. cbn. by rewrite Ht.
Qed.

Lemma buildTasks_pending (doc : UserDocument.t) (files : list File.t) :
  Forall (λ t, ProcessingResult.status t = Status.pending)
    (buildTasks env doc files).
Proof.
  apply Forall_lookup_2. intros k t. rewrite buildTasks_lookup.
  destruct (enabledPrompts doc !! k); [|done]. by intros [= <-].
Qed.

End LedgerInBatch.

Section SlotFacts.

Import App Batch BatchMore.

Variable env : Env.
Variable start : State.

Lemma buildTasks_blank (doc : UserDocument.t) (files : list File.t) :
  Forall (λ t, ProcessingResult.status t = Status.pending ∧
               ProcessingResult.imageUrl t = None ∧
               ProcessingResult.error t = None)
    (buildTasks env doc files).
Proof.
  apply Forall_lookup_2. intros k t. rewrite buildTasks_lookup.
  destruct (enabledPrompts doc !! k); [|done]. by intros [= <-].
Qed.

Lemma finalSlots_consistent (todo : list ProcessingResult.t) :
  Forall (λ t, ProcessingResult.status t = Status.pending ∧
               ProcessingResult.imageUrl t = None ∧
               ProcessingResult.error t = None) todo →
  ∀ i slot, slot ∈ finalSlots env start i todo →
    ∃ r, slot = Full r ∧
      match ProcessingResult.status r with
      | Status.completed =>
          is_Some (ProcessingResult.imageUrl r) ∧ ProcessingResult.error r = None
      | Status.failed =>
          ProcessingResult.imageUrl r = None ∧ is_Some (ProcessingResult.error r)
      | Status.pending =>
          ProcessingResult.imageUrl r = None ∧ ProcessingResult.error r = None ∧
          halted env start i todo = true
      | Status.processing => False
      end.
Proof.
  induction 1 as [|task todo Hp Hall IH]; intros i slot; cbn [finalSlots halted].
  { by intros ?%elem_of_nil. }
  destruct (outcome env start i task) as [url usage|m].
  - intros [->|Hin]%elem_of_cons.
    + eexists. split; [reflexivity|]. cbn. by eauto.
    + by apply IH.
  - intros [->|Hin]%elem_of_cons.
    + eexists. split; [reflexivity|]. cbn. by eauto.
    + destruct (keyRejected m); [|by apply IH].
      apply list_elem_of_fmap in Hin as (t & -> & Ht).
      rewrite Forall_forall in Hall. destruct (Hall t Ht) as (Hs & Hu & He).
      exists t. split; [done|]. by rewrite Hs.
Qed.

End SlotFacts.

(** X1.  A batch that does not get past the guards of [handleProcess]
    does nothing but append one error line to the console, the one of the
    first guard that fails in the order: no prompts configured, no prompts
    selected, no files selected, no key.  No generation call is made: the
    result does not depend on the remote. *)
Theorem refused_batch_only_logs (env : App.Env) (st : App.State) :
  App.starts st = false →
  ∃ m, BatchMore.refusal st = Some m ∧
       App.handleProcess env st = App.log m Log.error st.
Proof.
  intros Hs. destruct (BatchMore.refusal st) as [m|] eqn:Hr.
  - exists m. split; [done|]. by apply handleProcess_refused.
  - apply refusal_starts in Hr. congruence.
Qed.

Lemma refused_batch_without_files :
  App.starts Cases.noFiles = false ∧
  ∃ m, BatchMore.refusal Cases.noFiles = Some m ∧
       App.handleProcess (Scenario.remote false Scenario.succeeds) Cases.noFiles
       = App.log m Log.error Cases.noFiles.
Proof.
  split; [reflexivity|].
  apply (refused_batch_only_logs (Scenario.remote false Scenario.succeeds)
           Cases.noFiles).
  reflexivity.
Defined.

(** X2.  When the RUN button is enabled, pressing it either starts a
    batch or is turned down with "No prompts selected": the button looks at
    the enabled prompts, [handleProcess] only at those whose name is not
    blank. *)
Theorem enabled_run_button (env : App.Env) (st : App.State) :
  AppMore.runDisabled st = false →
  App.starts st = true ∨
  App.handleProcess env st = App.log Log.NoPromptsSelected Log.error st.
Proof.
  unfold AppMore.runDisabled. intros Hd.
  apply orb_false_elim in Hd as [Hd Hsome].
  apply orb_false_elim in Hd as [Hd Hfiles].
  apply orb_false_elim in Hd as [_ Hkey].
  apply negb_false_iff in Hkey, Hsome.
  apply bool_decide_eq_false in Hfiles.
  destruct (BatchMore.refusal st) as [m|] eqn:Hr.
  - right. rewrite (handleProcess_refused env st m Hr). f_equal.
    revert Hr. unfold BatchMore.refusal.
    destruct (App.userDoc st) as [doc|]; [|done].
    destruct (decide (UserDocument.prompts doc = [])) as [Hp|_].
    { by rewrite Hp in Hsome. }
    destruct (decide (App.enabledPrompts doc = [])); [by intros [= <-]|].
    destruct (decide (App.selectedFiles st = [])) as [Hf|_].
    { by rewrite Hf in Hfiles. }
    by rewrite Hkey.
  - left. by apply refusal_starts.
Qed.

Lemma enabled_run_button_blank_name :
  AppMore.runDisabled (Scenario.page Scenario.onlyBlankEnabled) = false ∧
  App.handleProcess (Scenario.remote false Scenario.succeeds)
    (Scenario.page Scenario.onlyBlankEnabled)
  = App.log Log.NoPromptsSelected Log.error
      (Scenario.page Scenario.onlyBlankEnabled).
Proof.
  split; [reflexivity|].
  destruct (enabled_run_button (Scenario.remote false Scenario.succeeds)
              (Scenario.page Scenario.onlyBlankEnabled) eq_refl) as [H|H].
  - discriminate H.
  - exact H.
Defined.

(** X3.  The RUN button never blocks a batch that would start: when
    [handleProcess] would get past its guards, the button is disabled only
    while a batch is running. *)
Theorem run_button_allows_every_batch (st : App.State) :
  App.starts st = true → AppMore.runDisabled st = App.isProcessing st.
Proof.
  unfold App.starts, AppMore.runDisabled.
  destruct (App.userDoc st) as [doc|]; [|done].
  intros [[He Hf]%andb_prop Hk]%andb_prop.
  apply bool_decide_eq_true in He, Hf. rewrite Hk.
  rewrite bool_decide_eq_false_2
    by (intros Hl; by apply Hf, nil_length_inv).
  assert (existsb Prompt.enabled (UserDocument.prompts doc) = true) as ->.
  { unfold App.enabledPrompts in He.
    destruct (List.filter _ _) as [|p ps] eqn:Hfl; [done|].
    assert (In p (List.filter
                    (λ p, Prompt.enabled p && JS.truthy (JS.trim (Prompt.name p)))
                    (UserDocument.prompts doc))) as Hin
      by (rewrite Hfl; by left).
    apply filter_In in Hin as [Hin Hp]. apply existsb_exists.
    exists p. split; [done|]. by apply andb_prop in Hp as [-> _]. }
  by destruct (App.isProcessing st).
Qed.

Lemma run_button_allows_scenario_A :
  App.starts (Scenario.page Scenario.wideClose) = true ∧
  AppMore.runDisabled (Scenario.page Scenario.wideClose) = false.
Proof.
  split; [reflexivity|].
  apply (run_button_allows_every_batch (Scenario.page Scenario.wideClose)).
  reflexivity.
Defined.

(** X4.  A batch that starts leaves the page idle: [isProcessing] is off
    again, the user document, the selected files and the generation
    settings are the ones it started with, there is one result per selected
    prompt, the console lines of before are kept and the last line reports
    the end of the batch.  This holds whether the loop ran to its end or
    stopped on a rejected key. *)
Theorem batch_leaves_the_page_idle (env : App.Env) (st : App.State)
    (doc : UserDocument.t) :
  App.userDoc st = Some doc → App.starts st = true →
  App.isProcessing (App.handleProcess env st) = false ∧
  App.userDoc (App.handleProcess env st) = Some doc ∧
  App.selectedFiles (App.handleProcess env st) = App.selectedFiles st ∧
  App.selectedModel (App.handleProcess env st) = App.selectedModel st ∧
  length (App.results (App.handleProcess env st))
  = length (App.enabledPrompts doc) ∧
  ∃ more, App.logs (App.handleProcess env st)
          = App.logs st ++ more ++ [Log.mk Log.BatchFinished Log.success].
Proof.
  intros Hdoc Hs.
  split; [|split; [|split; [|split; [|split]]]].
  - rewrite (handleProcess_started env st doc Hdoc Hs). reflexivity.
  - rewrite (handleProcess_started env st doc Hdoc Hs). cbn.
    destruct (processLoop_frame env st
      (length (App.buildTasks env doc (App.selectedFiles st))) 
      (App.buildTasks env doc (App.selectedFiles st)) 0
      (App.log (Log.Queued (length (App.buildTasks env doc (App.selectedFiles st))))
         Log.info
         (App.setResults (λ _, map Full (App.buildTasks env doc (App.selectedFiles st)))
            (App.log (Log.StartingBatch (length (App.selectedFiles st))) Log.info
               (App.setResults (λ _, []) (App.setIsProcessing true st))))))
      as (-> & _). exact Hdoc.
  - rewrite (handleProcess_started env st doc Hdoc Hs). cbn.
    destruct (processLoop_frame env st
      (length (App.buildTasks env doc (App.selectedFiles st))) 
      (App.buildTasks env doc (App.selectedFiles st)) 0
      (App.log (Log.Queued (length (App.buildTasks env doc (App.selectedFiles st))))
         Log.info
         (App.setResults (λ _, map Full (App.buildTasks env doc (App.selectedFiles st)))
            (App.log (Log.StartingBatch (length (App.selectedFiles st))) Log.info
               (App.setResults (λ _, []) (App.setIsProcessing true st))))))
      as (_ & -> & _). reflexivity.
  - rewrite (handleProcess_started env st doc Hdoc Hs). cbn.
    destruct (processLoop_frame env st
      (length (App.buildTasks env doc (App.selectedFiles st))) 
      (App.buildTasks env doc (App.selectedFiles st)) 0
      (App.log (Log.Queued (length (App.buildTasks env doc (App.selectedFiles st))))
         Log.info
         (App.setResults (λ _, map Full (App.buildTasks env doc (App.selectedFiles st)))
            (App.log (Log.StartingBatch (length (App.selectedFiles st))) Log.info
               (App.setResults (λ _, []) (App.setIsProcessing true st))))))
      as (_ & _ & _ & _ & -> & _). reflexivity.
  - rewrite (handleProcess_results env st doc Hdoc Hs).
    by rewrite finalSlots_length, buildTasks_length.
  - rewrite (handleProcess_started env st doc Hdoc Hs). cbn.
    edestruct (processLoop_logs env st) as [more ->]. cbn.
    eexists (_ :: _ :: more). rewrite <- !app_assoc. reflexivity.
Qed.

Lemma batch_leaves_scenario_A_idle :
  App.isProcessing
    (App.handleProcess (Scenario.remote false Scenario.succeeds)
       (Scenario.page Scenario.wideClose)) = false ∧
  length (App.results
            (App.handleProcess (Scenario.remote false Scenario.succeeds)
               (Scenario.page Scenario.wideClose))) = 2.
Proof.
  destruct (batch_leaves_the_page_idle
              (Scenario.remote false Scenario.succeeds)
              (Scenario.page Scenario.wideClose) Scenario.wideClose
              eq_refl eq_refl) as (H1 & _ & _ & _ & H2 & _).
  split; [exact H1 | exact H2].
Defined.

(** X5.  After a batch every result is a whole record in one of three
    shapes: completed with an image and no error, failed with an error and
    no image, or still pending with neither, the last only when the loop
    stopped on a rejected key.  None is left in the state "processing". *)
Theorem batch_results_are_consistent (env : App.Env) (st : App.State)
    (doc : UserDocument.t) (slot : Slot) :
  App.userDoc st = Some doc → App.starts st = true →
  slot ∈ App.results (App.handleProcess env st) →
  ∃ r, slot = Full r ∧
    match ProcessingResult.status r with
    | Status.completed =>
        is_Some (ProcessingResult.imageUrl r) ∧ ProcessingResult.error r = None
    | Status.failed =>
        ProcessingResult.imageUrl r = None ∧ is_Some (ProcessingResult.error r)
    | Status.pending =>
        ProcessingResult.imageUrl r = None ∧ ProcessingResult.error r = None ∧
        Batch.halted env st 0 (App.buildTasks env doc (App.selectedFiles st))
        = true
    | Status.processing => False
    end.
Proof.
  intros Hdoc Hs. rewrite (handleProcess_results env st doc Hdoc Hs).
  apply finalSlots_consistent, buildTasks_blank.
Qed.

Lemma batch_results_scenario_B :
  ∃ r, Full (ProcessingResult.mk (JS.lit "three", 1700000000002%Z)
               [Scenario.image] (JS.lit "three") (JS.lit "third")
               Status.pending None None) = Full r ∧
    match ProcessingResult.status r with
    | Status.completed =>
        is_Some (ProcessingResult.imageUrl r) ∧ ProcessingResult.error r = None
    | Status.failed =>
        ProcessingResult.imageUrl r = None ∧ is_Some (ProcessingResult.error r)
    | Status.pending =>
        ProcessingResult.imageUrl r = None ∧ ProcessingResult.error r = None ∧
        Batch.halted Scenario.localRemote (Scenario.page Scenario.three) 0
          (App.buildTasks Scenario.localRemote Scenario.three
             (App.selectedFiles (Scenario.page Scenario.three)))
        = true
    | Status.processing => False
    end.
Proof.
  apply (batch_results_are_consistent Scenario.localRemote
           (Scenario.page Scenario.three) Scenario.three _ eq_refl eq_refl).
  apply (list_elem_of_lookup_2 _ 2). vm_compute. reflexivity.
Defined.

(** X6.  A batch charges the ledger once for every call that resolved, in
    the order of the calls, at the prices of the model that was selected
    when the batch started, and for nothing else: failed calls and the
    tasks behind a rejected key cost nothing.  The number of charges is the
    number of results left completed. *)
Theorem batch_charges_completed_calls (env : App.Env) (st : App.State)
    (doc : UserDocument.t) :
  App.userDoc st = Some doc → App.starts st = true →
  App.tokenUsage (App.handleProcess env st) =
  fold_left (BatchMore.charge (App.selectedModel st))
    (BatchMore.charged env st 0 (App.buildTasks env doc (App.selectedFiles st)))
    (App.tokenUsage st) ∧
  length (BatchMore.charged env st 0
            (App.buildTasks env doc (App.selectedFiles st))) =
  length (List.filter BatchMore.isCompleted
            (App.results (App.handleProcess env st))).
Proof.
  intros Hdoc Hs. split.
  - rewrite (handleProcess_started env st doc Hdoc Hs). cbn.
    rewrite processLoop_tokenUsage. reflexivity.
  - rewrite (handleProcess_results env st doc Hdoc Hs).
    apply charged_completed, buildTasks_pending.
Qed.

Lemma batch_charges_scenario_B :
  App.tokenUsage
    (App.handleProcess Scenario.localRemote (Scenario.page Scenario.three)) =
  fold_left
    (BatchMore.charge (App.selectedModel (Scenario.page Scenario.three)))
    (BatchMore.charged Scenario.localRemote (Scenario.page Scenario.three) 0
       (App.buildTasks Scenario.localRemote Scenario.three
          (App.selectedFiles (Scenario.page Scenario.three))))
    (App.tokenUsage (Scenario.page Scenario.three)) ∧
  length (BatchMore.charged Scenario.localRemote (Scenario.page Scenario.three)
            0 (App.buildTasks Scenario.localRemote Scenario.three
                 (App.selectedFiles (Scenario.page Scenario.three)))) =
  length (List.filter BatchMore.isCompleted
            (App.results
               (App.handleProcess Scenario.localRemote
                  (Scenario.page Scenario.three)))).
Proof.
  apply (batch_charges_completed_calls Scenario.localRemote
           (Scenario.page Scenario.three) Scenario.three); reflexivity.
Defined.

(** X7.  [updateResultStatus] writes one slot: the slot at the index gets
    the new status, the slots at the other indices are the ones of before,
    and an index past the end lengthens the list, leaving holes in
    between. *)
Theorem updateResultStatus_writes_one_slot (index : nat) (status : Status.t)
    (imageUrl error : option JS.str) (st : App.State) :
  (∃ slot,
     App.results (App.updateResultStatus index status imageUrl error st)
     !! index = Some slot ∧
     Batch.statusOf slot = Some status) ∧
  (∀ j, j ≠ index → j < length (App.results st) →
     App.results (App.updateResultStatus index status imageUrl error st) !! j
     = App.results st !! j) ∧
  (∀ j, length (App.results st) ≤ j → j < index →
     App.results (App.updateResultStatus index status imageUrl error st) !! j
     = Some Hole) ∧
  length (App.results (App.updateResultStatus index status imageUrl error st))
  = Nat.max (length (App.results st)) (S index).
Proof.
  cbn. unfold assign.
  set (new := App.overwrite _ _ _ _).
  assert (Batch.statusOf new = Some status) as Hnew.
  { subst new. by destruct (App.results st !! index) as [[| |]|]. }
  destruct (decide (index < length (App.results st))) as [Hlt|Hge].
  - split; [|split; [|split]].
    + exists new. split; [|done]. by apply list_lookup_insert_eq.
    + intros j Hj _. by apply list_lookup_insert_ne.
    + intros j ? ?. lia.
    + rewrite length_insert. lia.
  - split; [|split; [|split]].
    + exists new. split; [|done].
      rewrite lookup_app_r by lia. rewrite lookup_app_r; rewrite length_replicate;
        [|lia]. by replace (_ - _ - _) with 0 by lia.
    + intros j _ Hj. by apply lookup_app_l.
    + intros j Hj1 Hj2. rewrite lookup_app_r by lia.
      rewrite lookup_app_l by (rewrite length_replicate; lia).
      apply lookup_replicate_2. lia.
    + rewrite !length_app, length_replicate. cbn. lia.
Qed.

Lemma updateResultStatus_past_the_end :
  App.results
    (App.updateResultStatus 2 Status.failed None (Some (JS.lit "late"))
       (Scenario.page Scenario.wideClose)) !! 1 = Some Hole.
Proof.
  apply (updateResultStatus_writes_one_slot 2 Status.failed None
           (Some (JS.lit "late")) (Scenario.page Scenario.wideClose)).
  - cbn. lia.
  - lia.
Defined.

(** X8.  Clear empties the results and the console and zeroes the session
    totals, and leaves the lifetime totals, the user document, the selected
    files and the key flag as they were. *)
Theorem handleClear_keeps_the_rest (st : App.State) :
  App.results (App.handleClear st) = [] ∧
  App.logs (App.handleClear st) = [Log.mk Log.WorkspaceCleared Log.info] ∧
  App.tokenUsage (App.handleClear st) =
  TokenUsage.mk 0 0 0 0 0 0 (TokenUsage.historic_cost (App.tokenUsage st))
    (TokenUsage.historic_images (App.tokenUsage st)) ∧
  App.userDoc (App.handleClear st) = App.userDoc st ∧
  App.selectedFiles (App.handleClear st) = App.selectedFiles st ∧
  App.hasKey (App.handleClear st) = App.hasKey st ∧
  App.isProcessing (App.handleClear st) = App.isProcessing st.
Proof.
  destruct st as [? ? ? ? ? ? ? []]. repeat split.
Qed.

(** X9.  [addItem] adds the same cost and the same count to the session
    and to the lifetime totals: on a ledger whose session cost and image
    count equal the lifetime ones they still do after any sequence of
    calls. *)
Theorem addItem_keeps_session_and_lifetime_level
    (calls : list (Usage.t * TokenUsage.ModelType)) (ledger : TokenUsage.t) :
  TokenUsage.total_cost ledger = TokenUsage.historic_cost ledger →
  TokenUsage.images ledger = TokenUsage.historic_images ledger →
  TokenUsage.total_cost
    (fold_left (λ l c, BatchMore.charge (snd c) l (fst c)) calls ledger) =
  TokenUsage.historic_cost
    (fold_left (λ l c, BatchMore.charge (snd c) l (fst c)) calls ledger) ∧
  TokenUsage.images
    (fold_left (λ l c, BatchMore.charge (snd c) l (fst c)) calls ledger) =
  TokenUsage.historic_images
    (fold_left (λ l c, BatchMore.charge (snd c) l (fst c)) calls ledger).
Proof.
  revert ledger. induction calls as [|[usage model] calls IH]; intros ledger Hc Hi.
  { split; assumption. }
  rewrite fold_left_step.
  destruct (charge_level model ledger usage Hc Hi) as [Hc' Hi'].
  exact (IH (BatchMore.charge model ledger usage) Hc' Hi').
Qed.

Lemma addItem_level_on_a_fresh_ledger :
  TokenUsage.total_cost
    (fold_left (λ l c, BatchMore.charge (snd c) l (fst c))
       [(Scenario.usage, TokenUsage.gemini_2_5_flash_image);
        (Scenario.usage, TokenUsage.gemini_2_5_flash_image)]
       TokenUsage.fresh) =
  TokenUsage.historic_cost
    (fold_left (λ l c, BatchMore.charge (snd c) l (fst c))
       [(Scenario.usage, TokenUsage.gemini_2_5_flash_image);
        (Scenario.usage, TokenUsage.gemini_2_5_flash_image)]
       TokenUsage.fresh) ∧
  TokenUsage.images
    (fold_left (λ l c, BatchMore.charge (snd c) l (fst c))
       [(Scenario.usage, TokenUsage.gemini_2_5_flash_image);
        (Scenario.usage, TokenUsage.gemini_2_5_flash_image)]
       TokenUsage.fresh) =
  TokenUsage.historic_images
    (fold_left (λ l c, BatchMore.charge (snd c) l (fst c))
       [(Scenario.usage, TokenUsage.gemini_2_5_flash_image);
        (Scenario.usage, TokenUsage.gemini_2_5_flash_image)]
       TokenUsage.fresh).
Proof.
  apply (addItem_keeps_session_and_lifetime_level
           [(Scenario.usage, TokenUsage.gemini_2_5_flash_image);
            (Scenario.usage, TokenUsage.gemini_2_5_flash_image)]
           TokenUsage.fresh); reflexivity.
Defined.

(* ===================================================================== *)
(** * Properties of the generation service *)
(* ===================================================================== *)

Section ServiceFacts.

Import GeminiService.

Lemma orElse_truthy (a : option JS.str) (b : JS.str) :
  JS.truthy b = true → JS.truthy (JS.orElse a b) = true.
Proof.
  intros Hb. destruct a as [s|]; [|done]. cbn.
  by destruct (JS.truthy s) eqn:Hs.
Qed.

Lemma firstImage_skips (before after : list Part) (part : Part)
    (inline : InlineData) (d : JS.str) :
  Forall (λ p, imageData p = None) before →
  imageData part = Some (inline, d) →
  firstImage (before ++ part :: after) = Some (imageUrlOf inline d).
Proof.
  intros Hb Hp. induction Hb as [|p before Hnone _ IH]; cbn.
  - by rewrite Hp.
  - by rewrite Hnone.
Qed.

Lemma splitComma_no_comma (s : JS.str) :
  44%N ∉ s → splitComma s = [s].
Proof.
  induction s as [|c s IH]; [done|]. intros Hc. cbn.
  apply not_elem_of_cons in Hc as [Hc Hs].
  destruct (N.eqb_spec c 44) as [->|_]; [done|]. by rewrite IH.
Qed.

Lemma splitComma_first (prefix rest : JS.str) :
  44%N ∉ prefix →
  splitComma (prefix ++ 44%N :: rest) = prefix :: splitComma rest.
Proof.
  induction prefix as [|c prefix IH]; [done|]. intros Hc. cbn.
  apply not_elem_of_cons in Hc as [Hc Hs].
  destruct (N.eqb_spec c 44) as [->|_]; [done|]. by rewrite IH.
Qed.

End ServiceFacts.

(** X10.  The promise of [generateImageFromReference] never rejects with
    an empty message, and the message makes [handleProcess] stop the batch
    only when it is the message of an error thrown inside the [try] block:
    the service's own "No image data found in response" and "Unknown error
    during generation" never stop a batch. *)
Theorem service_rejections (attempt : GeminiService.Attempt) (m : JS.str) :
  GeminiService.generateImageFromReference attempt = Rejected m →
  JS.truthy m = true ∧
  (App.keyRejected m = true → attempt = GeminiService.Threw (Some m)).
Proof.
  destruct attempt as [[msg|]|response]; cbn.
  - unfold GeminiService.rethrow. cbn. destruct (JS.truthy msg) eqn:Hm.
    + intros [= <-]. done.
    + intros [= <-]. split; [done|]. by vm_compute.
  - intros [= <-]. split; [done|]. by vm_compute.
  - destruct (GeminiService.extract response) as [[url usage]|]; [done|].
    intros [= <-]. split; [done|]. by vm_compute.
Qed.

Lemma service_rejection_for_the_key :
  JS.truthy (JS.lit "Requested entity was not found.") = true ∧
  (App.keyRejected (JS.lit "Requested entity was not found.") = true →
   GeminiService.Threw (Some (JS.lit "Requested entity was not found.")) =
   GeminiService.Threw (Some (JS.lit "Requested entity was not found."))).
Proof.
  apply (service_rejections
           (GeminiService.Threw (Some (JS.lit "Requested entity was not found.")))
           (JS.lit "Requested entity was not found.")).
  reflexivity.
Defined.

(** X11.  The image returned is the one of the first part of the first
    candidate that carries inline data; parts without data before it (text
    parts, inline parts whose data is empty) are passed over, later parts
    and later candidates are not looked at.  Its URL is
    [data:<mime type or image/png>;base64,<data>]. *)
Theorem first_image_part_decides (response : GeminiService.Response)
    (first : GeminiService.Candidate) (others : list GeminiService.Candidate)
    (before after : list GeminiService.Part) (part : GeminiService.Part)
    (inline : GeminiService.InlineData) (d : JS.str) :
  GeminiService.candidates response = Some (first :: others) →
  GeminiService.content first
  = Some (GeminiService.mkContent (Some (before ++ part :: after))) →
  Forall (λ p, GeminiService.imageData p = None) before →
  GeminiService.inlineData part = Some inline →
  GeminiService.data inline = Some d → d ≠ [] →
  GeminiService.generateImageFromReference (GeminiService.Returned response) =
  Resolved
    (JS.lit "data:"
     ++ JS.orElse (GeminiService.mimeType inline) (JS.lit "image/png")
     ++ JS.lit ";base64," ++ d)
    (GeminiService.usageOf response).
Proof.
  intros Hc Hf Hb Hi Hd Hne. cbn. unfold GeminiService.extract.
  rewrite Hc, Hf. cbn.
  rewrite (firstImage_skips before after part inline d Hb); [done|].
  unfold GeminiService.imageData. rewrite Hi. cbn. rewrite Hd. cbn.
  by destruct d.
Qed.

Lemma first_image_part_of_the_answer :
  GeminiService.generateImageFromReference
    (GeminiService.Returned Cases.answer) =
  Resolved
    (JS.lit "data:"
     ++ JS.orElse (GeminiService.mimeType (GeminiService.mkInlineData None
                                             (Some (JS.lit "AAAA"))))
          (JS.lit "image/png")
     ++ JS.lit ";base64," ++ JS.lit "AAAA")
    (GeminiService.usageOf Cases.answer).
Proof.
  apply (first_image_part_decides Cases.answer
           (GeminiService.mkCandidate
              (Some (GeminiService.mkContent
                 (Some [GeminiService.mkPart (Some (JS.lit "here")) None;
                        GeminiService.mkPart None
                          (Some (GeminiService.mkInlineData None
                                   (Some (JS.lit "AAAA"))))]))))
           []
           [GeminiService.mkPart (Some (JS.lit "here")) None] []
           (GeminiService.mkPart None
              (Some (GeminiService.mkInlineData None (Some (JS.lit "AAAA")))))
           (GeminiService.mkInlineData None (Some (JS.lit "AAAA")))
           (JS.lit "AAAA")).
  - reflexivity.
  - reflexivity.
  - repeat constructor.
  - reflexivity.
  - reflexivity.
  - discriminate.
Defined.


(** X13.  [fileToBase64] resolves with what stands between the first and
    the second comma of the data URL (up to the end when there is one
    comma only), and with [undefined] when the URL has no comma. *)
Theorem fileToBase64_second_piece (prefix payload rest : JS.str) :
  44%N ∉ prefix → 44%N ∉ payload →
  GeminiService.fileToBase64 (Some (prefix ++ 44%N :: payload))
  = GeminiService.ReadAs (Some payload) ∧
  GeminiService.fileToBase64 (Some (prefix ++ 44%N :: payload ++ 44%N :: rest))
  = GeminiService.ReadAs (Some payload) ∧
  GeminiService.fileToBase64 (Some prefix) = GeminiService.ReadAs None.
Proof.
  intros Hp Hd. unfold GeminiService.fileToBase64. split; [|split].
  - by rewrite splitComma_first, splitComma_no_comma.
  - by rewrite splitComma_first, splitComma_first.
  - by rewrite splitComma_no_comma.
Qed.

Lemma fileToBase64_of_a_data_url :
  GeminiService.fileToBase64
    (Some (JS.lit "data:image/png;base64" ++ 44%N :: JS.lit "AAAA"))
  = GeminiService.ReadAs (Some (JS.lit "AAAA")).
Proof.
  apply (fileToBase64_second_piece (JS.lit "data:image/png;base64")
           (JS.lit "AAAA") []).
  - cbn. rewrite !not_elem_of_cons. repeat split; try discriminate.
    apply not_elem_of_nil.
  - cbn. rewrite !not_elem_of_cons. repeat split; try discriminate.
    apply not_elem_of_nil.
Defined.

(* ===================================================================== *)
(** * Properties of the prompt class *)
(* ===================================================================== *)

(** X14.  A prompt survives the trip through its plain form, and a plain
    form read back and written again is itself, except that a missing
    skip flag has become [false]. *)
Theorem prompt_round_trip (p : Prompt.t) (d : PromptClass.Plain) :
  PromptClass.fromJSON (PromptClass.toJSON p) = p ∧
  PromptClass.toJSON (PromptClass.fromJSON d) =
  PromptClass.mkPlain (PromptClass.name d) (PromptClass.prompt d)
    (PromptClass.enabled d)
    (Some (default false (PromptClass.skip_beforeafter_prompt d))) ∧
  (PromptClass.skip_beforeafter_prompt d = None →
   Prompt.skip_beforeafter_prompt (PromptClass.fromJSON d) = false).
Proof.
  split; [by destruct p|]. split; [done|]. intros Hs. cbn. by rewrite Hs.
Qed.

(* ===================================================================== *)
(** * Properties of the access check *)
(* ===================================================================== *)

(** X15.  The application is shown only to a signed-in user whose e-mail
    (the empty string when the account has none) is on the access list
    held by the wrapper, and never while the sign-in state or the list is
    still loading. *)
Theorem app_shown_only_to_listed_users (st : AuthWrapper.State) :
  AuthWrapper.home st = AuthWrapper.TheApp →
  AuthWrapper.authLoading st = false ∧
  AuthWrapper.accessListLoading st = false ∧
  ∃ u, AuthWrapper.user st = Some u ∧
       JS.orElse (AuthWrapper.email u) [] ∈ AuthWrapper.accessList st.
Proof.
  unfold AuthWrapper.home, AuthWrapper.isAuthorized.
  destruct (AuthWrapper.authLoading st); [done|].
  destruct (AuthWrapper.accessListLoading st); [done|]. cbn.
  destruct (AuthWrapper.user st) as [u|]; [|done].
  destruct (bool_decide _) eqn:Hin; [|done].
  apply bool_decide_eq_true in Hin. intros _. by eauto.
Qed.

Lemma app_shown_to_ada :
  AuthWrapper.authLoading
    (AuthWrapper.signedIn Cases.ada Cases.listed AuthWrapper.initial) = false ∧
  AuthWrapper.accessListLoading
    (AuthWrapper.signedIn Cases.ada Cases.listed AuthWrapper.initial) = false ∧
  ∃ u, AuthWrapper.user
         (AuthWrapper.signedIn Cases.ada Cases.listed AuthWrapper.initial)
       = Some u ∧
       JS.orElse (AuthWrapper.email u) [] ∈
       AuthWrapper.accessList
         (AuthWrapper.signedIn Cases.ada Cases.listed AuthWrapper.initial).
Proof.
  apply (app_shown_only_to_listed_users
           (AuthWrapper.signedIn Cases.ada Cases.listed AuthWrapper.initial)).
  reflexivity.
Defined.


(* ===================================================================== *)
(** * Properties of the cloud copy of the totals and of downloads *)
(* ===================================================================== *)

Section DownloadFacts.

Import AppMore.

Lemma isExtension_no_dot (s t : JS.str) : isExtension (s ++ 46%N :: t) = false.
Proof.
  unfold isExtension. apply andb_false_iff. right.
  induction s as [|c s IH]; [done|]. cbn. rewrite IH. apply andb_false_r.
Qed.

Lemma stripExtension_cuts (base ext : JS.str) :
  isExtension ext = true → stripExtension (base ++ 46%N :: ext) = base.
Proof.
  intros He. induction base as [|c base IH]; cbn.
  - by rewrite He.
  - rewrite isExtension_no_dot, andb_false_r. by rewrite IH.
Qed.

Lemma stripExtension_keeps (name : JS.str) :
  46%N ∉ name → stripExtension name = name.
Proof.
  induction name as [|c name IH]; [done|]. intros [Hc Hn]%not_elem_of_cons.
  cbn. destruct (N.eqb_spec c 46) as [->|_]; [done|]. cbn. by rewrite IH.
Qed.

End DownloadFacts.

(** X17.  The effect that copies the lifetime totals to the cloud writes
    at most once per change: run on the totals the refs were taken from it
    writes nothing, run again on the same totals it writes nothing, and
    what it writes is always the pair of the current lifetime totals.
    (The totals are numbers, not [NaN].) *)
Theorem sync_writes_once_per_change (email : option JS.str)
    (refs : AppMore.HistoricRefs) (tokenUsage : TokenUsage.t) :
  (TokenUsage.historic_cost tokenUsage
   =? TokenUsage.historic_cost tokenUsage)%float = true →
  (TokenUsage.historic_images tokenUsage
   =? TokenUsage.historic_images tokenUsage)%float = true →
  snd (AppMore.syncHistoric email (AppMore.initialRefs tokenUsage) tokenUsage)
  = None ∧
  snd (AppMore.syncHistoric email
         (fst (AppMore.syncHistoric email refs tokenUsage)) tokenUsage)
  = None ∧
  (∀ written, snd (AppMore.syncHistoric email refs tokenUsage) = Some written →
     written = (TokenUsage.historic_cost tokenUsage,
                TokenUsage.historic_images tokenUsage)).
Proof.
  intros Hc Hi. unfold AppMore.syncHistoric, AppMore.initialRefs.
  destruct email as [e|]; [|done]. cbn.
  split; [by rewrite Hc, Hi|]. split.
  - destruct (negb (_ =? AppMore.prevHistoricCostRef refs)%float || _)
      eqn:Hch; cbn.
    + by rewrite Hc, Hi.
    + by rewrite Hch.
  - intros written.
    destruct (negb (_ =? AppMore.prevHistoricCostRef refs)%float || _);
      cbn; [|done].
    by intros [= <-].
Qed.

Lemma sync_of_a_fresh_ledger :
  snd (AppMore.syncHistoric Scenario.email
         (AppMore.initialRefs TokenUsage.fresh) TokenUsage.fresh) = None.
Proof.
  apply (sync_writes_once_per_change Scenario.email
           (AppMore.initialRefs TokenUsage.fresh) TokenUsage.fresh);
    reflexivity.
Defined.

(** X18.  A result with an image whose first file is named
    [<base>.<ext>], the extension being one or more characters other than
    [.] and [/], is downloaded as [<base>_<prompt name>.jpg]; only the last
    extension is cut off.  A name without a dot is kept whole. *)
Theorem download_name (res : ProcessingResult.t) (url : JS.str)
    (first : File.t) (others : list File.t) (base ext : JS.str) :
  ProcessingResult.imageUrl res = Some url → url ≠ [] →
  ProcessingResult.files res = first :: others →
  (File.name first = base ++ 46%N :: ext ∧ AppMore.isExtension ext = true) ∨
  (File.name first = base ∧ 46%N ∉ base) →
  AppMore.handleDownload res =
  AppMore.Link url
    (base ++ JS.lit "_" ++ ProcessingResult.promptName res ++ JS.lit ".jpg").
Proof.
  intros Hu Hne Hf Hn. unfold AppMore.handleDownload. rewrite Hu, Hf.
  destruct url; [done|]. cbn [JS.truthy negb].
  destruct Hn as [[-> He]|[-> Hd]].
  - by rewrite stripExtension_cuts.
  - by rewrite stripExtension_keeps.
Qed.

Lemma download_name_of_the_cat :
  AppMore.handleDownload Cases.done =
  AppMore.Link (JS.lit "data:image/png;base64,AAAA")
    (JS.lit "cat.final" ++ JS.lit "_" ++ ProcessingResult.promptName Cases.done
     ++ JS.lit ".jpg").
Proof.
  apply (download_name Cases.done (JS.lit "data:image/png;base64,AAAA")
           Cases.cat [] (JS.lit "cat.final") (JS.lit "png")).
  - reflexivity.
  - discriminate.
  - reflexivity.
  - left. split; reflexivity.
Defined.

(* ===================================================================== *)
(** * Further properties of the editor in the page *)
(* ===================================================================== *)

Section ShapeFacts.

Import PromptEditor Page PageMore.

(** The three shapes of a step: a handler followed by renders, a change
    that needs no render, a new user document followed by renders. *)
Lemma step_shape (email : option JS.str) (ev : Event) (sys sys' : Sys) :
  step email ev sys = Some sys' →
  (∃ st, handled (rebuildsList ev sys) (editor sys) st ∧
         sys' = afterEdit renders sys st (rebuildsList ev sys)) ∨
  (rebuildsList ev sys = false ∧
   App.userDoc (app sys') = App.userDoc (app sys) ∧
   props (editor sys') = props (editor sys) ∧
   items (editor sys') = items (editor sys) ∧
   beforeText (editor sys') = beforeText (editor sys) ∧
   afterText (editor sys') = afterText (editor sys)) ∨
  (rebuildsList ev sys = false ∧
   ∃ app' rest,
     (is_Some (App.userDoc (app sys)) → is_Some (App.userDoc app')) ∧
     sys' = afterDoc renders (mk (app sys) (editor sys) rest) app').
Proof.
  unfold step. intros Hstep.
  destruct ev; cbn [stepWith rebuildsList] in *.
  - left. unfold handleNameChange in Hstep.
    destruct (editRow _ _ _) as [next|]; [|done].
    cbn [mbind option_bind] in Hstep. injection Hstep as <-.
    eexists. split; [|reflexivity]. apply handled_list.
  - left. unfold handlePromptChange in Hstep.
    destruct (editRow _ _ _) as [next|]; [|done].
    cbn [mbind option_bind] in Hstep. injection Hstep as <-.
    eexists. split; [|reflexivity]. apply handled_list.
  - left. injection Hstep as <-. eexists. split; [|reflexivity].
    apply (handled_text (editor sys) now text).
  - left. injection Hstep as <-. eexists. split; [|reflexivity].
    apply (handled_text (editor sys) now text).
  - left. unfold handleSelectionChange in Hstep.
    destruct (editRow _ _ _) as [next|]; [|done].
    cbn [mbind option_bind] in Hstep. injection Hstep as <-.
    eexists. split; [|reflexivity]. apply handled_list.
  - left. unfold handleSkipBeforeAfterChange in Hstep.
    destruct (editRow _ _ _) as [next|]; [|done].
    cbn [mbind option_bind] in Hstep. injection Hstep as <-.
    eexists. split; [|reflexivity]. apply handled_list.
  - left. injection Hstep as <-. eexists. split; [|reflexivity].
    apply (handled_list (editor sys)
             (items (recordInput now (editor sys))
              ++ [PromptItem.mk [] [] false false]) now).
  - left. injection Hstep as <-. eexists. split; [|reflexivity].
    apply (handled_list (editor sys)
             (delete index (items (recordInput now (editor sys)))) now).
  - right; left. injection Hstep as <-. by destruct (editor sys).
  - right; left. injection Hstep as <-. by destruct (editor sys).
  - left. unfold handleDrop in Hstep.
    destruct (draggedIndex (editor sys)) as [dragged|] eqn:Hd.
    + destruct (decide (dragged = index)) as [->|Hne].
      * cbn [mbind option_bind] in Hstep. injection Hstep as <-.
        rewrite bool_decide_eq_false_2 by (by intros []).
        eexists. split; [|reflexivity]. apply handled_drag. exact 0.
      * rewrite (bool_decide_eq_true_2 _ Hne).
        destruct (items (recordInput now (editor sys)) !! dragged)
          as [item|]; [|done].
        cbn [mbind option_bind] in Hstep. injection Hstep as <-.
        eexists. split; [|reflexivity].
        by destruct (editor sys).
    + cbn [mbind option_bind] in Hstep. injection Hstep as <-.
      eexists. split; [|reflexivity]. apply handled_drag. exact 0.
  - right; left. unfold autoSaveTick in Hstep.
    destruct (decide (length (itemsRef (editor sys)) = 0)).
    { by injection Hstep as <-. }
    destruct (hasChanges (editor sys)); cbn [negb] in Hstep.
    2:{ by injection Hstep as <-. }
    destruct (decide (5000 ≤ now - lastInputTime (editor sys))%Z).
    2:{ by injection Hstep as <-. }
    cbn in Hstep. injection Hstep as <-. cbn.
    split; [done|]. split; [by destruct email|]. by destruct (editor sys).
  - right; right. split; [done|].
    destruct (inflight sys) as [|saved rest]; [done|].
    injection Hstep as <-. eexists _, rest. split; [|reflexivity].
    intros [doc Hdoc]. cbn. rewrite Hdoc. by eexists.
  - right; left. destruct (inflight sys) as [|saved rest]; [done|].
    by injection Hstep as <-.
  - right; right. split; [done|]. injection Hstep as <-.
    exists (App.fetchUserDoc_resolved doc (app sys)), (inflight sys).
    split; [intros _; by eexists|]. by destruct sys.
Qed.

End ShapeFacts.

Section MirrorFacts.

Import PromptEditor Page PageMore.

(** What the renders after a handler leave in [App] and in the props. *)
Lemma afterEdit_app (sys : Sys) (st : State) (rebuilt : bool) :
  atRest sys → handled rebuilt (editor sys) st →
  app (afterEdit renders sys st rebuilt) =
  (if rebuilt || bool_decide (beforeText st ≠ beforeText (editor sys))
      || bool_decide (afterText st ≠ afterText (editor sys))
   then App.handlePromptsChange (map toPrompt (items st)) (beforeText st)
          (afterText st) (app sys)
   else app sys) ∧
  props (editor (afterEdit renders sys st rebuilt)) =
  (if rebuilt || bool_decide (beforeText st ≠ beforeText (editor sys))
      || bool_decide (afterText st ≠ afterText (editor sys))
   then propsNow
          (App.handlePromptsChange (map toPrompt (items st)) (beforeText st)
             (afterText st) (app sys)) (props st)
   else props st).
Proof.
  intros (Hinit & _) (Hi & _).
  assert (isInitialized st = true) as Hst by congruence.
  pose proof (afterEdit_result 1 sys st rebuilt Hst) as Hres.
  cbv zeta in Hres. change (3 + 1) with renders in Hres. rewrite Hres.
  destruct (rebuilt || _ || _); [|done]. split; [done|].
  by destruct rebuilt, (bool_decide (beforeText st ≠ _)),
    (bool_decide (afterText st ≠ _)).
Qed.

Lemma afterEdit_inStep (sys : Sys) (st : State) (rebuilt : bool) :
  atRest sys → inStep sys → handled rebuilt (editor sys) st →
  inStep (afterEdit renders sys st rebuilt).
Proof.
  intros Hrest ([doc Hdoc] & Hb & Ha) Hh.
  destruct (afterEdit_app sys st rebuilt Hrest Hh) as [Happ Hprops].
  destruct (afterEdit_renders sys st rebuilt Hrest Hh)
    as (_ & _ & Hb' & Ha' & _).
  unfold inStep. rewrite Happ, Hprops, Hb', Ha'.
  destruct Hh as (_ & _ & _ & _ & _ & Hp & _).
  destruct (rebuilt || _ || _) eqn:Hch.
  - rewrite (propsNow_changed _ doc) by done. cbn. rewrite Hdoc. cbn.
    by eauto.
  - apply orb_false_elim in Hch as [Hch Hda].
    apply orb_false_elim in Hch as [_ Hdb].
    apply bool_decide_eq_false in Hdb, Hda.
    apply dec_stable in Hdb, Hda. rewrite Hp, Hdb, Hda. by eauto.
Qed.

Lemma afterDoc_inStep (sys : Sys) (app' : App.State) :
  atRest sys → inStep sys → is_Some (App.userDoc app') →
  inStep (afterDoc renders sys app').
Proof.
  intros Hrest (_ & Hb & Ha) [doc Hdoc].
  pose proof (afterDoc_as_edit 0 sys app' Hrest) as Hres. cbv zeta in Hres.
  change (4 + 0) with renders in Hres. change (3 + 0) with 3 in Hres.
  rewrite Hres. clear Hres.
  set (next := propsNow app' (props (editor sys))).
  set (r := set_props next (editor sys)).
  set (st := if textDiffers next (props (editor sys)) then _ else r).
  destruct Hrest as (Hinit & Hflag & Hir & Hbr & Har & Hprops).
  assert (isInitialized st = true) as Hst.
  { subst st r. by destruct (textDiffers _ _), (editor sys). }
  pose proof (afterEdit_result 0 (mk app' r (inflight sys)) st false Hst)
    as Hres.
  cbv zeta in Hres. change (3 + 0) with 3 in Hres. rewrite Hres. clear Hres.
  cbn [editor Page.app orb].
  assert (props st = next) as Hpst.
  { subst st r. by destruct (textDiffers _ _), (editor sys). }
  destruct (bool_decide (beforeText st ≠ beforeText r)
            || bool_decide (afterText st ≠ afterText r)) eqn:Hch.
  - unfold inStep. cbn [editor Page.app].
    rewrite (propsNow_changed _ doc) by done. cbn. rewrite Hdoc. cbn.
    split; [by eauto|].
    by destruct (bool_decide (beforeText st ≠ _)),
      (bool_decide (afterText st ≠ _)).
  - apply orb_false_elim in Hch as [Hdb Hda].
    apply bool_decide_eq_false in Hdb, Hda. apply dec_stable in Hdb, Hda.
    unfold inStep. cbn [editor Page.app]. rewrite Hdoc, Hpst.
    split; [by eauto|].
    subst st. destruct (textDiffers next (props (editor sys))) eqn:Htp.
    + by destruct (editor sys).
    + unfold textDiffers in Htp. apply orb_false_elim in Htp as [Hnb Hna].
      apply bool_decide_eq_false in Hnb, Hna. apply dec_stable in Hnb, Hna.
      subst r. rewrite Hnb, Hna. by destruct (editor sys).
Qed.

Lemma step_inStep (email : option JS.str) (ev : Event) (sys sys' : Sys) :
  atRest sys → inStep sys → step email ev sys = Some sys' → inStep sys'.
Proof.
  intros Hrest Hin Hstep.
  destruct (step_shape email ev sys sys' Hstep)
    as [(st & Hh & ->)|[(_ & Hdoc & Hp & _ & Hb & Ha)|(_ & app' & rest & Hsome & ->)]].
  - by apply afterEdit_inStep.
  - destruct Hin as (Hd & Hb0 & Ha0). unfold inStep.
    by rewrite Hdoc, Hp, Hb, Ha.
  - apply afterDoc_inStep; [done|done|]. apply Hsome, Hin.
Qed.

Lemma mount_inStep (now : Z) (app0 : App.State) (sys : Sys) :
  mount now app0 = Some sys → inStep sys.
Proof.
  unfold mount, mountWith.
  destruct (App.userDoc app0) as [doc|] eqn:Hdoc; [|done].
  pose proof (mountWith_result 1 now app0 doc Hdoc) as Hres. cbv zeta in Hres.
  unfold mountWith in Hres. rewrite Hdoc in Hres.
  change (3 + 1) with renders in Hres.
  cbn [mbind option_bind] in *. rewrite Hres. intros [= <-].
  unfold inStep. cbn. rewrite Hdoc. cbn. by eauto.
Qed.

Lemma run_inStep (email : option JS.str) (evs : list Event) :
  ∀ sys sys', atRest sys → inStep sys → run email evs sys = Some sys' →
              inStep sys'.
Proof.
  induction evs as [|ev evs IH]; intros sys sys' Hrest Hin; cbn [run].
  { by intros [= <-]. }
  destruct (step email ev sys) as [sys1|] eqn:Hstep; [|done].
  cbn [mbind option_bind]. apply IH.
  - by destruct (step_summary email ev sys sys1 Hrest Hstep).
  - by apply (step_inStep email ev sys).
Qed.

Lemma reachable_inStep (email : option JS.str) (sys : Sys) :
  reachable email sys → inStep sys.
Proof.
  intros (now & app0 & sys0 & evs & Hm & Hr).
  apply (run_inStep email evs sys0 sys); [|by apply (mount_inStep now app0)|done].
  by destruct (mount_rest now app0 sys0 Hm).
Qed.

End MirrorFacts.

Section TextFacts.

Import PromptEditor Page PageMore.

Lemma toPrompt_toItem (ps : list Prompt.t) : map toPrompt (map toItem ps) = ps.
Proof.
  induction ps as [|[] ps IH]; [done|]. cbn. by rewrite IH.
Qed.

Lemma textDiffers_false (p q : Props) :
  textDiffers p q = false →
  promptBefore p = promptBefore q ∧ promptAfter p = promptAfter q.
Proof.
  unfold textDiffers. intros [Hb Ha]%orb_false_elim.
  apply bool_decide_eq_false in Hb, Ha. by apply dec_stable in Hb, Ha.
Qed.

End TextFacts.

(** X19.  When a write of the prompt list succeeds, the two text boxes of
    the editor show the before and after text that were sent with it:
    whatever was typed into them while the write was under way is
    replaced, the dirty flag stays as it was, and the list is not
    touched. *)
Theorem resolved_save_resets_the_texts (email : option JS.str)
    (sys sys' : Page.Sys) (saved : PromptEditor.Props)
    (rest : list PromptEditor.Props) :
  Page.reachable email sys → Page.inflight sys = saved :: rest →
  Page.step email Page.SaveResolved sys = Some sys' →
  PromptEditor.beforeText (Page.editor sys') = PromptEditor.promptBefore saved ∧
  PromptEditor.afterText (Page.editor sys') = PromptEditor.promptAfter saved ∧
  PromptEditor.items (Page.editor sys') = PromptEditor.items (Page.editor sys) ∧
  PromptEditor.hasChanges (Page.editor sys')
  = PromptEditor.hasChanges (Page.editor sys) ∧
  Page.inflight sys' = rest.
Proof.
  intros Hreach Hq Hstep.
  pose proof (reachable_rest email sys Hreach) as Hrest.
  destruct (reachable_inStep email sys Hreach) as ([doc Hdoc] & Hb & Ha).
  unfold Page.step in Hstep. cbn [Page.stepWith] in Hstep.
  rewrite Hq in Hstep. injection Hstep as <-.
  set (app' := App.handleSavePrompts_resolved _ _ _ _).
  assert (Page.atRest (Page.mk (Page.app sys) (Page.editor sys) rest))
    as Hrest0 by exact Hrest.
  pose proof (afterDoc_renders _ app' Hrest0) as H. cbv zeta in H.
  cbn [Page.editor Page.inflight] in H.
  destruct H as (_ & Hi & Hb' & Ha' & Hc & _ & Hq').
  assert (Page.propsNow app' (PromptEditor.props (Page.editor sys)) = saved)
    as Hnext.
  { subst app'. unfold Page.propsNow. cbn. rewrite Hdoc. cbn.
    by destruct saved. }
  rewrite Hnext in Hb', Ha'.
  split; [|split; [|done]].
  - rewrite Hb'. destruct (Page.textDiffers _ _) eqn:Htp; [done|].
    apply textDiffers_false in Htp as [-> _]. by rewrite <- Hb.
  - rewrite Ha'. destruct (Page.textDiffers _ _) eqn:Htp; [done|].
    apply textDiffers_false in Htp as [_ ->]. by rewrite <- Ha.
Qed.

Lemma typing_during_a_save_is_replaced :
  PromptEditor.beforeText
    (Page.editor (Scenario.after Scenario.wideClose Cases.typedSince))
  = JS.lit "Paint:" ∧
  PromptEditor.hasChanges
    (Page.editor (Scenario.after Scenario.wideClose Cases.typedSince))
  = true ∧
  PromptEditor.beforeText
    (Page.editor
       (Scenario.after Scenario.wideClose
          (Cases.typedSince ++ [Page.SaveResolved])))
  = PromptEditor.promptBefore Cases.sent.
Proof.
  split; [vm_compute; reflexivity|]. split; [vm_compute; reflexivity|].
  apply (resolved_save_resets_the_texts Scenario.email
           (Scenario.after Scenario.wideClose Cases.typedSince)
           (Scenario.after Scenario.wideClose
              (Cases.typedSince ++ [Page.SaveResolved]))
           Cases.sent []).
  - exists 0%Z, (Scenario.page Scenario.wideClose),
      (Scenario.after Scenario.wideClose []), Cases.typedSince.
    split; vm_compute; reflexivity.
  - vm_compute. reflexivity.
  - vm_compute. reflexivity.
Defined.

(** X20.  A flush sends what the editor shows at that moment: the list
    and the two texts of the state, not an older copy.  The write is put
    in the queue when the user has an e-mail; without one nothing is
    written, and yet the dirty flag is cleared.  The flush changes nothing
    else in the editor and leaves the user document of the page alone. *)
Theorem flush_sends_what_is_shown (email : option JS.str)
    (sys sys' : Page.Sys) (now : Z) :
  Page.reachable email sys → Page.flushes now sys = true →
  Page.step email (Page.Tick now) sys = Some sys' →
  Page.inflight sys' =
  Page.inflight sys ++ match email with
                       | Some _ => [PageMore.shown (Page.editor sys)]
                       | None => []
                       end ∧
  Page.editor sys' = PromptEditor.set_hasChanges false (Page.editor sys) ∧
  App.userDoc (Page.app sys') = App.userDoc (Page.app sys).
Proof.
  intros Hreach Hfl Hstep.
  destruct (reachable_rest email sys Hreach) as (_ & _ & Hir & Hbr & Har & _).
  unfold Page.flushes in Hfl. apply bool_decide_eq_true in Hfl.
  unfold Page.step in Hstep. cbn [Page.stepWith] in Hstep.
  unfold PromptEditor.autoSaveTick in *.
  destruct (decide (length (PromptEditor.itemsRef (Page.editor sys)) = 0)).
  { by destruct Hfl. }
  destruct (PromptEditor.hasChanges (Page.editor sys)); cbn [negb] in *.
  2:{ by destruct Hfl. }
  destruct (decide (5000 ≤ now - PromptEditor.lastInputTime (Page.editor sys))%Z).
  2:{ by destruct Hfl. }
  cbn in Hstep. injection Hstep as <-. cbn.
  unfold PageMore.shown. rewrite Hir, Hbr, Har.
  split; [done|]. split; [done|]. by destruct email.
Qed.

Lemma flush_of_the_renamed_row :
  Page.inflight
    (Scenario.after Scenario.wideClose
       [Page.NameChange 0 (JS.lit "wider") 0; Page.Tick 5000]) =
  Page.inflight
    (Scenario.after Scenario.wideClose [Page.NameChange 0 (JS.lit "wider") 0])
  ++ [PageMore.shown
        (Page.editor
           (Scenario.after Scenario.wideClose
              [Page.NameChange 0 (JS.lit "wider") 0]))].
Proof.
  apply (flush_sends_what_is_shown Scenario.email
           (Scenario.after Scenario.wideClose
              [Page.NameChange 0 (JS.lit "wider") 0])
           (Scenario.after Scenario.wideClose
              [Page.NameChange 0 (JS.lit "wider") 0; Page.Tick 5000])
           5000%Z).
  - exists 0%Z, (Scenario.page Scenario.wideClose),
      (Scenario.after Scenario.wideClose []),
      [Page.NameChange 0 (JS.lit "wider") 0].
    split; vm_compute; reflexivity.
  - vm_compute. reflexivity.
  - vm_compute. reflexivity.
Defined.

(** X21.  An edit that rebuilds the list (a change of a row, adding,
    deleting, a drop that moves a row) reaches the user document of the
    page at once, before any write: the document then holds the list and
    the texts the editor shows, its other fields unchanged, and nothing is
    put in the write queue. *)
Theorem list_edits_reach_the_page_at_once (email : option JS.str)
    (ev : Page.Event) (sys sys' : Page.Sys) :
  Page.reachable email sys → Page.step email ev sys = Some sys' →
  PageMore.rebuildsList ev sys = true →
  ∃ doc, App.userDoc (Page.app sys) = Some doc ∧
    App.userDoc (Page.app sys') =
    Some (UserDocument.mk (UserDocument.firstname doc)
            (UserDocument.lastname doc)
            (map PromptEditor.toPrompt (PromptEditor.items (Page.editor sys')))
            (Some (PromptEditor.beforeText (Page.editor sys')))
            (Some (PromptEditor.afterText (Page.editor sys')))
            (UserDocument.historic_cost doc)
            (UserDocument.historic_images doc)) ∧
    Page.inflight sys' = Page.inflight sys.
Proof.
  intros Hreach Hstep Hre.
  pose proof (reachable_rest email sys Hreach) as Hrest.
  destruct (reachable_inStep email sys Hreach) as ([doc Hdoc] & _).
  exists doc. split; [done|].
  destruct (step_shape email ev sys sys' Hstep)
    as [(st & Hh & ->)|[(Hno & _)|(Hno & _)]]; [|congruence..].
  rewrite Hre in *.
  destruct (afterEdit_app sys st true Hrest Hh) as [Happ _].
  destruct (afterEdit_renders sys st true Hrest Hh)
    as (_ & Hi & Hb & Ha & _ & _ & Hq).
  rewrite Happ, Hi, Hb, Ha, Hq. cbn. by rewrite Hdoc.
Qed.

Lemma renamed_row_reaches_the_page :
  ∃ doc,
    App.userDoc (Page.app (Scenario.after Scenario.wideClose [])) = Some doc ∧
    App.userDoc
      (Page.app
         (Scenario.after Scenario.wideClose
            [Page.NameChange 0 (JS.lit "wider") 0])) =
    Some (UserDocument.mk (UserDocument.firstname doc)
            (UserDocument.lastname doc)
            (map PromptEditor.toPrompt
               (PromptEditor.items
                  (Page.editor
                     (Scenario.after Scenario.wideClose
                        [Page.NameChange 0 (JS.lit "wider") 0]))))
            (Some (PromptEditor.beforeText
                     (Page.editor
                        (Scenario.after Scenario.wideClose
                           [Page.NameChange 0 (JS.lit "wider") 0]))))
            (Some (PromptEditor.afterText
                     (Page.editor
                        (Scenario.after Scenario.wideClose
                           [Page.NameChange 0 (JS.lit "wider") 0]))))
            (UserDocument.historic_cost doc)
            (UserDocument.historic_images doc)) ∧
    Page.inflight
      (Scenario.after Scenario.wideClose [Page.NameChange 0 (JS.lit "wider") 0])
    = Page.inflight (Scenario.after Scenario.wideClose []).
Proof.
  apply (list_edits_reach_the_page_at_once Scenario.email
           (Page.NameChange 0 (JS.lit "wider") 0)
           (Scenario.after Scenario.wideClose [])
           (Scenario.after Scenario.wideClose
              [Page.NameChange 0 (JS.lit "wider") 0])).
  - exists 0%Z, (Scenario.page Scenario.wideClose),
      (Scenario.after Scenario.wideClose []), [].
    split; vm_compute; reflexivity.
  - vm_compute. reflexivity.
  - reflexivity.
Defined.

(** X22.  Mounting the editor on a loaded user document leaves the
    document's list as it was, although the editor reports an empty list
    first and its own copy afterwards; a missing before or after text
    becomes the empty string.  The editor shows the document and is not
    dirty. *)
Theorem mount_keeps_the_document (now : Z) (app0 : App.State)
    (doc : UserDocument.t) :
  App.userDoc app0 = Some doc →
  ∃ sys, Page.mount now app0 = Some sys ∧
    App.userDoc (Page.app sys) =
    Some (UserDocument.mk (UserDocument.firstname doc)
            (UserDocument.lastname doc) (UserDocument.prompts doc)
            (Some (default [] (UserDocument.prompt_before doc)))
            (Some (default [] (UserDocument.prompt_after doc)))
            (UserDocument.historic_cost doc)
            (UserDocument.historic_images doc)) ∧
    PageMore.shown (Page.editor sys) = Page.propsOf doc ∧
    PromptEditor.hasChanges (Page.editor sys) = false ∧
    App.logs (Page.app sys) = App.logs app0 ∧
    App.results (Page.app sys) = App.results app0.
Proof.
  intros Hdoc.
  pose proof (mountWith_result 1 now app0 doc Hdoc) as Hres. cbv zeta in Hres.
  change (3 + 1) with Page.renders in Hres.
  eexists. split; [exact Hres|]. cbn. rewrite Hdoc. cbn.
  unfold PageMore.shown. cbn. rewrite !toPrompt_toItem. done.
Qed.

Lemma mount_keeps_scenario_A :
  ∃ sys, Page.mount 0 (Scenario.page Scenario.wideClose) = Some sys ∧
    App.userDoc (Page.app sys) =
    Some (UserDocument.mk (UserDocument.firstname Scenario.wideClose)
            (UserDocument.lastname Scenario.wideClose)
            (UserDocument.prompts Scenario.wideClose)
            (Some (default [] (UserDocument.prompt_before Scenario.wideClose)))
            (Some (default [] (UserDocument.prompt_after Scenario.wideClose)))
            (UserDocument.historic_cost Scenario.wideClose)
            (UserDocument.historic_images Scenario.wideClose)) ∧
    PageMore.shown (Page.editor sys) = Page.propsOf Scenario.wideClose ∧
    PromptEditor.hasChanges (Page.editor sys) = false ∧
    App.logs (Page.app sys) = App.logs (Scenario.page Scenario.wideClose) ∧
    App.results (Page.app sys) = App.results (Scenario.page Scenario.wideClose).
Proof.
  apply (mount_keeps_the_document 0 (Scenario.page Scenario.wideClose)
           Scenario.wideClose).
  reflexivity.
Defined.

(* ===================================================================== *)
(** * Properties of the handlers of the editor *)
(* ===================================================================== *)

(** X23.  Dropping the dragged row on another row moves it there: the
    dragged row ends at the index of the row it was dropped on, the other
    rows keep their order, no row is lost or doubled, the drag marks are
    cleared and the editor is dirty from that moment. *)
Theorem handleDrop_moves_one_row (index dragged : nat) (now : Z)
    (st : PromptEditor.State) (item : PromptEditor.PromptItem.t) :
  PromptEditor.draggedIndex st = Some dragged → dragged ≠ index →
  PromptEditor.items st !! dragged = Some item →
  index < length (PromptEditor.items st) →
  ∃ st', PromptEditor.handleDrop index now st = Some (st', true) ∧
    PromptEditor.items st' !! index = Some item ∧
    delete index (PromptEditor.items st')
    = delete dragged (PromptEditor.items st) ∧
    PromptEditor.items st' ≡ₚ PromptEditor.items st ∧
    PromptEditor.hasChanges st' = true ∧
    PromptEditor.lastInputTime st' = now ∧
    PromptEditor.draggedIndex st' = None ∧
    PromptEditor.dragOverIndex st' = None.
Proof.
  intros Hd Hne Hitem Hlt. unfold PromptEditor.handleDrop.
  rewrite Hd. rewrite decide_False by done.
  change (PromptEditor.items (PromptEditor.recordInput now st))
    with (PromptEditor.items st).
  rewrite Hitem. cbn [mbind option_bind].
  eexists. split; [reflexivity|]. cbn. unfold PromptEditor.spliceIn.
  assert (length (take index (delete dragged (PromptEditor.items st))) = index)
    as Hlen.
  { apply length_take_le. rewrite length_delete by (by eexists). lia. }
  split; [by apply list_lookup_middle|]. split.
  - rewrite <- Hlen at 1. rewrite delete_middle. apply take_drop.
  - split; [|done].
    rewrite <- Permutation_middle, take_drop.
    symmetry. by apply delete_Permutation.
Qed.

Lemma handleDrop_first_row_on_the_second :
  ∃ st', PromptEditor.handleDrop 1 7000 Cases.dragging = Some (st', true) ∧
    PromptEditor.items st' !! 1 =
    Some (PromptEditor.PromptItem.mk (JS.lit "wide") (JS.lit "a wide shot")
            true false) ∧
    delete 1 (PromptEditor.items st')
    = delete 0 (PromptEditor.items Cases.dragging) ∧
    PromptEditor.items st' ≡ₚ PromptEditor.items Cases.dragging ∧
    PromptEditor.hasChanges st' = true ∧
    PromptEditor.lastInputTime st' = 7000%Z ∧
    PromptEditor.draggedIndex st' = None ∧
    PromptEditor.dragOverIndex st' = None.
Proof.
  apply (handleDrop_moves_one_row 1 0 7000 Cases.dragging
           (PromptEditor.PromptItem.mk (JS.lit "wide") (JS.lit "a wide shot")
              true false)).
  - reflexivity.
  - discriminate.
  - reflexivity.
  - cbn. lia.
Defined.

(** X24.  Deleting a row removes that row and no other: the rows before
    it stay where they are, the rows after it move up by one.  With an
    index past the end the list is left as it is, and the editor is marked
    dirty all the same. *)
Theorem handleDeletePrompt_removes_one_row (index : nat) (now : Z)
    (st : PromptEditor.State) :
  (∀ j, j < index →
     PromptEditor.items (PromptEditor.handleDeletePrompt index now st) !! j
     = PromptEditor.items st !! j) ∧
  (∀ j, index ≤ j →
     PromptEditor.items (PromptEditor.handleDeletePrompt index now st) !! j
     = PromptEditor.items st !! S j) ∧
  (length (PromptEditor.items st) ≤ index →
   PromptEditor.items (PromptEditor.handleDeletePrompt index now st)
   = PromptEditor.items st) ∧
  PromptEditor.hasChanges (PromptEditor.handleDeletePrompt index now st)
  = true ∧
  PromptEditor.lastInputTime (PromptEditor.handleDeletePrompt index now st)
  = now.
Proof.
  cbn. split; [|split; [|split]].
  - intros j Hj. by apply list_lookup_delete_lt.
  - intros j Hj. by apply list_lookup_delete_ge.
  - intros Hge. apply list_eq. intros j.
    destruct (decide (j < index)).
    + by apply list_lookup_delete_lt.
    + rewrite list_lookup_delete_ge by lia.
      rewrite !lookup_ge_None_2 by lia. done.
  - done.
Qed.

(* ===================================================================== *)
(** * The lifetime totals between the browser and the cloud *)
(* ===================================================================== *)

Section FloatFacts.

Import SpecFloat.

Lemma SFcompare_Lt_Gt (a b : spec_float) :
  SFcompare a b = Some Lt → SFcompare b a = Some Gt.
Proof.
  destruct a as [sa|sa| |sa ma ea], b as [sb|sb| |sb mb eb]; cbn;
    try done; try (by destruct sa); try (by destruct sb);
    try (by destruct sa, sb).
  destruct sa, sb; try done.
  - rewrite (Z.compare_antisym ea eb).
    change (Pos.compare_cont Eq mb ma) with (Pos.compare mb ma).
    change (Pos.compare_cont Eq ma mb) with (Pos.compare ma mb).
    rewrite (Pos.compare_antisym ma mb).
    by destruct (ea ?= eb)%Z, (ma ?= mb)%positive.
  - rewrite (Z.compare_antisym ea eb).
    change (Pos.compare_cont Eq mb ma) with (Pos.compare mb ma).
    change (Pos.compare_cont Eq ma mb) with (Pos.compare ma mb).
    rewrite (Pos.compare_antisym ma mb).
    by destruct (ea ?= eb)%Z, (ma ?= mb)%positive.
Qed.

Lemma ltb_not_back (a b : float) :
  (a <? b)%float = true → (b =? a)%float = false ∧ (b <? a)%float = false.
Proof.
  rewrite !FloatAxioms.ltb_spec, FloatAxioms.eqb_spec. unfold SFltb, SFeqb.
  destruct (SFcompare (FloatOps.Prim2SF a) (FloatOps.Prim2SF b)) as [[]|] eqn:E; try done.
  intros _. by rewrite (SFcompare_Lt_Gt _ _ E).
Qed.

Lemma ltb_irrefl (a : float) : (a <? a)%float = false.
Proof.
  destruct (a <? a)%float eqn:E; [|done].
  destruct (ltb_not_back a a E) as [_ H]. congruence.
Qed.

End FloatFacts.

(** X25.  Merging the remote lifetime totals comes to rest after one
    step: run again on the state it produced, with the same user document,
    the effect changes nothing. *)
Theorem merge_comes_to_rest (st : App.State) :
  App.loadHistoricData (App.loadHistoricData st) = App.loadHistoricData st.
Proof.
  assert (App.userDoc (App.loadHistoricData st) = App.userDoc st) as Hdoc.
  { unfold App.loadHistoricData. by destruct (_ || _). }
  pose proof (loadHistoricData_tokenUsage st) as Hu. cbv zeta in Hu.
  unfold App.loadHistoricData at 1. unfold App.historicUpdates.
  rewrite Hdoc, Hu. cbn [TokenUsage.historic_cost TokenUsage.historic_images].
  destruct (App.userDoc st ≫= UserDocument.historic_cost) as [c|];
    destruct (App.userDoc st ≫= UserDocument.historic_images) as [n|]; cbn;
    try destruct (TokenUsage.historic_cost (App.tokenUsage st) <? _)%float
      eqn:Ec;
    try destruct (TokenUsage.historic_images (App.tokenUsage st) <? _)%float
      eqn:En;
    rewrite ?ltb_irrefl, ?Ec, ?En; reflexivity.
Qed.

(** X26.  Lifetime totals adopted from the cloud go back to the cloud:
    when the merge has raised the lifetime cost or the lifetime image
    count of a ledger the refs were in step with, the effect that follows
    writes the merged pair. *)
Theorem adopted_totals_are_written_back (e : JS.str) (st : App.State)
    (remote : float) :
  (App.userDoc st ≫= UserDocument.historic_cost = Some remote ∧
   (TokenUsage.historic_cost (App.tokenUsage st) <? remote)%float = true) ∨
  (App.userDoc st ≫= UserDocument.historic_images = Some remote ∧
   (TokenUsage.historic_images (App.tokenUsage st) <? remote)%float = true) →
  snd (AppMore.syncHistoric (Some e) (AppMore.initialRefs (App.tokenUsage st))
         (App.tokenUsage (App.loadHistoricData st))) =
  Some (TokenUsage.historic_cost (App.tokenUsage (App.loadHistoricData st)),
        TokenUsage.historic_images (App.tokenUsage (App.loadHistoricData st))).
Proof.
  intros H.
  pose proof (loadHistoricData_tokenUsage st) as Hu. cbv zeta in Hu.
  rewrite Hu. unfold AppMore.syncHistoric, AppMore.initialRefs.
  cbn [TokenUsage.historic_cost TokenUsage.historic_images
       AppMore.prevHistoricCostRef AppMore.prevHistoricImagesRef].
  destruct H as [[-> Hlt]|[-> Hlt]]; rewrite Hlt;
    destruct (ltb_not_back _ _ Hlt) as [-> _]; cbn [negb orb].
  - reflexivity.
  - by rewrite orb_true_r.
Qed.

Lemma adopted_totals_of_the_page_ahead :
  snd (AppMore.syncHistoric (Some (JS.lit "ada@example.org"))
         (AppMore.initialRefs (App.tokenUsage Cases.ahead))
         (App.tokenUsage (App.loadHistoricData Cases.ahead))) =
  Some (TokenUsage.historic_cost
          (App.tokenUsage (App.loadHistoricData Cases.ahead)),
        TokenUsage.historic_images
          (App.tokenUsage (App.loadHistoricData Cases.ahead))).
Proof.
  apply (adopted_totals_are_written_back (JS.lit "ada@example.org")
           Cases.ahead 5%float).
  left. split; reflexivity.
Defined.

(* ===================================================================== *)
(** * What a batch would run after an inbound update *)
(* ===================================================================== *)

Section InboundFacts.

Import PromptEditor Page PageMore.

(** What the renders after a new user document leave in [App]. *)
Lemma afterDoc_app (sys : Sys) (app' : App.State) (doc : UserDocument.t) :
  atRest sys → inStep sys → App.userDoc app' = Some doc →
  app (afterDoc renders sys app') =
  if textDiffers (propsOf doc) (props (editor sys))
  then App.handlePromptsChange (map toPrompt (items (editor sys)))
         (promptBefore (propsOf doc)) (promptAfter (propsOf doc)) app'
  else app'.
Proof.
  intros Hrest (_ & Hb & Ha) Hdoc.
  pose proof (afterDoc_as_edit 0 sys app' Hrest) as Hres. cbv zeta in Hres.
  change (4 + 0) with renders in Hres. change (3 + 0) with 3 in Hres.
  rewrite Hres. clear Hres.
  assert (propsNow app' (props (editor sys)) = propsOf doc) as ->.
  { unfold propsNow. by rewrite Hdoc. }
  set (next := propsOf doc).
  set (r := set_props next (editor sys)).
  set (st := if textDiffers next (props (editor sys)) then _ else r).
  destruct Hrest as (Hinit & _).
  assert (isInitialized st = true) as Hst.
  { subst st r. by destruct (textDiffers _ _), (editor sys). }
  pose proof (afterEdit_result 0 (mk app' r (inflight sys)) st false Hst)
    as Hres.
  cbv zeta in Hres. change (3 + 0) with 3 in Hres. rewrite Hres. clear Hres.
  cbn [editor Page.app orb]. subst st.
  destruct (textDiffers next (props (editor sys))) eqn:Htp.
  - assert (bool_decide
              (beforeText (set_afterText (promptAfter next)
                             (set_beforeText (promptBefore next) r))
               ≠ beforeText r)
            || bool_decide
                 (afterText (set_afterText (promptAfter next)
                               (set_beforeText (promptBefore next) r))
                  ≠ afterText r) = true) as ->.
    { unfold textDiffers in Htp. rewrite Hb, Ha in Htp.
      subst r. by destruct (editor sys). }
    subst r. by destruct (editor sys).
  - by rewrite !bool_decide_ne_refl.
Qed.

End InboundFacts.

(** X27.  After an inbound update the page and the editor can disagree
    about the list.  When the inbound document has the texts the editor
    shows, the page holds the inbound document as it came, so that a batch
    would run the inbound list, while the editor goes on showing its own.
    When a text differs, the editor takes the inbound texts and reports
    back, and the page holds the inbound document with the editor's list in
    it. *)
Theorem inbound_list_and_the_batch (email : option JS.str) (sys sys' : Page.Sys)
    (doc : UserDocument.t) :
  Page.reachable email sys →
  Page.step email (Page.Inbound doc) sys = Some sys' →
  PromptEditor.items (Page.editor sys') = PromptEditor.items (Page.editor sys) ∧
  App.userDoc (Page.app sys') =
  if Page.textDiffers (Page.propsOf doc) (PromptEditor.props (Page.editor sys))
  then Some (UserDocument.mk (UserDocument.firstname doc)
               (UserDocument.lastname doc)
               (map PromptEditor.toPrompt (PromptEditor.items (Page.editor sys)))
               (Some (default [] (UserDocument.prompt_before doc)))
               (Some (default [] (UserDocument.prompt_after doc)))
               (UserDocument.historic_cost doc)
               (UserDocument.historic_images doc))
  else Some doc.
Proof.
  intros Hreach Hstep.
  pose proof (reachable_rest email sys Hreach) as Hrest.
  pose proof (reachable_inStep email sys Hreach) as Hin.
  unfold Page.step in Hstep. cbn [Page.stepWith] in Hstep.
  injection Hstep as <-.
  split.
  - by destruct (afterDoc_renders sys
                   (App.fetchUserDoc_resolved doc (Page.app sys)) Hrest)
      as (_ & -> & _).
  - rewrite (afterDoc_app sys (App.fetchUserDoc_resolved doc (Page.app sys))
               doc Hrest Hin eq_refl).
    by destruct (Page.textDiffers _ _).
Qed.

Lemma inbound_list_of_another_device :
  PromptEditor.items
    (Page.editor
       (Scenario.after Scenario.wideClose [Page.Inbound Scenario.otherList]))
  = PromptEditor.items (Page.editor (Scenario.after Scenario.wideClose [])) ∧
  App.userDoc
    (Page.app
       (Scenario.after Scenario.wideClose [Page.Inbound Scenario.otherList]))
  = Some Scenario.otherList.
Proof.
  apply (inbound_list_and_the_batch Scenario.email
           (Scenario.after Scenario.wideClose [])
           (Scenario.after Scenario.wideClose [Page.Inbound Scenario.otherList])
           Scenario.otherList).
  - exists 0%Z, (Scenario.page Scenario.wideClose),
      (Scenario.after Scenario.wideClose []), [].
    split; vm_compute; reflexivity.
  - vm_compute. reflexivity.
Defined.

(* ===================================================================== *)
(** * Properties of the user document in the store *)
(* ===================================================================== *)

(** X28.  The two writers of the page do not clash in the store: the
    write of the prompt list and the write of the lifetime totals touch
    different fields, so in either order they leave the same document, in
    which the list and texts are the saved ones, the totals the written
    ones and the names those of before; reading the document afterwards
    returns it and leaves the store alone. *)
Theorem the_two_writers_do_not_clash (d : UserDocument.t)
    (saved : PromptEditor.Props) (written : float * float) :
  Firestore.andThen
    (Firestore.updateUserDocument true (Firestore.promptsData saved) (Some d))
    (Firestore.updateUserDocument true (Firestore.totalsData written))
  = Firestore.andThen
      (Firestore.updateUserDocument true (Firestore.totalsData written) (Some d))
      (Firestore.updateUserDocument true (Firestore.promptsData saved)) ∧
  Firestore.andThen
    (Firestore.andThen
       (Firestore.updateUserDocument true (Firestore.promptsData saved) (Some d))
       (Firestore.updateUserDocument true (Firestore.totalsData written)))
    (Firestore.getUserDocument true)
  = Some (UserDocument.mk (UserDocument.firstname d) (UserDocument.lastname d)
            (PromptEditor.prompts saved)
            (Some (PromptEditor.promptBefore saved))
            (Some (PromptEditor.promptAfter saved))
            (Some (fst written)) (Some (snd written)),
          Some (UserDocument.mk (UserDocument.firstname d)
                  (UserDocument.lastname d) (PromptEditor.prompts saved)
                  (Some (PromptEditor.promptBefore saved))
                  (Some (PromptEditor.promptAfter saved))
                  (Some (fst written)) (Some (snd written)))).
Proof. split; reflexivity. Qed.

(** X29.  The first read for a user creates their document, with no
    prompts and both lifetime totals [0], and a second read returns that
    same document without writing.  On a page that holds this document the
    RUN button is disabled and [handleProcess] answers "Error: No prompts
    configured.". *)
Theorem first_read_creates_an_empty_document (env : App.Env) (st : App.State)
    (doc : UserDocument.t) (store : Firestore.Store) :
  Firestore.getUserDocument true None = Some (doc, store) →
  App.userDoc st = Some doc →
  UserDocument.prompts doc = [] ∧
  UserDocument.historic_cost doc = Some 0%float ∧
  UserDocument.historic_images doc = Some 0%float ∧
  Firestore.getUserDocument true store = Some (doc, store) ∧
  AppMore.runDisabled st = true ∧
  App.handleProcess env st = App.log Log.NoPromptsConfigured Log.error st.
Proof.
  intros [= <- <-] Hdoc.
  split; [done|]. split; [done|]. split; [done|]. split; [done|]. split.
  - unfold AppMore.runDisabled. rewrite Hdoc. cbn. by rewrite !orb_true_r.
  - unfold App.handleProcess. by rewrite Hdoc.
Qed.

Lemma first_read_of_a_new_user :
  UserDocument.prompts Firestore.newUserDoc = [] ∧
  UserDocument.historic_cost Firestore.newUserDoc = Some 0%float ∧
  UserDocument.historic_images Firestore.newUserDoc = Some 0%float ∧
  Firestore.getUserDocument true (Some Firestore.newUserDoc)
  = Some (Firestore.newUserDoc, Some Firestore.newUserDoc) ∧
  AppMore.runDisabled (Scenario.page Firestore.newUserDoc) = true ∧
  App.handleProcess (Scenario.remote false Scenario.succeeds)
    (Scenario.page Firestore.newUserDoc)
  = App.log Log.NoPromptsConfigured Log.error
      (Scenario.page Firestore.newUserDoc).
Proof.
  apply (first_read_creates_an_empty_document
           (Scenario.remote false Scenario.succeeds)
           (Scenario.page Firestore.newUserDoc) Firestore.newUserDoc
           (Some Firestore.newUserDoc)); reflexivity.
Defined.
